(** * fix_ente_timestamps.py: a shallow embedding and its properties

    The script walks an Ente Photos export (album folders holding media
    files and a [metadata/] folder of JSON sidecars), copies every media
    file with a usable sidecar to an output tree, corrects its extension
    from the type exiftool detects, and sets its dates with one batched
    exiftool run per album.

    The embedding follows the script function by function.  Python values
    that the script inspects (JSON values, strings, exceptions, paths) are
    inductive types; everything the script does to the outside world
    (pathlib queries, [json.load], [shutil.copy2], [subprocess.run],
    [print]) goes through a small state-and-exception monad over an
    abstract operating system, and is recorded in a trace of events. *)

From Stdlib Require Import ZArith String Ascii List Bool Lia Sorting.Sorted Permutation.
From Stdlib Require Import Floats.SpecFloat Structures.OrderedTypeEx.
From stdpp Require Import base option gmap strings list sorting.

Local Open Scope string_scope.
Local Open Scope list_scope.
Local Open Scope Z_scope.

(** ** Python strings

    A Python [str] is modelled by a Rocq [string], read as the sequence of
    its code points: the model covers the strings whose code points are
    below 256, and the functions below are the [str] methods the script
    calls, on such strings. *)

Module PyStr.

(** [str.lower]: the capital letters below 256 are A to Z and U+00C0 to
    U+00DE without the multiplication sign U+00D7; each has its small
    letter 32 places further. *)
Definition lower_char (c : ascii) : ascii :=
  let n := nat_of_ascii c in
  if ((65 <=? n)%nat && (n <=? 90)%nat)
     || ((192 <=? n)%nat && (n <=? 222)%nat && negb (n =? 215)%nat)
  then ascii_of_nat (n + 32) else c.

Fixpoint lower (s : string) : string :=
  match s with
  | EmptyString => EmptyString
  | String c r => String (lower_char c) (lower r)
  end.

(** [s.rfind(".")]: index of the last dot, [None] for Python's -1. *)
Fixpoint rfind_dot (s : string) : option nat :=
  match s with
  | EmptyString => None
  | String c r =>
      match rfind_dot r with
      | Some i => Some (S i)
      | None => if Ascii.eqb c "." then Some 0%nat else None
      end
  end.

(** [s[i:]] and [s[:i]] *)
Fixpoint drop (i : nat) (s : string) : string :=
  match i, s with
  | O, _ => s
  | S j, String _ r => drop j r
  | S _, EmptyString => EmptyString
  end.

Fixpoint take (i : nat) (s : string) : string :=
  match i, s with
  | O, _ => EmptyString
  | S j, String c r => String c (take j r)
  | S _, EmptyString => EmptyString
  end.

(** [s.startswith(p)] *)
Fixpoint startswith (p s : string) : bool :=
  match p, s with
  | EmptyString, _ => true
  | String a p', String b s' => Ascii.eqb a b && startswith p' s'
  | String _ _, EmptyString => false
  end.

(** [needle in hay] *)
Fixpoint contains (needle hay : string) : bool :=
  startswith needle hay ||
  match hay with
  | EmptyString => false
  | String _ r => contains needle r
  end.

(** [str.isspace] on one character, which [strip] and [split] use: tab,
    LF, VT, FF, CR, the four separators U+001C to U+001F, the space,
    U+0085 and U+00A0. *)
Definition is_space (c : ascii) : bool :=
  let n := nat_of_ascii c in
  ((9 <=? n)%nat && (n <=? 13)%nat) || ((28 <=? n)%nat && (n <=? 32)%nat)
  || (n =? 133)%nat || (n =? 160)%nat.

Fixpoint lstrip (s : string) : string :=
  match s with
  | String c r => if is_space c then lstrip r else s
  | EmptyString => EmptyString
  end.

Fixpoint rstrip (s : string) : string :=
  match s with
  | EmptyString => EmptyString
  | String c r =>
      match rstrip r with
      | EmptyString => if is_space c then EmptyString else String c EmptyString
      | r' => String c r'
      end
  end.

(** [s.strip()] *)
Definition strip (s : string) : string := rstrip (lstrip s).

(** [s.split(sep)] for a one-character separator: the pieces between the
    separators, empty pieces kept, never an empty list. *)
Fixpoint split_on (sep : ascii) (s : string) : list string :=
  match s with
  | EmptyString => [EmptyString]
  | String c r =>
      if Ascii.eqb c sep then EmptyString :: split_on sep r
      else match split_on sep r with
           | w :: ws => String c w :: ws
           | [] => [String c EmptyString]
           end
  end.

(** [s.split()]: the maximal runs of non-whitespace characters. *)
Fixpoint split_ws_aux (cur : option string) (s : string) : list string :=
  match s with
  | EmptyString => match cur with Some w => [w] | None => [] end
  | String c r =>
      if is_space c
      then match cur with
           | Some w => w :: split_ws_aux None r
           | None => split_ws_aux None r
           end
      else split_ws_aux (Some (match cur with
                               | Some w => w +:+ String c EmptyString
                               | None => String c EmptyString
                               end)) r
  end.

Definition split_ws (s : string) : list string := split_ws_aux None s.

(** [sep.join(parts)] *)
Fixpoint join (sep : string) (parts : list string) : string :=
  match parts with
  | [] => EmptyString
  | [p] => p
  | p :: ps => p +:+ sep +:+ join sep ps
  end.

(** [int(s)] for a [str], base ten: surrounding whitespace, one optional
    sign, then decimal digits in which single underscores may separate
    digits; more than 4300 digits are refused.  The whitespace [int]
    skips is that of C ([isspace]: tab, LF, VT, FF, CR, space) and the
    spaces above U+007F, which it first turns into spaces; the separators
    U+001C to U+001F are not skipped.  [None] stands for [ValueError]. *)
Definition is_int_space (c : ascii) : bool :=
  let n := nat_of_ascii c in
  ((9 <=? n)%nat && (n <=? 13)%nat) || (n =? 32)%nat
  || (n =? 133)%nat || (n =? 160)%nat.

Fixpoint int_lstrip (s : string) : string :=
  match s with
  | String c r => if is_int_space c then int_lstrip r else s
  | EmptyString => EmptyString
  end.

Fixpoint int_rstrip (s : string) : string :=
  match s with
  | EmptyString => EmptyString
  | String c r =>
      match int_rstrip r with
      | EmptyString => if is_int_space c then EmptyString else String c EmptyString
      | r' => String c r'
      end
  end.

Definition digit_val (c : ascii) : option Z :=
  let n := nat_of_ascii c in
  if (48 <=? n)%nat && (n <=? 57)%nat then Some (Z.of_nat (n - 48)) else None.

Fixpoint digits (acc : Z) (after_digit : bool) (s : string) : option Z :=
  match s with
  | EmptyString => if after_digit then Some acc else None
  | String c r =>
      match digit_val c with
      | Some d => digits (10 * acc + d) true r
      | None =>
          if Ascii.eqb c "_" && after_digit
          then match r with
               | EmptyString => None
               | String c' _ =>
                   match digit_val c' with
                   | Some _ => digits acc false r
                   | None => None
                   end
               end
          else None
      end
  end.

(** The number of digits of a text *)
Fixpoint digit_count (s : string) : nat :=
  match s with
  | EmptyString => O
  | String c r => match digit_val c with
                  | Some _ => S (digit_count r)
                  | None => digit_count r
                  end
  end.

(** [sys.get_int_max_str_digits()], as Python sets it *)
Definition max_str_digits : nat := 4300.

Definition to_int (s : string) : option Z :=
  let body := int_rstrip (int_lstrip s) in
  if (max_str_digits <? digit_count body)%nat then None
  else match body with
       | String "-" r => Z.opp <$> digits 0 false r
       | String "+" r => digits 0 false r
       | r => digits 0 false r
       end.

End PyStr.

(** ** Python exceptions and results

    The exception classes the script can meet, with their base class; an
    [except C] clause catches the instances of [C] and of its subclasses.
    The script only ever calls [sys.exit(1)], so [SystemExit] carries no
    status. *)

Inductive exc_class :=
| BaseException | Exception | KeyboardInterrupt | SystemExit
| KeyError | IndexError | ValueError | TypeError | AttributeError
| OverflowError | OSError | FileNotFoundError | PermissionError
| JSONDecodeError | UnicodeDecodeError.

Definition exc_base (c : exc_class) : option exc_class :=
  match c with
  | BaseException => None
  | Exception | KeyboardInterrupt | SystemExit => Some BaseException
  | FileNotFoundError | PermissionError => Some OSError
  | JSONDecodeError | UnicodeDecodeError => Some ValueError
  | _ => Some Exception
  end.

Definition exc_eqb (c d : exc_class) : bool :=
  match c, d with
  | BaseException, BaseException | Exception, Exception
  | KeyboardInterrupt, KeyboardInterrupt | SystemExit, SystemExit
  | KeyError, KeyError | IndexError, IndexError | ValueError, ValueError
  | TypeError, TypeError | AttributeError, AttributeError
  | OverflowError, OverflowError | OSError, OSError
  | FileNotFoundError, FileNotFoundError | PermissionError, PermissionError
  | JSONDecodeError, JSONDecodeError | UnicodeDecodeError, UnicodeDecodeError => true
  | _, _ => false
  end.

(** [issubclass(c, d)]; the hierarchy above is at most four classes deep. *)
Fixpoint issubclass_fuel (fuel : nat) (c d : exc_class) : bool :=
  exc_eqb c d ||
  match fuel, exc_base c with
  | S k, Some b => issubclass_fuel k b d
  | _, _ => false
  end.

Definition issubclass (c d : exc_class) : bool := issubclass_fuel 4 c d.

(** [except (C1, ..., Cn)] catches [e] *)
Definition caught_by (clause : list exc_class) (e : exc_class) : bool :=
  existsb (issubclass e) clause.

(** What evaluating a Python expression gives: a value or a raised
    exception. *)
Inductive result (A : Type) : Type :=
| Ok (a : A)
| Raise (e : exc_class).
Arguments Ok {A} a.
Arguments Raise {A} e.

Definition rbind {A B} (r : result A) (k : A -> result B) : result B :=
  match r with
  | Ok a => k a
  | Raise e => Raise e
  end.

(** [try: body / except clause: handler] *)
Definition rtry {A} (body : result A) (clause : list exc_class) (handler : result A)
  : result A :=
  match body with
  | Ok a => Ok a
  | Raise e => if caught_by clause e then handler else Raise e
  end.

Declare Scope result_scope.
Delimit Scope result_scope with result.
Notation "x <~ e ;; k" := (rbind e (fun x => k))
  (at level 100, e at next level, right associativity) : result_scope.

(** ** JSON values, as [json.load] builds them *)

#[local] Unset Elimination Schemes.
Inductive json :=
| JNull
| JBool (b : bool)
| JInt (z : Z)
| JFloat (f : spec_float)
| JStr (s : string)
| JList (l : list json)
| JDict (m : gmap string json).
#[local] Set Elimination Schemes.

(** [int(v)]: an [int] is itself, a [bool] is 0 or 1, a [float] is
    truncated towards zero ([nan] raises [ValueError], an infinity
    [OverflowError]), a [str] is parsed, anything else is a [TypeError]. *)
Definition float_trunc (f : spec_float) : result Z :=
  match f with
  | S754_zero _ => Ok 0
  | S754_infinity _ => Raise OverflowError
  | S754_nan => Raise ValueError
  | S754_finite s m e =>
      let mag := Z.shiftl (Z.pos m) e in
      Ok (if s then - mag else mag)
  end.

Definition py_int (v : json) : result Z :=
  match v with
  | JInt z => Ok z
  | JBool b => Ok (if b then 1 else 0)
  | JFloat f => float_trunc f
  | JStr s => match PyStr.to_int s with
              | Some z => Ok z
              | None => Raise ValueError
              end
  | JNull | JList _ | JDict _ => Raise TypeError
  end.

(** [key in v] for a [str] key: key membership in a dict, element
    membership in a list, substring in a [str]; the other values are not
    iterable. *)
Definition py_in (key : string) (v : json) : result bool :=
  match v with
  | JDict m => Ok (bool_decide (is_Some (m !! key)))
  | JList l => Ok (existsb (fun x => match x with
                                     | JStr s => String.eqb s key
                                     | _ => false
                                     end) l)
  | JStr s => Ok (PyStr.contains key s)
  | JNull | JBool _ | JInt _ | JFloat _ => Raise TypeError
  end.

(** [v[key]] for a [str] key *)
Definition py_getitem (v : json) (key : string) : result json :=
  match v with
  | JDict m => match m !! key with
               | Some x => Ok x
               | None => Raise KeyError
               end
  | _ => Raise TypeError
  end.

(** [d.get(key, default)] on a dict *)
Definition dict_get (m : gmap string json) (key : string) (default : json) : json :=
  match m !! key with
  | Some x => x
  | None => default
  end.

(** ** The clock

    [datetime.fromtimestamp] depends on the platform's [time_t] and time
    zone, and [strftime] on the zone: both are taken from the platform.
    [fromtimestamp] raises [ValueError] for a year outside 1..9999 and
    [OverflowError] or [OSError] for a value the C library refuses. *)

Class Clock := {
  datetime : Type;
  fromtimestamp : Z -> result datetime;
  (** [dt.strftime("%Y:%m:%d %H:%M:%S")] *)
  strftime_exif : datetime -> string;
}.

(** ** Paths

    A [pathlib.Path] is the list of its components below the root; the
    script resolves its two arguments before it uses them. *)

Definition Path := list string.

(** [p.name] *)
Definition name (p : Path) : string := List.last p "".

(** [p / s] for a single component [s] *)
Definition pjoin (p : Path) (s : string) : Path := p ++ [s].

(** [str(p)] *)
Definition path_str (p : Path) : string :=
  match p with
  | [] => "/"
  | _ => String.concat "" (List.map (fun c => "/" +:+ c) p)
  end.

(** [PurePath.suffix] and [PurePath.stem] of a name (Python 3.9 to 3.13):
    the name is cut at its last dot unless that dot is its first or its
    last character. *)
Definition suffix_of (nm : string) : string :=
  match PyStr.rfind_dot nm with
  | Some i => if (0 <? i)%nat && (i <? String.length nm - 1)%nat
              then PyStr.drop i nm else ""
  | None => ""
  end.

Definition stem_of (nm : string) : string :=
  match PyStr.rfind_dot nm with
  | Some i => if (0 <? i)%nat && (i <? String.length nm - 1)%nat
              then PyStr.take i nm else nm
  | None => nm
  end.

Definition suffix (p : Path) : string := suffix_of (name p).
Definition stem (p : Path) : string := stem_of (name p).

(** ** The script's tables *)

Definition FILETYPE_TO_EXT : gmap string string :=
  list_to_map
    [("JPEG", ".jpg"); ("PNG", ".png"); ("GIF", ".gif"); ("WEBP", ".webp");
     ("HEIC", ".heic"); ("HEIF", ".heic"); ("MP4", ".mp4"); ("MOV", ".mov");
     ("QuickTime", ".mov"); ("AVI", ".avi"); ("WEBM", ".webm"); ("MKV", ".mkv");
     ("TIFF", ".tiff"); ("BMP", ".bmp"); ("CR2", ".cr2"); ("NEF", ".nef");
     ("ARW", ".arw"); ("DNG", ".dng"); ("RAF", ".raf"); ("ORF", ".orf");
     ("RW2", ".rw2")].

Definition EXT_ALIASES : gmap string string :=
  list_to_map
    [(".jpeg", ".jpg"); (".jpe", ".jpg"); (".m4v", ".mp4"); (".heif", ".heic");
     (".tif", ".tiff")].

(** [EXT_ALIASES.get(ext, ext)] *)
Definition normalize_ext (ext : string) : string :=
  default ext (EXT_ALIASES !! ext).

(** ** get_corrected_filename *)

Definition get_corrected_filename (filepath : Path) (detected_ext : option string)
  : string * bool :=
  match detected_ext with
  | None => (name filepath, false)
  | Some detected_ext =>
      let current_ext := PyStr.lower (suffix filepath) in
      let normalized_current := normalize_ext current_ext in
      let normalized_detected := normalize_ext detected_ext in
      if String.eqb normalized_current normalized_detected
      then (name filepath, false)
      else (stem filepath +:+ detected_ext, true)
  end.

(** ** parse_timestamp *)

Section ParseTimestamp.
Context {clk : Clock}.
Local Open Scope result_scope.

(** The body of one [try] block: [int(metadata[field]["timestamp"])], then
    [datetime.fromtimestamp]. *)
Definition read_timestamp (metadata : json) (field : string) : result datetime :=
  entry <~ py_getitem metadata field ;;
  raw <~ py_getitem entry "timestamp" ;;
  ts <~ py_int raw ;;
  fromtimestamp ts.

(** One [if field in metadata: try: ... except (KeyError, ValueError,
    TypeError): pass]: [Some] is the early [return]. *)
Definition try_field (metadata : json) (field : string) : result (option datetime) :=
  present <~ py_in field metadata ;;
  if present
  then rtry (dt <~ read_timestamp metadata field ;; Ok (Some dt))
            [KeyError; ValueError; TypeError]
            (Ok None)
  else Ok None.

Definition parse_timestamp (metadata : json) : result (option datetime) :=
  taken <~ try_field metadata "photoTakenTime" ;;
  match taken with
  | Some dt => Ok (Some dt)
  | None => try_field metadata "creationTime"
  end.

(** [format_exif_datetime] *)
Definition format_exif_datetime (dt : datetime) : string := strftime_exif dt.

End ParseTimestamp.

(** ** The operating system and the trace

    [subprocess.run(..., capture_output=True, text=True, check=False)]
    gives a [CompletedProcess]. *)

Record completed := {
  returncode : Z;
  stdout : string;
  stderr : string;
}.

(** The outside world, as the script reaches it.  Queries read the state;
    the other calls may change it.  Every call returns a [result]:
    [is_dir], [is_file] and [exists] answer [False] for a path that is not
    there, and raise the [OSError] of any other failure of [stat]
    (permission denied, name too long), as pathlib does.  [json_loads] is
    [json.loads], a pure function of the text. *)
Class OS := {
  os : Type;
  (** [p.iterdir()], the names of the entries in the order the system
      lists them *)
  iterdir : Path -> os -> result (list string);
  is_dir : Path -> os -> result bool;
  is_file : Path -> os -> result bool;
  path_exists : Path -> os -> result bool;
  (** [with open(p, "r") as f: json.load(f)] *)
  load_json : Path -> os -> result json;
  (** [p.mkdir(parents=True, exist_ok=True)] *)
  mkdir_p : Path -> os -> result unit * os;
  (** [shutil.copy2(src, dst)] *)
  copy2 : Path -> Path -> os -> result unit * os;
  (** [with tempfile.NamedTemporaryFile(mode="w", suffix=".txt",
      delete=False) as f: f.write(text)], giving [f.name] *)
  write_temp : string -> os -> result string * os;
  subprocess_run : list string -> os -> result completed * os;
  (** [Path(p).unlink()] *)
  unlink : string -> os -> result unit * os;
  json_loads : string -> result json;
}.

(** What [print] is given, one constructor per [print] call of the
    script. *)
Inductive message :=
| MsgDetectFailed (err : string)
| MsgExiftoolNotFound
| MsgDetectParseFailed
| MsgDetectError (e : exc_class)
| MsgDryRunWouldSet (nm exif_dt : string)
| MsgExiftoolWarnings (n : nat)
| MsgExiftoolWarning (line : string)
| MsgMoreWarnings (n : nat)
| MsgTimestampError (e : exc_class)
| MsgNoMediaFiles
| MsgDetecting (n : nat)
| MsgReadingMetadata
| MsgSkipNoMetadata (nm : string)
| MsgMetadataError (nm : string) (e : exc_class)
| MsgSkipNoTimestamp (nm : string)
| MsgFix (nm corrected : string)
| MsgCopying (n : nat)
| MsgCopyError (nm : string) (e : exc_class)
| MsgDryRunWouldCopy (nm : string)
| MsgSettingTimestamps (n : nat)
| MsgDone (dry_run : bool)
| MsgInputMissing (p : Path)
| MsgInputNotDir (p : Path)
| MsgNoAlbums (p : Path)
| MsgFound (n : nat)
| MsgInput (p : Path)
| MsgOutput (p : Path)
| MsgDryRunMode
| MsgBlank
| MsgAlbum (nm : string)
| MsgRule
| MsgSummaryHeading
| MsgAlbumsProcessed (n : nat)
| MsgFilesProcessed (n : Z)
| MsgFilesRenamed (n : Z)
| MsgFilesSkipped (n : Z)
| MsgErrors (n : Z)
| MsgDryRunNothingModified.

(** One call to the outside world, with what it answered. *)
Inductive event :=
| EvPrint (m : message)
| EvIterdir (p : Path) (r : result (list string))
| EvIsDir (p : Path) (r : result bool)
| EvIsFile (p : Path) (r : result bool)
| EvExists (p : Path) (r : result bool)
| EvLoadJson (p : Path) (r : result json)
| EvMkdir (p : Path) (r : result unit)
| EvCopy2 (src dst : Path) (r : result unit)
| EvWriteTemp (text : string) (r : result string)
| EvRun (cmd : list string) (r : result completed)
| EvUnlink (p : string) (r : result unit).

Section Script.
Context {sys : OS} {clk : Clock}.

(** A computation: from a state of the system to its outcome, the new
    state and the calls it made, oldest first. *)
Definition M (A : Type) : Type := os -> result A * os * list event.

Definition ret {A} (a : A) : M A := fun s => (Ok a, s, []).

Definition raise {A} (e : exc_class) : M A := fun s => (Raise e, s, []).

Definition bind {A B} (m : M A) (k : A -> M B) : M B :=
  fun s =>
    match m s with
    | (Ok a, s1, t1) => let '(r, s2, t2) := k a s1 in (r, s2, t1 ++ t2)
    | (Raise e, s1, t1) => (Raise e, s1, t1)
    end.

(** A pure expression that may raise *)
Definition lift {A} (r : result A) : M A := fun s => (r, s, []).

(** [try: body] followed by [except] clauses: [handlers e] is the body of
    the first clause that catches [e], if any. *)
Definition try_except {A} (body : M A) (handlers : exc_class -> option (M A)) : M A :=
  fun s =>
    match body s with
    | (Ok a, s1, t1) => (Ok a, s1, t1)
    | (Raise e, s1, t1) =>
        match handlers e with
        | Some h => let '(r, s2, t2) := h s1 in (r, s2, t1 ++ t2)
        | None => (Raise e, s1, t1)
        end
    end.

Notation "x <- e ;; k" := (bind e (fun x => k))
  (at level 100, e at next level, right associativity).
Notation "e ;;; k" := (bind e (fun _ => k))
  (at level 100, right associativity).

(** A [for] loop that updates its variables [acc] *)
Fixpoint for_each {A B} (l : list A) (acc : B) (body : B -> A -> M B) : M B :=
  match l with
  | [] => ret acc
  | x :: rest => acc' <- body acc x ;; for_each rest acc' body
  end.

(** The calls: a query reads the state, a call may change it. *)
Definition query {A} (f : os -> result A) (ev : result A -> event) : M A :=
  fun s => let r := f s in (r, s, [ev r]).

Definition call {A} (f : os -> result A * os) (ev : result A -> event) : M A :=
  fun s => let '(r, s') := f s in (r, s', [ev r]).

Definition print (m : message) : M unit := fun s => (Ok tt, s, [EvPrint m]).

Definition do_iterdir (p : Path) : M (list string) := query (iterdir p) (EvIterdir p).
Definition do_is_dir (p : Path) : M bool := query (is_dir p) (EvIsDir p).
Definition do_is_file (p : Path) : M bool := query (is_file p) (EvIsFile p).
Definition do_exists (p : Path) : M bool := query (path_exists p) (EvExists p).
Definition do_load_json (p : Path) : M json := query (load_json p) (EvLoadJson p).
Definition do_mkdir (p : Path) : M unit := call (mkdir_p p) (EvMkdir p).
Definition do_copy2 (src dst : Path) : M unit := call (copy2 src dst) (EvCopy2 src dst).
Definition do_write_temp (text : string) : M string :=
  call (write_temp text) (EvWriteTemp text).
Definition do_run (cmd : list string) : M completed :=
  call (subprocess_run cmd) (EvRun cmd).
Definition do_unlink (p : string) : M unit := call (unlink p) (EvUnlink p).

(** [len(l)] *)
Definition len {A} (l : list A) : Z := Z.of_nat (List.length l).

(** ** batch_detect_file_types *)

(** [FILETYPE_TO_EXT.get(file_type)]: a list or a dict is unhashable. *)
Definition ext_of_filetype (file_type : json) : result (option string) :=
  match file_type with
  | JStr s => Ok (FILETYPE_TO_EXT !! s)
  | JList _ | JDict _ => Raise TypeError
  | JNull | JBool _ | JInt _ | JFloat _ => Ok None
  end.

(** [type_map[filename] = ext].  The map is only ever read at a [str], so
    a key that is not a [str] is left out; an unhashable key raises. *)
Definition type_map_set (type_map : gmap string (option string)) (filename : json)
    (ext : option string) : result (gmap string (option string)) :=
  match filename with
  | JStr s => Ok (<[s := ext]> type_map)
  | JList _ | JDict _ => Raise TypeError
  | JNull | JBool _ | JInt _ | JFloat _ => Ok type_map
  end.

(** The body of [for item in data]: [item.get] exists on a dict only. *)
Definition detect_item (type_map : gmap string (option string)) (item : json)
  : result (gmap string (option string)) :=
  match item with
  | JDict m =>
      let filename := dict_get m "FileName" (JStr "") in
      let file_type := dict_get m "FileType" (JStr "") in
      (ext <~ ext_of_filetype file_type ;;
       type_map_set type_map filename ext)%result
  | _ => Raise AttributeError
  end.

Fixpoint detect_items (type_map : gmap string (option string)) (items : list json)
  : result (gmap string (option string)) :=
  match items with
  | [] => Ok type_map
  | item :: rest =>
      (type_map' <~ detect_item type_map item ;; detect_items type_map' rest)%result
  end.

(** [for item in data] for any JSON value [data]: a dict iterates over its
    keys and a [str] over its characters, which are [str]s and have no
    [get]; a number, a boolean or [None] is not iterable. *)
Definition build_type_map (data : json) : result (gmap string (option string)) :=
  match data with
  | JList items => detect_items ∅ items
  | JDict m => if decide (m = ∅) then Ok ∅ else Raise AttributeError
  | JStr s => if String.eqb s "" then Ok ∅ else Raise AttributeError
  | JNull | JBool _ | JInt _ | JFloat _ => Raise TypeError
  end.

Definition detect_cmd (files : list Path) : list string :=
  ["exiftool"; "-FileType"; "-FileName"; "-json"] ++ List.map path_str files.

Definition batch_detect_file_types (files : list Path)
  : M (gmap string (option string)) :=
  match files with
  | [] => ret ∅
  | _ =>
      try_except
        (result <- do_run (detect_cmd files) ;;
         if negb (returncode result =? 0) && String.eqb (stdout result) ""
         then print (MsgDetectFailed (PyStr.strip (stderr result))) ;;; ret ∅
         else data <- lift (json_loads (stdout result)) ;;
              lift (build_type_map data))
        (fun e =>
           if issubclass e FileNotFoundError
           then Some (print MsgExiftoolNotFound ;;; raise SystemExit)
           else if issubclass e JSONDecodeError
           then Some (print MsgDetectParseFailed ;;; ret ∅)
           else if issubclass e Exception
           then Some (print (MsgDetectError e) ;;; ret ∅)
           else None)
  end.

(** ** batch_set_timestamps *)

(** The lines the argfile holds for one file *)
Definition argfile_block (entry : Path * datetime) : list string :=
  let '(filepath, dt) := entry in
  let exif_dt := format_exif_datetime dt in
  ["-overwrite_original";
   "-DateTimeOriginal=" +:+ exif_dt;
   "-CreateDate=" +:+ exif_dt;
   "-FileModifyDate=" +:+ exif_dt;
   "-FileCreateDate=" +:+ exif_dt;
   path_str filepath;
   "-execute"].

Definition argfile_lines (files_and_times : list (Path * datetime)) : list string :=
  List.concat (List.map argfile_block files_and_times).

Definition newline : string := String "010" "".

Definition argfile_text (files_and_times : list (Path * datetime)) : string :=
  PyStr.join newline (argfile_lines files_and_times).

(** [int(line.split()[0])] inside [try ... except (ValueError, IndexError):
    pass]: [None] when the exception was passed over. *)
Definition leading_int (line : string) : option Z :=
  match PyStr.split_ws line with
  | [] => None
  | tok :: _ => PyStr.to_int tok
  end.

(** One turn of the loop over the lines of the output, on the pair
    [(updated, unchanged)] *)
Definition count_line (acc : Z * Z) (line : string) : Z * Z :=
  let '(updated, unchanged) := acc in
  let line := PyStr.strip line in
  if PyStr.contains "image files updated" line
  then (updated + default 0 (leading_int line), unchanged)
  else if PyStr.contains "image files unchanged" line
  then (updated, unchanged + default 0 (leading_int line))
  else (updated, unchanged).

Definition count_summary (out : string) : Z * Z :=
  List.fold_left count_line (PyStr.split_on "010" out) (0, 0).

(** The report of what exiftool wrote on its standard error *)
Definition real_errors (err : string) : list string :=
  List.filter
    (fun line => negb (String.eqb (PyStr.strip line) "")
                 && negb (PyStr.contains "FileCreateDate" line))
    (PyStr.split_on "010" (PyStr.strip err)).

Definition report_stderr (err : string) : M unit :=
  if String.eqb err "" then ret tt
  else
    let errs := real_errors err in
    match errs with
    | [] => ret tt
    | _ =>
        print (MsgExiftoolWarnings (List.length errs)) ;;;
        for_each (List.firstn 5 errs) tt
          (fun _ line => print (MsgExiftoolWarning line)) ;;;
        if (5 <? List.length errs)%nat
        then print (MsgMoreWarnings (List.length errs - 5))
        else ret tt
    end.

Definition batch_set_timestamps (files_and_times : list (Path * datetime))
    (dry_run : bool) : M (Z * Z) :=
  match files_and_times with
  | [] => ret (0, 0)
  | _ =>
      if dry_run
      then
        for_each files_and_times tt
          (fun _ entry =>
             print (MsgDryRunWouldSet (name (fst entry))
                      (format_exif_datetime (snd entry)))) ;;;
        ret (len files_and_times, 0)
      else
        try_except
          (argfile_path <- do_write_temp (argfile_text files_and_times) ;;
           result <- do_run ["exiftool"; "-@"; argfile_path] ;;
           do_unlink argfile_path ;;;
           let '(updated, unchanged) := count_summary (stdout result) in
           let total := len files_and_times in
           let accounted_for := updated + unchanged in
           let error_count := total - accounted_for in
           report_stderr (stderr result) ;;;
           ret (updated + unchanged, error_count))
          (fun e =>
             if issubclass e FileNotFoundError
             then Some (print MsgExiftoolNotFound ;;; raise SystemExit)
             else if issubclass e Exception
             then Some (print (MsgTimestampError e) ;;; ret (0, len files_and_times))
             else None)
  end.

(** ** process_album *)

(** The variables of the metadata loop *)
Record prepared := {
  files_to_process : list (Path * Path * datetime);
  skipped : Z;
  errors : Z;
  renamed : Z;
}.

(** The names [process_album] leaves out before it asks [is_dir] *)
Definition reserved_name (nm : string) : bool :=
  String.eqb nm "metadata" || String.eqb nm ".DS_Store".

(** The body of [for item in album_path.iterdir()] *)
Definition collect_item (album_path : Path) (media_files : list Path) (nm : string)
  : M (list Path) :=
  let item := pjoin album_path nm in
  if reserved_name nm then ret media_files
  else
    d <- do_is_dir item ;;
    if d then ret media_files else ret (media_files ++ [item]).

Definition collect_media (album_path : Path) : M (list Path) :=
  entries <- do_iterdir album_path ;;
  for_each entries [] (collect_item album_path).

(** [try: with open(json_file) as f: metadata = json.load(f) / except
    (json.JSONDecodeError, IOError)]; [IOError] is [OSError].  [None] is
    the [continue] of the handler. *)
Definition read_metadata (json_file : Path) (nm : string) : M (option json) :=
  try_except
    (metadata <- do_load_json json_file ;; ret (Some metadata))
    (fun e =>
       if caught_by [JSONDecodeError; OSError] e
       then Some (print (MsgMetadataError nm e) ;;; ret None)
       else None).

(** The body of [for media_file in media_files] (step 2) *)
Definition prepare_file (metadata_dir output_dir : Path)
    (file_types : gmap string (option string)) (acc : prepared) (media_file : Path)
  : M prepared :=
  let nm := name media_file in
  let json_file := pjoin metadata_dir (nm +:+ ".json") in
  found <- do_exists json_file ;;
  if negb found
  then print (MsgSkipNoMetadata nm) ;;;
       ret {| files_to_process := files_to_process acc; skipped := skipped acc + 1;
              errors := errors acc; renamed := renamed acc |}
  else
    loaded <- read_metadata json_file nm ;;
    match loaded with
    | None =>
        ret {| files_to_process := files_to_process acc; skipped := skipped acc;
               errors := errors acc + 1; renamed := renamed acc |}
    | Some metadata =>
        timestamp <- lift (parse_timestamp metadata) ;;
        match timestamp with
        | None =>
            print (MsgSkipNoTimestamp nm) ;;;
            ret {| files_to_process := files_to_process acc; skipped := skipped acc + 1;
                   errors := errors acc; renamed := renamed acc |}
        | Some timestamp =>
            let detected_ext := mjoin (file_types !! nm) in
            let '(corrected_name, was_corrected) :=
              get_corrected_filename media_file detected_ext in
            let output_file := pjoin output_dir corrected_name in
            (if was_corrected then print (MsgFix nm corrected_name) else ret tt) ;;;
            ret {| files_to_process :=
                     files_to_process acc ++ [(media_file, output_file, timestamp)];
                   skipped := skipped acc; errors := errors acc;
                   renamed := if was_corrected then renamed acc + 1 else renamed acc |}
        end
    end.

(** The body of [for src, dst, timestamp in files_to_process] (step 3), on
    the pair [(files_for_timestamps, errors)] *)
Definition copy_file (dry_run : bool) (acc : list (Path * datetime) * Z)
    (entry : Path * Path * datetime) : M (list (Path * datetime) * Z) :=
  let '(src, dst, timestamp) := entry in
  let '(files_for_timestamps, errs) := acc in
  if negb dry_run
  then
    try_except
      (do_copy2 src dst ;;; ret (files_for_timestamps ++ [(dst, timestamp)], errs))
      (fun e =>
         if issubclass e OSError
         then Some (print (MsgCopyError (name src) e) ;;; ret (files_for_timestamps, errs + 1))
         else None)
  else
    print (MsgDryRunWouldCopy (name src)) ;;;
    ret (files_for_timestamps ++ [(dst, timestamp)], errs).

Definition process_album (album_path output_base : Path) (dry_run : bool)
  : M (Z * Z * Z * Z) :=
  let album_name := name album_path in
  let metadata_dir := pjoin album_path "metadata" in
  let output_dir := pjoin output_base album_name in
  media_files <- collect_media album_path ;;
  match media_files with
  | [] => print MsgNoMediaFiles ;;; ret (0, 0, 0, 0)
  | _ =>
      print (MsgDetecting (List.length media_files)) ;;;
      file_types <- batch_detect_file_types media_files ;;
      print MsgReadingMetadata ;;;
      (if negb dry_run then do_mkdir output_dir else ret tt) ;;;
      prep <- for_each media_files
                {| files_to_process := []; skipped := 0; errors := 0; renamed := 0 |}
                (prepare_file metadata_dir output_dir file_types) ;;
      match files_to_process prep with
      | [] => ret (0, skipped prep, errors prep, renamed prep)
      | _ =>
          print (MsgCopying (List.length (files_to_process prep))) ;;;
          copied <- for_each (files_to_process prep) ([], errors prep)
                      (copy_file dry_run) ;;
          let '(files_for_timestamps, errs) := copied in
          match files_for_timestamps with
          | [] => ret (0, skipped prep, errs, renamed prep)
          | _ =>
              print (MsgSettingTimestamps (List.length files_for_timestamps)) ;;;
              counts <- batch_set_timestamps files_for_timestamps dry_run ;;
              let '(success, ts_errors) := counts in
              print (MsgDone dry_run) ;;;
              ret (success, skipped prep, errs + ts_errors, renamed prep)
          end
      end
  end.

(** ** find_albums *)

(** [any(f.is_file() and f.name != ".DS_Store" for f in item.iterdir())]:
    the entries are asked in turn until one answers yes. *)
Fixpoint any_media_file (item : Path) (entries : list string) : M bool :=
  match entries with
  | [] => ret false
  | nm :: rest =>
      f <- do_is_file (pjoin item nm) ;;
      if f && negb (String.eqb nm ".DS_Store") then ret true
      else any_media_file item rest
  end.

(** The body of [for item in input_dir.iterdir()] *)
Definition find_item (input_dir : Path) (albums : list Path) (nm : string)
  : M (list Path) :=
  let item := pjoin input_dir nm in
  d <- do_is_dir item ;;
  if d && negb (PyStr.startswith "." nm)
  then
    entries <- do_iterdir item ;;
    has_files <- any_media_file item entries ;;
    has_metadata <- do_is_dir (pjoin item "metadata") ;;
    if has_files || has_metadata then ret (albums ++ [item]) else ret albums
  else ret albums.

(** The order of paths: the lists of components, compared as Python
    compares lists of [str]. *)
Fixpoint path_ltb (p q : Path) : bool :=
  match p, q with
  | [], [] => false
  | [], _ :: _ => true
  | _ :: _, [] => false
  | a :: p', b :: q' =>
      if String.eqb a b then path_ltb p' q' else String.ltb a b
  end.

(** [sorted]: a stable insertion of each item in turn *)
Fixpoint sorted_insert (x : Path) (l : list Path) : list Path :=
  match l with
  | [] => [x]
  | y :: rest => if path_ltb x y then x :: l else y :: sorted_insert x rest
  end.

Definition sorted (l : list Path) : list Path :=
  List.fold_left (fun acc x => sorted_insert x acc) l [].

Definition find_albums (input_dir : Path) : M (list Path) :=
  entries <- do_iterdir input_dir ;;
  albums <- for_each entries [] (find_item input_dir) ;;
  ret (sorted albums).

(** ** main, after the arguments are parsed and resolved *)

(** The body of [for album in albums], on the four totals *)
Definition main_album (output_path : Path) (dry_run : bool) (totals : Z * Z * Z * Z)
    (album : Path) : M (Z * Z * Z * Z) :=
  let '(total_processed, total_skipped, total_errors, total_renamed) := totals in
  print (MsgAlbum (name album)) ;;;
  counts <- process_album album output_path dry_run ;;
  let '(processed, skipped, errors, renamed) := counts in
  print MsgBlank ;;;
  ret (total_processed + processed, total_skipped + skipped,
       total_errors + errors, total_renamed + renamed).

Definition main (input_path output_path : Path) (dry_run : bool) : M unit :=
  found <- do_exists input_path ;;
  if negb found then print (MsgInputMissing input_path) ;;; raise SystemExit
  else
    d <- do_is_dir input_path ;;
    if negb d then print (MsgInputNotDir input_path) ;;; raise SystemExit
    else
      albums <- find_albums input_path ;;
      match albums with
      | [] => print (MsgNoAlbums input_path) ;;; raise SystemExit
      | _ =>
          print (MsgFound (List.length albums)) ;;;
          print (MsgInput input_path) ;;;
          print (MsgOutput output_path) ;;;
          (if dry_run then print MsgDryRunMode else ret tt) ;;;
          print MsgBlank ;;;
          (if negb dry_run then do_mkdir output_path else ret tt) ;;;
          totals <- for_each albums (0, 0, 0, 0) (main_album output_path dry_run) ;;
          let '(total_processed, total_skipped, total_errors, total_renamed) := totals in
          print MsgRule ;;;
          print MsgSummaryHeading ;;;
          print MsgRule ;;;
          print (MsgAlbumsProcessed (List.length albums)) ;;;
          print (MsgFilesProcessed total_processed) ;;;
          print (MsgFilesRenamed total_renamed) ;;;
          print (MsgFilesSkipped total_skipped) ;;;
          print (MsgErrors total_errors) ;;;
          (if dry_run then print MsgDryRunNothingModified else ret tt) ;;;
          if 0 <? total_errors then raise SystemExit else ret tt
      end.

End Script.

Declare Scope script_scope.
Delimit Scope script_scope with script.
Notation "x <- e ;; k" := (bind e (fun x => k))
  (at level 100, e at next level, right associativity) : script_scope.
Notation "e ;;; k" := (bind e (fun _ => k))
  (at level 100, right associativity) : script_scope.

(** The three parts of a run *)
Definition outcome {sys : OS} {A} (x : result A * os * list event) : result A := x.1.1.
Definition final {sys : OS} {A} (x : result A * os * list event) : os := x.1.2.
Definition trace {sys : OS} {A} (x : result A * os * list event) : list event := x.2.

(** ** A simulated machine, to run the script on

    A file system is a list of nodes by path, in listing order; a regular
    file is given by what [json.load] makes of it, and a locked directory
    is one that its owner has closed: it can be neither listed nor
    searched.  exiftool and [json.loads] are tables. *)

Inductive node :=
| NDir
| NFile (load : result json)
| NSpecial
| NLocked.

Record sim := {
  sim_nodes : list (Path * node);
  sim_temps : list (string * string);
  sim_fresh : list string;
}.

Record machine := {
  exiftool : list string -> result completed;
  loads : string -> result json;
}.

Fixpoint node_at (nodes : list (Path * node)) (p : Path) : option node :=
  match nodes with
  | [] => match p with [] => Some NDir | _ => None end
  | (q, n) :: rest => if decide (q = p) then Some n else node_at rest p
  end.

Definition sim_is_dir (p : Path) (s : sim) : bool :=
  match node_at (sim_nodes s) p with Some (NDir | NLocked) => true | _ => false end.

Definition sim_is_file (p : Path) (s : sim) : bool :=
  match node_at (sim_nodes s) p with Some (NFile _) => true | _ => false end.

Definition sim_exists (p : Path) (s : sim) : bool :=
  match node_at (sim_nodes s) p with Some _ => true | None => false end.

Definition sim_children (p : Path) (nodes : list (Path * node)) : list string :=
  omap (fun entry : Path * node =>
          let q := entry.1 in
          if decide (q <> [] /\ List.removelast q = p) then Some (name q) else None)
       nodes.

(** The proper prefixes of a path and the path itself, shortest first *)
Fixpoint prefixes (p : Path) : list Path :=
  match p with
  | [] => [[]]
  | c :: rest => [] :: List.map (cons c) (prefixes rest)
  end.

(** What [stat] and [open] refuse before they look at the node itself: a
    component of more than 255 characters (ENAMETOOLONG, a plain
    [OSError]), and a path below a locked directory (EACCES, a
    [PermissionError]). *)
Definition sim_refused (p : Path) (s : sim) : option exc_class :=
  if existsb (fun c => (255 <? String.length c)%nat) p then Some OSError
  else if existsb (fun q => match node_at (sim_nodes s) q with
                            | Some NLocked => negb (bool_decide (q = p))
                            | _ => false
                            end) (prefixes p)
  then Some PermissionError
  else None.

(** A query of pathlib: the refusal, or the answer read off the node *)
Definition sim_query (answer : Path -> sim -> bool) (p : Path) (s : sim) : result bool :=
  match sim_refused p s with
  | Some e => Raise e
  | None => Ok (answer p s)
  end.

Definition sim_iterdir (p : Path) (s : sim) : result (list string) :=
  match sim_refused p s with
  | Some e => Raise e
  | None =>
      match node_at (sim_nodes s) p with
      | Some NDir => Ok (sim_children p (sim_nodes s))
      | Some NLocked => Raise PermissionError
      | Some _ => Raise OSError
      | None => Raise FileNotFoundError
      end
  end.

Definition sim_load_json (p : Path) (s : sim) : result json :=
  match sim_refused p s with
  | Some e => Raise e
  | None =>
      match node_at (sim_nodes s) p with
      | Some (NFile r) => r
      | Some _ => Raise OSError
      | None => Raise FileNotFoundError
      end
  end.

Definition sim_mkdir_p (p : Path) (s : sim) : result unit * sim :=
  if forallb (fun q => match node_at (sim_nodes s) q with
                       | Some NDir | None => true
                       | Some _ => false
                       end) (prefixes p)
  then (Ok tt,
        {| sim_nodes :=
             sim_nodes s ++
             List.map (fun q => (q, NDir))
               (List.filter (fun q => negb (sim_exists q s)) (prefixes p));
           sim_temps := sim_temps s; sim_fresh := sim_fresh s |})
  else (Raise OSError, s).

Fixpoint set_node (nodes : list (Path * node)) (p : Path) (n : node)
  : list (Path * node) :=
  match nodes with
  | [] => [(p, n)]
  | (q, m) :: rest => if decide (q = p) then (q, n) :: rest
                      else (q, m) :: set_node rest p n
  end.

Definition sim_copy2 (src dst : Path) (s : sim) : result unit * sim :=
  match sim_refused src s, sim_refused dst s with
  | Some e, _ | None, Some e => (Raise e, s)
  | None, None =>
  match node_at (sim_nodes s) src with
  | Some (NFile c) =>
      let target := if sim_is_dir dst s then pjoin dst (name src) else dst in
      if sim_is_dir (List.removelast target) s && negb (sim_is_dir target s)
      then (Ok tt, {| sim_nodes := set_node (sim_nodes s) target (NFile c);
                      sim_temps := sim_temps s; sim_fresh := sim_fresh s |})
      else (Raise FileNotFoundError, s)
  | Some _ => (Raise OSError, s)
  | None => (Raise FileNotFoundError, s)
  end
  end.

Definition sim_write_temp (text : string) (s : sim) : result string * sim :=
  match sim_fresh s with
  | [] => (Raise OSError, s)
  | nm :: rest =>
      (Ok nm, {| sim_nodes := sim_nodes s; sim_temps := (nm, text) :: sim_temps s;
                 sim_fresh := rest |})
  end.

Definition sim_unlink (p : string) (s : sim) : result unit * sim :=
  if existsb (fun entry : string * string => String.eqb entry.1 p) (sim_temps s)
  then (Ok tt, {| sim_nodes := sim_nodes s;
                  sim_temps := List.filter (fun entry : string * string =>
                                              negb (String.eqb entry.1 p)) (sim_temps s);
                  sim_fresh := sim_fresh s |})
  else (Raise FileNotFoundError, s).

Definition sim_os (m : machine) : OS := {|
  os := sim;
  iterdir := sim_iterdir;
  is_dir := sim_query sim_is_dir;
  is_file := sim_query sim_is_file;
  path_exists := sim_query sim_exists;
  load_json := sim_load_json;
  mkdir_p := sim_mkdir_p;
  copy2 := sim_copy2;
  write_temp := sim_write_temp;
  subprocess_run := fun cmd s => (exiftool m cmd, s);
  unlink := sim_unlink;
  json_loads := loads m;
|}.

(** ** A clock in UTC on a 64-bit Linux system

    A datetime is kept as its seconds since the epoch.  The C library
    refuses a value that does not fit its 64-bit [time_t]
    ([OverflowError]) or whose year does not fit an [int] ([OSError]);
    Python refuses a year outside 1..9999 ([ValueError]). *)

(** The civil date of a day number (days since 1970-01-01), in the
    proleptic Gregorian calendar *)
Definition civil_from_days (days : Z) : Z * Z * Z :=
  let z := days + 719468 in
  let era := z / 146097 in
  let doe := z - era * 146097 in
  let yoe := (doe - doe / 1460 + doe / 36524 - doe / 146096) / 365 in
  let doy := doe - (365 * yoe + yoe / 4 - yoe / 100) in
  let mp := (5 * doy + 2) / 153 in
  let d := doy - (153 * mp + 2) / 5 + 1 in
  let m := if mp <? 10 then mp + 3 else mp - 9 in
  let y := yoe + era * 400 + (if m <=? 2 then 1 else 0) in
  (y, m, d).

Definition utc_year (ts : Z) : Z := (civil_from_days (ts / 86400)).1.1.

(** Python also looks one day back, to tell whether the local time is
    the second of two equal ones, and refuses a value whose day before
    falls in the year 0. *)
Definition utc_fromtimestamp (ts : Z) : result Z :=
  if (ts <? - 2 ^ 63) || (2 ^ 63 <=? ts) then Raise OverflowError
  else if (utc_year ts - 1900 <? - 2 ^ 31) || (2 ^ 31 <=? utc_year ts - 1900)
  then Raise OSError
  else if (utc_year ts <? 1) || (9999 <? utc_year ts) || (utc_year (ts - 86400) <? 1)
  then Raise ValueError
  else Ok ts.

Definition digit_char (d : Z) : ascii := ascii_of_nat (48 + Z.to_nat d).

(** [n] in decimal on [width] digits, for [0 <= n < 10 ^ width] *)
Fixpoint decimal (width : nat) (n : Z) : string :=
  match width with
  | O => ""
  | S w => decimal w (n / 10) +:+ String (digit_char (n mod 10)) ""
  end.

(** [%Y] of the C library: the year with as many digits as it has *)
Definition year_text (y : Z) : string :=
  if y <? 10 then decimal 1 y
  else if y <? 100 then decimal 2 y
  else if y <? 1000 then decimal 3 y
  else decimal 4 y.

Definition utc_strftime_exif (ts : Z) : string :=
  let '(y, m, d) := civil_from_days (ts / 86400) in
  let secs := ts mod 86400 in
  year_text y +:+ ":" +:+ decimal 2 m +:+ ":" +:+ decimal 2 d +:+ " " +:+
  decimal 2 (secs / 3600) +:+ ":" +:+ decimal 2 (secs mod 3600 / 60) +:+ ":" +:+
  decimal 2 (secs mod 60).

Definition utc_clock : Clock := {|
  datetime := Z;
  fromtimestamp := utc_fromtimestamp;
  strftime_exif := utc_strftime_exif;
|}.

(** ** The claims in their own words

    Definitions that follow the wording of the specification, to be
    compared with the script. *)

(** Alias normalization: .jpeg and .jpe to .jpg, .m4v to .mp4, .heif to
    .heic, .tif to .tiff *)
Definition alias_normal (ext : string) : string :=
  if String.eqb ext ".jpeg" then ".jpg"
  else if String.eqb ext ".jpe" then ".jpg"
  else if String.eqb ext ".m4v" then ".mp4"
  else if String.eqb ext ".heif" then ".heic"
  else if String.eqb ext ".tif" then ".tiff"
  else ext.

(** The original name, uncorrected, when nothing was detected or when the
    lowercased current extension and the detected one are equal after
    alias normalization; otherwise the stem followed by the detected
    extension, corrected. *)
Definition spec_corrected_filename (filepath : Path) (detected_ext : option string)
  : string * bool :=
  match detected_ext with
  | None => (name filepath, false)
  | Some ext =>
      if decide (alias_normal (PyStr.lower (suffix filepath)) = alias_normal ext)
      then (name filepath, false)
      else (stem filepath +:+ ext, true)
  end.

(** An extension as the table holds them: a dot, then one or more
    characters none of which is a dot, all unchanged by [lower]. *)
Definition plain_ext (ext : string) : bool :=
  match ext with
  | String "." rest =>
      negb (String.eqb rest "")
      && match PyStr.rfind_dot rest with None => true | Some _ => false end
      && String.eqb (PyStr.lower ext) ext
  | _ => false
  end.

(** The sum of the leading integers of the lines of [out] that [keep]
    selects; a line with no leading integer adds nothing. *)
Definition sum_leading (keep : string -> bool) (out : string) : Z :=
  List.fold_right Z.add 0
    (List.map (fun line => default 0 (leading_int line))
       (List.filter keep (PyStr.split_on "010" out))).


(** The same sum, as the script forms it: the lines with the first
    phrase, then the lines with the second phrase and not the first *)
Definition amended_success_count (out : string) : Z :=
  sum_leading (PyStr.contains "image files updated") out
  + sum_leading (fun line => PyStr.contains "image files unchanged" line
                             && negb (PyStr.contains "image files updated" line)) out.

(** A text that is not empty and whose last character is not whitespace *)
Fixpoint ends_nonspace (p : string) : bool :=
  match p with
  | EmptyString => false
  | String a EmptyString => negb (PyStr.is_space a)
  | String _ rest => ends_nonspace rest
  end.

Definition starts_nonspace (p : string) : bool :=
  match p with
  | EmptyString => false
  | String a _ => negb (PyStr.is_space a)
  end.

(** ** Reading a trace *)

Definition is_print (ev : event) : Prop :=
  match ev with EvPrint _ => True | _ => False end.

(** The commands run, the argfiles written with the name each got, and the
    destinations of the copies that succeeded, oldest first *)
Definition runs (t : list event) : list (list string) :=
  omap (fun ev => match ev with EvRun cmd _ => Some cmd | _ => None end) t.

Definition argfiles (t : list event) : list (string * result string) :=
  omap (fun ev => match ev with EvWriteTemp text r => Some (text, r) | _ => None end) t.

Definition copied (t : list event) : list Path :=
  omap (fun ev => match ev with EvCopy2 _ dst (Ok _) => Some dst | _ => None end) t.

(** The exiftool run that writes from an argfile *)
Definition write_cmd (argfile_path : string) : list string :=
  ["exiftool"; "-@"; argfile_path].

(** The calls of each part of [process_album] *)
Definition walk_event (ev : event) : Prop :=
  match ev with
  | EvPrint _ | EvIterdir _ _ | EvIsDir _ _ | EvIsFile _ _ => True
  | _ => False
  end.

Definition detect_event (ev : event) : Prop :=
  match ev with
  | EvPrint _ => True
  | EvRun cmd _ => exists files, cmd = detect_cmd files
  | _ => False
  end.

Definition prepare_event (dry_run : bool) (ev : event) : Prop :=
  match ev with
  | EvPrint _ | EvExists _ _ | EvLoadJson _ _ => True
  | EvMkdir _ _ => dry_run = false
  | _ => False
  end.

Definition copy_event (dry_run : bool) (ev : event) : Prop :=
  match ev with
  | EvPrint _ => True
  | EvCopy2 _ _ _ => dry_run = false
  | _ => False
  end.

Definition write_event (dry_run : bool) (ev : event) : Prop :=
  match ev with
  | EvPrint _ => True
  | EvWriteTemp _ _ | EvUnlink _ _ => dry_run = false
  | EvRun cmd _ => dry_run = false /\ exists p, cmd = write_cmd p
  | _ => False
  end.


(** ** The four stages *)

Inductive stage := Enumerate | DetectTypes | ReadAndCopy | WriteTimestamps.

Definition stage_rank (st : stage) : nat :=
  match st with
  | Enumerate => 0
  | DetectTypes => 1
  | ReadAndCopy => 2
  | WriteTimestamps => 3
  end.

(** The stage a call belongs to.  Walking a directory is enumeration;
    exiftool detects, or writes when it is given an argfile; loading a
    sidecar and copying a file are the third stage; the argfile is part of
    writing.  Printing, probing one path and creating a directory belong
    to no stage. *)
Definition stage_of (ev : event) : option stage :=
  match ev with
  | EvPrint _ | EvExists _ _ | EvMkdir _ _ => None
  | EvIterdir _ _ | EvIsDir _ _ | EvIsFile _ _ => Some Enumerate
  | EvRun cmd _ =>
      match cmd with
      | _ :: flag :: _ =>
          if String.eqb flag "-@" then Some WriteTimestamps else Some DetectTypes
      | _ => Some DetectTypes
      end
  | EvLoadJson _ _ | EvCopy2 _ _ _ => Some ReadAndCopy
  | EvWriteTemp _ _ | EvUnlink _ _ => Some WriteTimestamps
  end.

Definition stage_le (a b : stage) : Prop := (stage_rank a <= stage_rank b)%nat.

(** No call of a stage comes after a call of a later stage. *)
Definition in_order (t : list event) : Prop :=
  StronglySorted stage_le (omap stage_of t).

(** Every call of [t] that has a stage has a stage between [lo] and [hi]. *)
Definition within (lo hi : stage) (t : list event) : Prop :=
  Forall (fun ev => forall st, stage_of ev = Some st -> stage_le lo st /\ stage_le st hi) t.

(** ** Albums and their media files *)

(** The sidecar of a media file *)
Definition sidecar (album_path media_file : Path) : Path :=
  pjoin (pjoin album_path "metadata") (name media_file +:+ ".json").

(** A query answered yes *)
Definition yes (r : result bool) : bool :=
  match r with Ok true => true | _ => false end.

(** The entries of an album that are considered: not [metadata], not
    [.DS_Store], and not answered to be a directory *)
Definition media_names {sys : OS} (album_path : Path) (s : os) (entries : list string)
  : list string :=
  List.filter (fun nm => negb (reserved_name nm)
                         && negb (yes (is_dir (pjoin album_path nm) s)))
    entries.

(** The system answers, of every entry of the album that is not named
    [metadata] or [.DS_Store], whether it is a directory. *)
Definition album_answers {sys : OS} (album_path : Path) (s : os) (entries : list string)
  : Prop :=
  Forall (fun nm => reserved_name nm = false ->
                    exists d, is_dir (pjoin album_path nm) s = Ok d) entries.

(** The media files of an album, when the album can be listed and the
    system answers *)
Definition listed_media {sys : OS} (album_path : Path) (s : os) (media : list Path)
  : Prop :=
  exists entries,
    iterdir album_path s = Ok entries
    /\ album_answers album_path s entries
    /\ media = List.map (pjoin album_path) (media_names album_path s entries).

(** A directory holds a regular file other than [.DS_Store]. *)
Definition has_media_file {sys : OS} (item : Path) (s : os) : bool :=
  match iterdir item s with
  | Ok entries =>
      existsb (fun nm => yes (is_file (pjoin item nm) s)
                         && negb (String.eqb nm ".DS_Store"))
        entries
  | Raise _ => false
  end.

(** An album: a directory whose name does not start with a dot and which
    holds such a file or has a [metadata] subdirectory *)
Definition is_album {sys : OS} (s : os) (item : Path) : bool :=
  yes (is_dir item s) && negb (PyStr.startswith "." (name item))
  && (has_media_file item s || yes (is_dir (pjoin item "metadata") s)).

(** The system answers whether the entries of [item] are regular files,
    from the first one up to the first regular file that is not
    [.DS_Store], if there is one: later entries are not asked. *)
Fixpoint files_answer {sys : OS} (item : Path) (s : os) (entries : list string) : Prop :=
  match entries with
  | [] => True
  | f :: rest =>
      exists b,
        is_file (pjoin item f) s = Ok b
        /\ (b && negb (String.eqb f ".DS_Store") = false -> files_answer item s rest)
  end.

(** The system answers the queries of the enumeration on the entry [nm]
    of the input directory: whether it is a directory and, when it is one
    whose name does not start with a dot, what it holds, which of its
    entries are regular files, and whether it has a [metadata]
    directory. *)
Definition entry_answers {sys : OS} (input_dir : Path) (s : os) (nm : string) : Prop :=
  let item := pjoin input_dir nm in
  exists d,
    is_dir item s = Ok d
    /\ (d = true -> PyStr.startswith "." nm = false ->
        exists entries m,
          iterdir item s = Ok entries
          /\ files_answer item s entries
          /\ is_dir (pjoin item "metadata") s = Ok m).

Definition path_le (p q : Path) : Prop := path_ltb q p = false.

(** ** The timestamp of a sidecar *)

(** The integer value of [metadata[field]["timestamp"]], when the field is
    there and converts *)
Definition field_int (metadata : json) (field : string) : option Z :=
  match (entry <~ py_getitem metadata field ;;
         raw <~ py_getitem entry "timestamp" ;;
         py_int raw)%result with
  | Ok ts => Some ts
  | Raise _ => None
  end.


(** The same, where a field also has to hold a value that
    [datetime.fromtimestamp] accepts *)
Definition usable_int {clk : Clock} (metadata : json) (field : string) : option Z :=
  match field_int metadata field with
  | Some ts => match fromtimestamp ts with
               | Ok _ => Some ts
               | Raise _ => None
               end
  | None => None
  end.

Definition chosen_timestamp {clk : Clock} (metadata : json) : option Z :=
  match usable_int metadata "photoTakenTime" with
  | Some ts => Some ts
  | None => usable_int metadata "creationTime"
  end.

(** ** A small export, to run the script on

    [/export] holds the albums [Trip] (two pictures, one of them a PNG
    named [.jpeg]) and [Zoo] (one picture), a hidden folder, an empty
    folder and a stray file.  The sidecars of [Trip] are given by what
    [json.load] makes of them. *)

Definition timestamp_entry (raw : json) : json :=
  JDict {[ "timestamp" := raw ]}.

Definition photo_metadata (taken created : json) : json :=
  JDict (<[ "photoTakenTime" := timestamp_entry taken ]>
           {[ "creationTime" := timestamp_entry created ]}).

Definition media_bytes : node := NFile (Raise UnicodeDecodeError).

Definition demo_nodes (trip_sidecars : list (string * result json))
  : list (Path * node) :=
  [ (["export"], NDir);
    (["export"; "Zoo"], NDir);
    (["export"; "Zoo"; "z.png"], media_bytes);
    (["export"; "Zoo"; "metadata"], NDir);
    (["export"; "Zoo"; "metadata"; "z.png.json"],
       NFile (Ok (photo_metadata (JInt 1700000000) JNull)));
    (["export"; ".cache"], NDir);
    (["export"; ".cache"; "thumb.jpg"], media_bytes);
    (["export"; "Empty"], NDir);
    (["export"; "notes.txt"], media_bytes);
    (["export"; "Trip"], NDir);
    (["export"; "Trip"; ".DS_Store"], media_bytes);
    (["export"; "Trip"; "IMG_1.jpeg"], media_bytes);
    (["export"; "Trip"; "IMG_2.jpg"], media_bytes);
    (["export"; "Trip"; "metadata"], NDir) ]
  ++ List.map (fun entry : string * result json =>
                 (["export"; "Trip"; "metadata"; entry.1], NFile entry.2))
       trip_sidecars.

Definition demo_sim (trip_sidecars : list (string * result json)) : sim :=
  {| sim_nodes := demo_nodes trip_sidecars;
     sim_temps := [];
     sim_fresh := ["/tmp/tmp_a.txt"; "/tmp/tmp_b.txt"] |}.

Definition file_entry (file_name file_type : string) : json :=
  JDict (<[ "FileName" := JStr file_name ]> {[ "FileType" := JStr file_type ]}).

(** exiftool on the demo machine: the type report of an album is a text
    that [json.loads] turns into the list of its files; a run from an
    argfile prints [write_out]. *)
Definition demo_machine (write_out : string) : machine := {|
  exiftool := fun cmd =>
    match cmd with
    | _ :: flag :: rest =>
        if String.eqb flag "-@"
        then Ok {| returncode := 0; stdout := write_out; stderr := "" |}
        else match rest with
             | _ :: _ :: first :: _ =>
                 if PyStr.startswith "/export/Trip/" first
                 then Ok {| returncode := 0; stdout := "<types of Trip>"; stderr := "" |}
                 else Ok {| returncode := 0; stdout := "<types of Zoo>"; stderr := "" |}
             | _ => Ok {| returncode := 1; stdout := ""; stderr := "No file specified" |}
             end
    | _ => Raise FileNotFoundError
    end;
  loads := fun text =>
    if String.eqb text "<types of Trip>"
    then Ok (JList [file_entry "IMG_1.jpeg" "PNG"; file_entry "IMG_2.jpg" "JPEG"])
    else if String.eqb text "<types of Zoo>"
    then Ok (JList [file_entry "z.png" "PNG"])
    else Raise JSONDecodeError;
|}.

(** The summary exiftool prints after each [-execute] of a successful
    write *)
Definition one_updated : string := "    1 image files updated" +:+ newline.

Definition good_sidecars : list (string * result json) :=
  [("IMG_1.jpeg.json", Ok (photo_metadata (JStr "1600000000") (JStr "1500000000")));
   ("IMG_2.jpg.json", Ok (photo_metadata (JInt 1600000060) (JInt 1500000000)))].

(** The calls of [main] before it turns to the albums: the checks of the
    input directory, the walk of [find_albums], and the creation of the
    output directory *)
Definition setup_event (dry_run : bool) (ev : event) : Prop :=
  match ev with
  | EvPrint _ | EvIterdir _ _ | EvIsDir _ _ | EvIsFile _ _ | EvExists _ _ => True
  | EvMkdir _ _ => dry_run = false
  | _ => False
  end.

(** [segments] are the traces of [main_album] on the first albums of
    [albums], one per album and in their order. *)
Definition album_segments {sys : OS} {clk : Clock} (output_path : Path) (dry_run : bool)
    (albums : list Path) (segments : list (list event)) : Prop :=
  Forall2
    (fun album segment =>
       exists totals s0, segment = trace (main_album output_path dry_run totals album s0))
    (List.firstn (List.length segments) albums) segments.

(** What was printed, oldest first *)
Definition printed (t : list event) : list message :=
  omap (fun ev => match ev with EvPrint m => Some m | _ => None end) t.

(** The demo machine with each successful write reported, and three
    variations of the sidecars of [Trip]: a first sidecar whose
    photoTakenTime is in milliseconds, a first sidecar that is not valid
    UTF-8, and a first sidecar that is not valid JSON. *)
Definition demo_os (write_out : string) : OS := sim_os (demo_machine write_out).

Definition trip : Path := ["export"; "Trip"].

Definition millis_metadata : json :=
  photo_metadata (JStr "1600000000000") (JStr "1600000000").


Definition undecodable_sidecars : list (string * result json) :=
  [("IMG_1.jpeg.json", Raise UnicodeDecodeError);
   ("IMG_2.jpg.json", Ok (photo_metadata (JInt 1600000060) (JInt 1500000000)))].

Definition malformed_sidecars : list (string * result json) :=
  [("IMG_1.jpeg.json", Raise JSONDecodeError);
   ("IMG_2.jpg.json", Ok (photo_metadata (JInt 1600000060) (JInt 1500000000)))].


(** ** Further vocabulary *)

(** A JSON object *)
Definition is_object (v : json) : bool :=
  match v with JDict _ => true | _ => false end.

(** An item of exiftool's report on the file [nm], of type [ty] *)
Definition report_entry (item : json) (nm ty : string) : Prop :=
  exists m, item = JDict m
            /\ m !! "FileName" = Some (JStr nm) /\ m !! "FileType" = Some (JStr ty).






(** ** Where an album is read and written *)

(** A direct entry of a folder *)
Definition in_folder (folder p : Path) : Prop := exists nm, p = pjoin folder nm.

(** The calls [process_album] may make for the album [album_path]: it
    lists the album, asks which of its entries are directories, probes
    and loads files of its [metadata] folder, creates the output folder of
    the album, copies entries of the album to entries of that folder, and
    has exiftool report on entries of the album and write, from an
    argfile, to entries of the output folder. *)
Definition confined {clk : Clock} (album_path output_base : Path) (ev : event) : Prop :=
  let output_dir := pjoin output_base (name album_path) in
  match ev with
  | EvPrint _ | EvUnlink _ _ => True
  | EvIterdir p _ => p = album_path
  | EvIsDir p _ => in_folder album_path p
  | EvIsFile _ _ => False
  | EvExists p _ | EvLoadJson p _ => in_folder (pjoin album_path "metadata") p
  | EvMkdir p _ => p = output_dir
  | EvCopy2 src dst _ => in_folder album_path src /\ in_folder output_dir dst
  | EvWriteTemp text _ =>
      exists fts : list (Path * datetime),
        text = argfile_text fts /\ Forall (fun entry => in_folder output_dir entry.1) fts
  | EvRun cmd _ =>
      (exists files, cmd = detect_cmd files /\ Forall (in_folder album_path) files)
      \/ exists p, cmd = write_cmd p
  end.

(** What makes a sidecar end the run with the exception [e]: loading it
    raised [e], which is neither a [JSONDecodeError] nor an [OSError]; or
    it was loaded, and [parse_timestamp] raised [e] on what it holds. *)
Definition sidecar_fails {clk : Clock} (r : result json) (e : exc_class) : Prop :=
  match r with
  | Raise e' => e' = e /\ caught_by [JSONDecodeError; OSError] e = false
  | Ok metadata => parse_timestamp metadata = Raise e
  end.

Definition handled_load {clk : Clock} (ev : event) : Prop :=
  match ev with
  | EvLoadJson _ r => forall e, ~ sidecar_fails r e
  | _ => True
  end.

Definition fatal_load {clk : Clock} (e : exc_class) (ev : event) : Prop :=
  exists p r, ev = EvLoadJson p r /\ sidecar_fails r e.

(** A call of [process_album] that does not end it; a call that ends it *)
Definition album_event {clk : Clock} (album_path output_base : Path) (ev : event) : Prop :=
  confined album_path output_base ev /\ handled_load ev.

Definition album_fatal {clk : Clock} (album_path output_base : Path) (e : exc_class)
    (ev : event) : Prop :=
  fatal_load e ev /\ confined album_path output_base ev.

(** What the metadata loop keeps true of its variables: the files to
    process go from the album to its output folder, and the counts are
    not negative, with no more renamed files than files to process. *)
Definition prepared_ok {clk : Clock} (album_path output_base : Path) (acc : prepared)
  : Prop :=
  Forall (fun entry : Path * Path * datetime =>
            in_folder album_path entry.1.1
            /\ in_folder (pjoin output_base (name album_path)) entry.1.2)
    (files_to_process acc)
  /\ 0 <= skipped acc /\ 0 <= errors acc
  /\ 0 <= renamed acc <= len (files_to_process acc).

(** No call ends the run *)
Definition no_fatal (e : exc_class) (ev : event) : Prop := False.

(** ** A logic of runs

    [guarded P F Q m]: every run of [m] either makes only calls that
    satisfy [P] and, if it returns, returns a value that satisfies [Q]; or
    it makes such calls, then one call [ev] with [F e ev], and ends there
    with the exception [e]. *)
Definition guarded {sys : OS} {A} (P : event -> Prop) (F : exc_class -> event -> Prop)
    (Q : A -> Prop) (m : M A) : Prop :=
  forall s,
    (Forall P (trace (m s)) /\ forall a, outcome (m s) = Ok a -> Q a)
    \/ (exists t0 ev e,
          trace (m s) = t0 ++ [ev] /\ Forall P t0 /\ F e ev /\ outcome (m s) = Raise e).

(** A listing or a query of the file system that raised [e]; a print,
    or a listing or a query that was answered *)
Definition failed_walk (e : exc_class) (ev : event) : Prop :=
  match ev with
  | EvIterdir _ (Raise e') => e' = e
  | EvIsDir _ (Raise e') | EvIsFile _ (Raise e') | EvExists _ (Raise e') => e' = e
  | _ => False
  end.

Definition answered_walk (ev : event) : Prop :=
  match ev with
  | EvPrint _ | EvIterdir _ (Ok _) => True
  | EvIsDir _ (Ok _) | EvIsFile _ (Ok _) | EvExists _ (Ok _) => True
  | _ => False
  end.

(** [stops_at P F m]: every run of [m] either makes only calls that
    satisfy [P] and returns; or it makes such calls, then one call [ev]
    with [F e ev], and ends there with the exception [e]. *)
Definition stops_at {sys : OS} {A} (P : event -> Prop) (F : exc_class -> event -> Prop)
    (m : M A) : Prop :=
  forall s,
    (Forall P (trace (m s)) /\ exists a, outcome (m s) = Ok a)
    \/ (exists t0 ev e,
          trace (m s) = t0 ++ [ev] /\ Forall P t0 /\ F e ev /\ outcome (m s) = Raise e).

(** Adding the counts of an album to the totals *)
Definition add_counts (totals counts : Z * Z * Z * Z) : Z * Z * Z * Z :=
  let '(total_processed, total_skipped, total_errors, total_renamed) := totals in
  let '(processed, skipped, errors, renamed) := counts in
  (total_processed + processed, total_skipped + skipped,
   total_errors + errors, total_renamed + renamed).

(** The demo export on a system that refuses to list the album [Trip] *)
Definition locked_os : OS := {|
  os := sim;
  iterdir := fun p s => if decide (p = trip) then Raise PermissionError
                        else sim_iterdir p s;
  is_dir := sim_query sim_is_dir;
  is_file := sim_query sim_is_file;
  path_exists := sim_query sim_exists;
  load_json := sim_load_json;
  mkdir_p := sim_mkdir_p;
  copy2 := sim_copy2;
  write_temp := sim_write_temp;
  subprocess_run := fun cmd s => (exiftool (demo_machine "") cmd, s);
  unlink := sim_unlink;
  json_loads := loads (demo_machine "");
|}.

(** The calls of [find_albums] on [input_dir]: it lists the directory
    and those of its entries whose name does not start with a dot, asks
    which entries are directories and which have a [metadata] directory,
    and asks of files two levels down whether they are regular files. *)
Definition enumerates (input_dir : Path) (ev : event) : Prop :=
  match ev with
  | EvIterdir p _ =>
      p = input_dir
      \/ exists nm, p = pjoin input_dir nm /\ PyStr.startswith "." nm = false
  | EvIsDir p _ =>
      in_folder input_dir p
      \/ exists item, in_folder input_dir item /\ p = pjoin item "metadata"
  | EvIsFile p _ => exists item, in_folder input_dir item /\ in_folder item p
  | _ => False
  end.

(** The calls of [main]: its own (printing, the two checks of the input
    directory, the creation of the output directory), those of the
    enumeration, and those of the processing of an entry of the input
    directory *)
Definition reaches {clk : Clock} (input_path output_path : Path) (ev : event) : Prop :=
  match ev with
  | EvPrint _ => True
  | EvExists p _ | EvIsDir p _ => p = input_path
  | EvMkdir p _ => p = output_path
  | _ => False
  end
  \/ enumerates input_path ev
  \/ exists album, in_folder input_path album /\ confined album output_path ev.

(** A text without a line break *)
Fixpoint single_line (s : string) : bool :=
  match s with
  | EmptyString => true
  | String c r => negb (Ascii.eqb c "010") && single_line r
  end.

(** ** Proof automation *)

(** Every call of a trace built from known parts is of the expected kind. *)
Ltac trace_forall :=
  repeat first
    [ apply List.Forall_nil
    | apply List.Forall_cons; [first [exact I | reflexivity | assumption | cbn; eauto] |]
    | apply Forall_app; split
    | assumption
    | (eapply Forall_impl; [eassumption|]; intros []; cbn; tauto) ].

(** Two ways of writing the same trace *)
Ltac same_trace :=
  repeat match goal with x := _ : list event |- _ => subst x end;
  cbn [trace outcome fst snd];
  repeat (progress (rewrite <- ?app_assoc; cbn [app]; rewrite ?app_nil_r));
  reflexivity.

(** The side conditions of a run that stopped early *)
Ltac shape_side :=
  first
    [ same_trace
    | assumption
    | solve [trace_forall]
    | solve [constructor]
    | solve [intros; congruence]
    | solve [intros ? ? ? []]
    | solve [intros ? ? []]
    | solve [left; assumption]
    | solve [left; split; reflexivity]
    | solve [intros _ _; split; [reflexivity | split; [intros ? ? [] | intros; congruence]]]
    | solve [intros; discriminate]
    | solve [auto] ].

(** * Properties *)

(** ** The string functions on examples *)

Example lower_JPG :
  PyStr.lower ".JPG" = ".jpg"
  /\ PyStr.lower (String "201" (String "215" (String "222" (String "223" ""))))
     = String "233" (String "215" (String "254" (String "223" ""))).
Proof. split; reflexivity. Qed.

Example split_ws_summary :
  PyStr.split_ws "    1 image files updated" = ["1"; "image"; "files"; "updated"].
Proof. reflexivity. Qed.

Example to_int_samples :
  PyStr.to_int " 1_000 " = Some 1000 /\ PyStr.to_int "-7" = Some (-7) /\
  PyStr.to_int "1__0" = None /\ PyStr.to_int "" = None /\ PyStr.to_int "12a" = None
  /\ PyStr.to_int "007" = Some 7 /\ PyStr.to_int "- 1" = None /\ PyStr.to_int "_1" = None
  /\ PyStr.to_int (String "028" "5") = None
  /\ PyStr.to_int (String "160" "5") = Some 5
  /\ PyStr.to_int ("5" +:+ String "133" "") = Some 5
  /\ PyStr.to_int (String "031" ("5" +:+ String "160" "")) = None
  /\ PyStr.split_ws (String "028" ("5 a" +:+ String "160" "b")) = ["5"; "a"; "b"].
Proof. repeat split; reflexivity. Qed.

(** 4300 digits are read, 4301 are refused, whatever they are. *)
Example to_int_limit :
  PyStr.to_int (String.concat "" (List.repeat "0" 4300)) = Some 0
  /\ PyStr.to_int (String.concat "" (List.repeat "0" 4301)) = None.
Proof. split; vm_compute; reflexivity. Qed.

Example split_on_samples :
  PyStr.split_on "010" ("a" +:+ String "010" "" +:+ String "010" "b") = ["a"; ""; "b"]
  /\ PyStr.split_on "010" "" = [""].
Proof. split; reflexivity. Qed.

Example strip_samples :
  PyStr.strip "  a b  " = "a b" /\ PyStr.strip "   " = "" /\ PyStr.contains "b c" "ab cd" = true
  /\ PyStr.contains "" "" = true /\ PyStr.contains "x" "" = false.
Proof. repeat split; reflexivity. Qed.

Example get_corrected_filename_samples :
  get_corrected_filename ["a"; "IMG.JPEG"] (Some ".jpg") = ("IMG.JPEG", false)
  /\ get_corrected_filename ["a"; "IMG.jpeg"] (Some ".png") = ("IMG.png", true)
  /\ get_corrected_filename ["a"; "clip.m4v"] (Some ".mp4") = ("clip.m4v", false)
  /\ get_corrected_filename ["a"; ".hidden"] (Some ".png") = (".hidden.png", true)
  /\ get_corrected_filename ["a"; "x.tar.gz"] (Some ".png") = ("x.tar.png", true)
  /\ get_corrected_filename ["a"; "x.gz"] None = ("x.gz", false).
Proof. repeat split; reflexivity. Qed.

Example parse_timestamp_samples :
  parse_timestamp (clk := utc_clock)
    (photo_metadata (JStr "1600000000") (JStr "1500000000")) = Ok (Some 1600000000)
  /\ parse_timestamp (clk := utc_clock) millis_metadata = Ok (Some 1600000000)
  /\ parse_timestamp (clk := utc_clock) (photo_metadata JNull (JInt 5)) = Ok (Some 5)
  /\ parse_timestamp (clk := utc_clock) (JDict ∅) = Ok None
  /\ parse_timestamp (clk := utc_clock) (JList [JStr "photoTakenTime"]) = Ok None
  /\ parse_timestamp (clk := utc_clock) JNull = Raise TypeError
  /\ parse_timestamp (clk := utc_clock)
       (photo_metadata (JFloat (S754_infinity false)) (JInt 5)) = Raise OverflowError.
Proof. repeat split; vm_compute; reflexivity. Qed.

Example utc_clock_samples :
  utc_fromtimestamp 1000000000000 = Raise ValueError
  /\ utc_fromtimestamp 253402300799 = Ok 253402300799
  /\ utc_fromtimestamp 253402300800 = Raise ValueError
  /\ utc_fromtimestamp (-62135596800) = Raise ValueError
  /\ utc_fromtimestamp (-62135510401) = Raise ValueError
  /\ utc_fromtimestamp (-62135510400) = Ok (-62135510400)
  /\ utc_fromtimestamp (2 ^ 63) = Raise OverflowError
  /\ utc_fromtimestamp (- 2 ^ 63 - 1) = Raise OverflowError
  /\ utc_fromtimestamp 67768036191676799 = Raise ValueError
  /\ utc_fromtimestamp 67768036191676800 = Raise OSError
  /\ utc_fromtimestamp (-67768040609740800) = Raise ValueError
  /\ utc_fromtimestamp (-67768040609740801) = Raise OSError
  /\ utc_strftime_exif 1600000000 = "2020:09:13 12:26:40"
  /\ utc_strftime_exif 951782400 = "2000:02:29 00:00:00"
  /\ utc_strftime_exif (-30641760000) = "999:01:01 00:00:00".
Proof. repeat split; vm_compute; reflexivity. Qed.

Example sorted_samples :
  sorted [["e"; "b"]; ["e"; "Zoo"]; ["e"; "a"]; ["e"]] = [["e"]; ["e"; "Zoo"]; ["e"; "a"]; ["e"; "b"]].
Proof. reflexivity. Qed.

Example issubclass_samples :
  issubclass UnicodeDecodeError ValueError = true
  /\ caught_by [JSONDecodeError; OSError] UnicodeDecodeError = false
  /\ caught_by [JSONDecodeError; OSError] FileNotFoundError = true
  /\ issubclass SystemExit Exception = false.
Proof. repeat split; reflexivity. Qed.

(** ** Correcting the extension *)

Lemma normalize_ext_alias ext : normalize_ext ext = alias_normal ext.
Proof.
  unfold normalize_ext, alias_normal, EXT_ALIASES. simpl.
  repeat (rewrite lookup_insert; case_decide; [subst; reflexivity|]).
  rewrite lookup_empty. simpl.
  repeat match goal with
         | |- context [String.eqb ext ?x] =>
             destruct (String.eqb_spec ext x) as [->|_]; [congruence|]
         end.
  reflexivity.
Qed.

(** C3.  For every path and every detection result,
    [get_corrected_filename] returns the original name with
    [was_corrected = False] when nothing was detected, or when the
    lowercased current extension and the detected extension are equal after
    alias normalization (.jpeg and .jpe to .jpg, .m4v to .mp4, .heif to
    .heic, .tif to .tiff); otherwise it returns the stem followed by the
    detected extension, with [was_corrected = True]. *)
Theorem get_corrected_filename_spec filepath detected_ext :
  get_corrected_filename filepath detected_ext
  = spec_corrected_filename filepath detected_ext.
Proof.
  unfold get_corrected_filename, spec_corrected_filename.
  destruct detected_ext as [ext|]; [|reflexivity].
  rewrite !normalize_ext_alias.
  destruct (String.eqb_spec (alias_normal (PyStr.lower (suffix filepath))) (alias_normal ext));
    case_decide; congruence.
Qed.

(** *** Names, stems and suffixes *)

Lemma string_length_app (s r : string) :
  String.length (s +:+ r) = (String.length s + String.length r)%nat.
Proof. induction s as [|c s IH]; simpl; [reflexivity | now rewrite IH]. Qed.

Lemma rfind_dot_app (s r : string) :
  PyStr.rfind_dot r = None ->
  PyStr.rfind_dot (s +:+ String "." r) = Some (String.length s).
Proof.
  intros Hr. induction s as [|c s IH]; simpl.
  - now rewrite Hr.
  - now rewrite IH.
Qed.

Lemma drop_app (s r : string) : PyStr.drop (String.length s) (s +:+ r) = r.
Proof. induction s as [|c s IH]; simpl; [now destruct r | exact IH]. Qed.

Lemma suffix_of_app (s ext : string) :
  s <> "" -> plain_ext ext = true -> suffix_of (s +:+ ext) = ext.
Proof.
  intros Hs Hext. unfold plain_ext in Hext.
  destruct ext as [|c rest]; [discriminate|].
  destruct (Ascii.eqb_spec c ".") as [->|Hc].
  2:{ destruct c as [[] [] [] [] [] [] [] []]; try discriminate. now contradict Hc. }
  apply andb_prop in Hext as [Hext _]. apply andb_prop in Hext as [Hne Hdot].
  destruct (PyStr.rfind_dot rest) eqn:Hr; [discriminate|].
  unfold suffix_of. rewrite rfind_dot_app by exact Hr.
  rewrite string_length_app. simpl String.length.
  destruct s as [|a s]; [congruence|].
  destruct rest as [|b rest]; [discriminate|].
  simpl String.length.
  replace ((0 <? S (String.length s))%nat) with true by (symmetry; apply Nat.ltb_lt; lia).
  replace ((S (String.length s) <? S (String.length s) + S (S (String.length rest)) - 1)%nat)
    with true by (symmetry; apply Nat.ltb_lt; lia).
  simpl andb. cbv iota.
  exact (drop_app (String a s) (String "." (String b rest))).
Qed.

Lemma stem_of_nonempty (nm : string) : nm <> "" -> stem_of nm <> "".
Proof.
  intros Hnm. unfold stem_of.
  destruct (PyStr.rfind_dot nm) as [i|]; [|exact Hnm].
  destruct ((0 <? i)%nat && (i <? String.length nm - 1)%nat) eqn:Hi; [|exact Hnm].
  apply andb_prop in Hi as [Hi _]. apply Nat.ltb_lt in Hi.
  destruct i as [|i]; [lia|]. destruct nm as [|c nm]; [congruence|]. discriminate.
Qed.

Lemma table_values_plain (file_type ext : string) :
  FILETYPE_TO_EXT !! file_type = Some ext -> plain_ext ext = true.
Proof.
  intros Hk. unfold FILETYPE_TO_EXT in Hk.
  apply elem_of_list_to_map_2 in Hk.
  repeat (apply elem_of_cons in Hk as [Hk|Hk]; [injection Hk as _ ->; reflexivity|]).
  now apply elem_of_nil in Hk.
Qed.

(** C10.  Extension correction is idempotent: for every path [p] of a
    file (its name is not empty) and every extension [ext] among the values
    of [FILETYPE_TO_EXT], if [get_corrected_filename p ext] returns a
    corrected name [n], then [get_corrected_filename] on any path whose
    name is [n], with the same [ext], returns [(n, False)]. *)
Theorem correction_idempotent (p p' : Path) (ext n : string) :
  (exists file_type, FILETYPE_TO_EXT !! file_type = Some ext) ->
  name p <> "" ->
  get_corrected_filename p (Some ext) = (n, true) ->
  name p' = n ->
  get_corrected_filename p' (Some ext) = (n, false).
Proof.
  intros [file_type Hext] Hname Hfirst Hn.
  apply table_values_plain in Hext.
  unfold get_corrected_filename in Hfirst.
  destruct (String.eqb _ _) in Hfirst; [discriminate|].
  injection Hfirst as Hfirst.
  unfold get_corrected_filename, suffix. rewrite Hn, <- Hfirst.
  rewrite suffix_of_app; [| apply stem_of_nonempty, Hname | exact Hext].
  assert (PyStr.lower ext = ext) as ->.
  { unfold plain_ext in Hext. destruct ext as [|c r]; [discriminate|].
    destruct c as [[] [] [] [] [] [] [] []]; try discriminate.
    apply andb_prop in Hext as [_ Hext]. now apply String.eqb_eq in Hext. }
  now rewrite String.eqb_refl.
Qed.

Lemma correction_idempotent_witness :
  (exists file_type, FILETYPE_TO_EXT !! file_type = Some ".png")
  /\ name ["album"; "IMG.jpeg"] <> ""
  /\ get_corrected_filename ["album"; "IMG.jpeg"] (Some ".png") = ("IMG.png", true)
  /\ name ["out"; "IMG.png"] = "IMG.png"
  /\ get_corrected_filename ["out"; "IMG.png"] (Some ".png") = ("IMG.png", false).
Proof.
  assert (H1 : exists file_type, FILETYPE_TO_EXT !! file_type = Some ".png")
    by (exists "PNG"; reflexivity).
  assert (H2 : name ["album"; "IMG.jpeg"] <> "") by discriminate.
  assert (H3 : get_corrected_filename ["album"; "IMG.jpeg"] (Some ".png") = ("IMG.png", true))
    by reflexivity.
  assert (H4 : name ["out"; "IMG.png"] = "IMG.png") by reflexivity.
  exact (conj H1 (conj H2 (conj H3 (conj H4
           (correction_idempotent _ _ _ _ H1 H2 H3 H4))))).
Defined.

(** ** Summary lines *)

(** *** Stripping does not change what the script reads off a line *)

Lemma split_ws_lstrip (s : string) : PyStr.split_ws (PyStr.lstrip s) = PyStr.split_ws s.
Proof.
  unfold PyStr.split_ws. induction s as [|c s IH]; simpl; [reflexivity|].
  destruct (PyStr.is_space c) eqn:Hc; [exact IH|]. simpl. now rewrite Hc.
Qed.

Lemma split_ws_aux_rstrip (s : string) : forall cur,
  PyStr.split_ws_aux cur (PyStr.rstrip s) = PyStr.split_ws_aux cur s.
Proof.
  induction s as [|c s IH]; intros cur; simpl; [reflexivity|].
  destruct (PyStr.rstrip s) as [|b r] eqn:Hr.
  - destruct (PyStr.is_space c) eqn:Hc; simpl.
    + destruct cur; rewrite <- IH; reflexivity.
    + rewrite Hc. rewrite <- IH. reflexivity.
  - simpl. destruct (PyStr.is_space c); [destruct cur|]; now rewrite <- IH.
Qed.

Lemma split_ws_strip (s : string) : PyStr.split_ws (PyStr.strip s) = PyStr.split_ws s.
Proof.
  unfold PyStr.strip. rewrite <- (split_ws_lstrip s). apply split_ws_aux_rstrip.
Qed.

Lemma leading_int_strip (s : string) : leading_int (PyStr.strip s) = leading_int s.
Proof. unfold leading_int. now rewrite split_ws_strip. Qed.

Lemma contains_empty (p : string) : p <> "" -> PyStr.contains p "" = false.
Proof. destruct p; [congruence | reflexivity]. Qed.

Lemma contains_lstrip (p s : string) :
  starts_nonspace p = true -> PyStr.contains p (PyStr.lstrip s) = PyStr.contains p s.
Proof.
  intros Hp. destruct p as [|a p]; [discriminate|]. simpl in Hp.
  induction s as [|c s IH]; [reflexivity|].
  cbn [PyStr.lstrip]. destruct (PyStr.is_space c) eqn:Hc; [|reflexivity].
  rewrite IH. cbn [PyStr.contains PyStr.startswith].
  destruct (Ascii.eqb_spec a c) as [->|_]; [|reflexivity].
  rewrite Hc in Hp. discriminate.
Qed.

Lemma ends_nonspace_nonempty (p : string) : ends_nonspace p = true -> p <> "".
Proof. destruct p; [discriminate | congruence]. Qed.

Lemma startswith_empty (p : string) : p <> "" -> PyStr.startswith p "" = false.
Proof. destruct p; [congruence | reflexivity]. Qed.

Lemma startswith_rstrip (s : string) : forall p,
  ends_nonspace p = true -> PyStr.startswith p (PyStr.rstrip s) = PyStr.startswith p s.
Proof.
  induction s as [|c s IH]; intros p Hp; [reflexivity|].
  destruct p as [|a p]; [discriminate|].
  cbn [PyStr.rstrip].
  destruct p as [|a' p].
  - simpl in Hp. destruct (PyStr.rstrip s) as [|b r]; [|reflexivity].
    destruct (PyStr.is_space c) eqn:Hc; [|reflexivity]. simpl.
    destruct (Ascii.eqb_spec a c) as [->|_]; [|reflexivity].
    rewrite Hc in Hp. discriminate.
  - assert (Hp' : ends_nonspace (String a' p) = true) by exact Hp.
    specialize (IH _ Hp').
    destruct (PyStr.rstrip s) as [|b r] eqn:Hr.
    + change (PyStr.startswith (String a (String a' p)) (String c s))
        with ((a =? c)%char && PyStr.startswith (String a' p) s).
      rewrite <- IH.
      destruct (PyStr.is_space c); simpl; rewrite ?andb_false_r; reflexivity.
    + change (PyStr.startswith (String a (String a' p)) (String c s))
        with ((a =? c)%char && PyStr.startswith (String a' p) s).
      now rewrite <- IH.
Qed.

Lemma contains_rstrip (p s : string) :
  ends_nonspace p = true -> PyStr.contains p (PyStr.rstrip s) = PyStr.contains p s.
Proof.
  intros Hp. pose proof (ends_nonspace_nonempty _ Hp) as Hne.
  induction s as [|c s IH]; [reflexivity|].
  cbn [PyStr.contains]. rewrite <- (startswith_rstrip (String c s) p Hp), <- IH.
  cbn [PyStr.rstrip].
  destruct (PyStr.rstrip s) as [|b r] eqn:Hr.
  - rewrite (contains_empty p Hne), orb_false_r.
    destruct (PyStr.is_space c).
    + now rewrite contains_empty, startswith_empty.
    + destruct p as [|a p]; [congruence|]. cbn [PyStr.contains].
      now rewrite (startswith_empty _ Hne), !orb_false_r.
  - destruct p as [|a p]; [congruence|]. reflexivity.
Qed.

Lemma contains_strip (p s : string) :
  starts_nonspace p = true -> ends_nonspace p = true ->
  PyStr.contains p (PyStr.strip s) = PyStr.contains p s.
Proof.
  intros H1 H2. unfold PyStr.strip. now rewrite contains_rstrip, contains_lstrip.
Qed.

(** *** Counting the summary lines *)

Lemma count_line_spec (u n : Z) (line : string) :
  count_line (u, n) line
  = (u + (if PyStr.contains "image files updated" line
          then default 0 (leading_int line) else 0),
     n + (if PyStr.contains "image files unchanged" line
             && negb (PyStr.contains "image files updated" line)
          then default 0 (leading_int line) else 0)).
Proof.
  unfold count_line.
  rewrite !contains_strip by reflexivity. rewrite leading_int_strip.
  destruct (PyStr.contains "image files updated" line);
    destruct (PyStr.contains "image files unchanged" line); simpl;
    f_equal; lia.
Qed.

Lemma count_lines_spec (lines : list string) : forall u n,
  List.fold_left count_line lines (u, n)
  = (u + List.fold_right Z.add 0
           (List.map (fun line => default 0 (leading_int line))
              (List.filter (PyStr.contains "image files updated") lines)),
     n + List.fold_right Z.add 0
           (List.map (fun line => default 0 (leading_int line))
              (List.filter (fun line => PyStr.contains "image files unchanged" line
                               && negb (PyStr.contains "image files updated" line))
                 lines))).
Proof.
  induction lines as [|line lines IH]; intros u n.
  - simpl. f_equal; lia.
  - cbn [List.fold_left]. rewrite count_line_spec, IH. cbn [List.filter].
    destruct (PyStr.contains "image files updated" line);
      destruct (PyStr.contains "image files unchanged" line); simpl;
      f_equal; lia.
Qed.

Lemma count_summary_spec (out : string) :
  count_summary out
  = (sum_leading (PyStr.contains "image files updated") out,
     sum_leading (fun line => PyStr.contains "image files unchanged" line
                              && negb (PyStr.contains "image files updated" line)) out).
Proof. unfold count_summary, sum_leading. now rewrite count_lines_spec. Qed.

Lemma count_summary_total (out : string) :
  (count_summary out).1 + (count_summary out).2 = amended_success_count out.
Proof. rewrite count_summary_spec. reflexivity. Qed.



Section Runs.
Context `{OS} `{Clock}.
Local Open Scope script_scope.

Lemma for_each_print {A} (l : list A) (f : A -> message) (s : os) :
  exists t, for_each l tt (fun _ x => print (f x)) s = (Ok tt, s, t)
            /\ Forall is_print t.
Proof.
  induction l as [|x l [t [IH Ht]]]; simpl.
  - exists []. split; [reflexivity | constructor].
  - unfold bind. simpl. rewrite IH. eexists. split; [reflexivity|].
    constructor; [exact I | exact Ht].
Qed.

Lemma report_stderr_run (err : string) (s : os) :
  exists t, report_stderr err s = (Ok tt, s, t) /\ Forall is_print t.
Proof.
  unfold report_stderr.
  destruct (String.eqb err ""); [exists []; split; [reflexivity | constructor]|].
  destruct (real_errors err) as [|e errs] eqn:He;
    [exists []; split; [reflexivity | constructor]|].
  unfold bind at 1. cbn [print].
  unfold bind at 1.
  destruct (for_each_print (List.firstn 5 (e :: errs)) MsgExiftoolWarning s)
    as [t [-> Ht]].
  destruct (5 <? List.length (e :: errs))%nat; cbn; eexists; (split; [reflexivity|]);
    repeat (constructor; try exact I); rewrite ?app_nil_r;
    try (apply Forall_app; split); auto; repeat (constructor; try exact I).
Qed.

End Runs.

Section BatchSet.
Context `{OS} `{Clock}.
Local Open Scope script_scope.



Lemma batch_set_sum (fts : list (Path * datetime)) (dry_run : bool) (s : os)
    (success error_count : Z) :
  outcome (batch_set_timestamps fts dry_run s) = Ok (success, error_count) ->
  success + error_count = len fts.
Proof.
  unfold batch_set_timestamps. destruct fts as [|x fts].
  - cbn. intros [= <- <-]. reflexivity.
  - set (l := x :: fts). destruct dry_run.
    + unfold bind.
      destruct (for_each_print l
                  (fun entry => MsgDryRunWouldSet (name entry.1)
                                  (format_exif_datetime entry.2)) s) as [t [Hrun _]].
      rewrite Hrun. cbn. intros [= <- <-]. lia.
    + unfold try_except, bind, do_write_temp, do_run, do_unlink, call.
      destruct (write_temp (argfile_text l) s) as [[p|e] s1].
      2:{ destruct (issubclass e FileNotFoundError); [cbn; discriminate|].
          destruct (issubclass e Exception); cbn; [intros [= <- <-]; lia | discriminate]. }
      destruct (subprocess_run ["exiftool"; "-@"; p] s1) as [[res|e] s2].
      2:{ destruct (issubclass e FileNotFoundError); [cbn; discriminate|].
          destruct (issubclass e Exception); cbn; [intros [= <- <-]; lia | discriminate]. }
      destruct (unlink p s2) as [[[]|e] s3].
      2:{ destruct (issubclass e FileNotFoundError); [cbn; discriminate|].
          destruct (issubclass e Exception); cbn; [intros [= <- <-]; lia | discriminate]. }
      destruct (count_summary (stdout res)) as [u n].
      unfold bind.
      destruct (report_stderr_run (stderr res) s3) as [t [-> _]].
      cbn. intros [= <- <-]. lia.
Qed.

End BatchSet.

(** ** The parts of process_album *)

(** *** Paths *)

Lemma name_pjoin (p : Path) (nm : string) : name (pjoin p nm) = nm.
Proof. unfold name, pjoin. apply List.last_last. Qed.

Section Phases.
Context {sys : OS} {clk : Clock}.
Local Open Scope script_scope.

(** *** Collecting the media files *)

Lemma collect_item_run (album_path : Path) (s : os) (acc : list Path) (nm : string) :
  exists r t,
    collect_item album_path acc nm s = (r, s, t)
    /\ Forall walk_event t
    /\ match r with
       | Ok acc' =>
           album_answers album_path s [nm]
           /\ acc' = acc ++ List.map (pjoin album_path) (media_names album_path s [nm])
       | Raise e =>
           reserved_name nm = false /\ is_dir (pjoin album_path nm) s = Raise e
       end.
Proof.
  unfold collect_item, media_names, album_answers. cbn [List.filter].
  destruct (reserved_name nm) eqn:Hres; cbn [negb andb].
  - exists (Ok acc), []. split; [reflexivity|]. split; [constructor|].
    split; [constructor; [intros Hf; congruence | constructor] | now rewrite app_nil_r].
  - unfold bind, do_is_dir, query.
    destruct (is_dir (pjoin album_path nm) s) as [[]|e] eqn:Hd; cbn.
    + eexists _, _. split; [reflexivity|]. split; [repeat constructor|].
      split; [constructor; [eauto | constructor] | now rewrite app_nil_r].
    + eexists _, _. split; [reflexivity|]. split; [repeat constructor|].
      split; [constructor; [eauto | constructor] | reflexivity].
    + eexists _, _. split; [reflexivity|]. split; [repeat constructor | auto].
Qed.

Lemma collect_loop (album_path : Path) (s : os) (entries : list string) :
  forall acc, exists r t,
    for_each entries acc (collect_item album_path) s = (r, s, t)
    /\ Forall walk_event t
    /\ match r with
       | Ok acc' =>
           album_answers album_path s entries
           /\ acc' = acc ++ List.map (pjoin album_path) (media_names album_path s entries)
       | Raise e =>
           exists nm, In nm entries /\ reserved_name nm = false
                      /\ is_dir (pjoin album_path nm) s = Raise e
       end.
Proof.
  induction entries as [|nm entries IH]; intros acc.
  - exists (Ok acc), []. split; [reflexivity|]. split; [constructor|].
    split; [constructor | now rewrite app_nil_r].
  - cbn [for_each]. unfold bind.
    destruct (collect_item_run album_path s acc nm) as (r1 & t1 & -> & Ht1 & Hr1).
    destruct r1 as [acc1|e].
    2:{ eexists _, _. split; [reflexivity|]. split; [exact Ht1|].
        exists nm. split; [now left | exact Hr1]. }
    destruct Hr1 as [Hans1 ->].
    destruct (IH (acc ++ List.map (pjoin album_path) (media_names album_path s [nm])))
      as (r2 & t2 & -> & Ht2 & Hr2).
    eexists _, _. split; [reflexivity|]. split; [now apply Forall_app|].
    destruct r2 as [acc2|e].
    + destruct Hr2 as [Hans2 ->]. split.
      * unfold album_answers in *. apply Forall_cons in Hans1 as [Hnm _].
        now constructor.
      * rewrite <- app_assoc, <- List.map_app. unfold media_names.
        rewrite <- List.filter_app. reflexivity.
    + destruct Hr2 as (nm' & Hin & Hres & Hd). exists nm'. split; [now right | auto].
Qed.

Lemma collect_media_run (album_path : Path) (s : os) :
  exists r t,
    collect_media album_path s = (r, s, t)
    /\ Forall walk_event t
    /\ (forall media, r = Ok media <-> listed_media album_path s media).
Proof.
  unfold collect_media, bind, do_iterdir, query, listed_media.
  destruct (iterdir album_path s) as [entries|e] eqn:Hit.
  - destruct (collect_loop album_path s entries []) as (r & t & -> & Ht & Hr).
    eexists _, _. split; [reflexivity|]. split; [constructor; [exact I | exact Ht]|].
    intros media. destruct r as [acc|e].
    + destruct Hr as [Hans ->]. cbn [app]. split.
      * intros [= <-]. exists entries. auto.
      * intros (entries' & [= <-] & _ & ->). reflexivity.
    + destruct Hr as (nm & Hin & Hres & Hd). split; [discriminate|].
      intros (entries' & [= <-] & Hans & _). unfold album_answers in Hans.
      rewrite Forall_forall in Hans. apply list_elem_of_In in Hin.
      destruct (Hans nm Hin Hres) as [d Hd']. congruence.
  - eexists _, _. split; [reflexivity|]. split; [repeat constructor|].
    intros media. split; [discriminate|]. intros (entries & Hit' & _). discriminate.
Qed.

(** *** Detecting the file types *)

Lemma detect_run (files : list Path) (s : os) :
  files <> [] ->
  exists r t,
    batch_detect_file_types files s
    = (r, (subprocess_run (detect_cmd files) s).2,
       EvRun (detect_cmd files) (subprocess_run (detect_cmd files) s).1 :: t)
    /\ Forall is_print t.
Proof.
  intros Hne. unfold batch_detect_file_types.
  destruct files as [|f files]; [congruence|]. set (fs := f :: files).
  match goal with |- context [try_except _ ?h] => set (handlers := h) end.
  assert (Hh : forall e s0 t0, exists r t,
             match handlers e with
             | Some h => let '(r, s2, t2) := h s0 in (r, s2, t0 ++ t2)
             | None => (Raise e, s0, t0)
             end = (r, s0, t0 ++ t) /\ Forall is_print t).
  { intros e s0 t0. unfold handlers.
    destruct (issubclass e FileNotFoundError);
      [eexists _, _; split; [reflexivity | repeat constructor]|].
    destruct (issubclass e JSONDecodeError);
      [eexists _, _; split; [reflexivity | repeat constructor]|].
    destruct (issubclass e Exception);
      [eexists _, _; split; [reflexivity | repeat constructor]|].
    exists (Raise e), []. split; [now rewrite app_nil_r | constructor]. }
  clearbody handlers.
  unfold try_except, bind, do_run, call, lift, print.
  destruct (subprocess_run (detect_cmd fs) s) as [[res|e] s1]; cbn [fst snd].
  - destruct (negb (returncode res =? 0) && String.eqb (stdout res) "").
    + cbn. eexists _, _. split; [reflexivity|]. repeat constructor.
    + destruct (json_loads (stdout res)) as [data|e].
      * destruct (build_type_map data) as [tm|e].
        -- cbn. eexists _, _. split; [reflexivity|]. constructor.
        -- destruct (Hh e s1 [EvRun (detect_cmd fs) (Ok res)]) as (r & t & Hr & Ht).
           cbn in Hr |- *. rewrite Hr.
           eexists _, _. split; [reflexivity | exact Ht].
      * destruct (Hh e s1 [EvRun (detect_cmd fs) (Ok res)]) as (r & t & Hr & Ht).
        cbn in Hr |- *. rewrite Hr.
        eexists _, _. split; [reflexivity | exact Ht].
  - destruct (Hh e s1 [EvRun (detect_cmd fs) (Raise e)]) as (r & t & Hr & Ht).
    cbn in Hr |- *. rewrite Hr.
    eexists _, _. split; [reflexivity | exact Ht].
Qed.

End Phases.

Section Timestamps.
Context {clk : Clock}.

(** *** What parse_timestamp returns *)

Lemma try_field_some (metadata : json) (field : string) (dt : datetime) :
  try_field metadata field = Ok (Some dt) ->
  exists ts, usable_int metadata field = Some ts /\ fromtimestamp ts = Ok dt.
Proof.
  unfold try_field, usable_int, field_int, read_timestamp, rtry, rbind.
  destruct (py_in field metadata) as [[]|]; try discriminate.
  destruct (py_getitem metadata field) as [entry|e1];
    [|destruct (caught_by _ e1); discriminate].
  destruct (py_getitem entry "timestamp") as [raw|e2];
    [|destruct (caught_by _ e2); discriminate].
  destruct (py_int raw) as [ts|e3]; [|destruct (caught_by _ e3); discriminate].
  destruct (fromtimestamp ts) as [dt'|e4] eqn:Hts;
    [|destruct (caught_by _ e4); discriminate].
  intros [= <-]. exists ts. now rewrite Hts.
Qed.

Lemma try_field_none (metadata : json) (field : string) :
  try_field metadata field = Ok None -> usable_int metadata field = None.
Proof.
  unfold try_field, usable_int, field_int, read_timestamp, rtry, rbind.
  destruct metadata as [| | | | |l|m]; cbn [py_in py_getitem]; try reflexivity.
  destruct (m !! field) as [entry|] eqn:Hm; [|reflexivity].
  rewrite bool_decide_eq_true_2 by eauto.
  destruct (py_getitem entry "timestamp") as [raw|e2]; [|reflexivity].
  destruct (py_int raw) as [ts|e3]; [|reflexivity].
  destruct (fromtimestamp ts) as [dt'|e4]; [discriminate | reflexivity].
Qed.

Lemma parse_timestamp_chosen (metadata : json) (dt : datetime) :
  parse_timestamp metadata = Ok (Some dt) ->
  exists ts, chosen_timestamp metadata = Some ts /\ fromtimestamp ts = Ok dt.
Proof.
  unfold parse_timestamp, chosen_timestamp, rbind.
  destruct (try_field metadata "photoTakenTime") as [[dt'|]|e] eqn:Htaken;
    [| |discriminate].
  - intros [= ->]. apply try_field_some in Htaken as (ts & -> & Hts). eauto.
  - intros Hcreated. apply try_field_none in Htaken as ->.
    apply try_field_some in Hcreated as (ts & -> & Hts). eauto.
Qed.

End Timestamps.

Section Prepare.
Context {sys : OS} {clk : Clock}.
Local Open Scope script_scope.

(** *** Reading the sidecars *)

Lemma read_metadata_run (json_file : Path) (nm : string) (s : os) :
  exists r t,
    read_metadata json_file nm s = (r, s, EvLoadJson json_file (load_json json_file s) :: t)
    /\ Forall is_print t
    /\ (forall metadata, r = Ok (Some metadata) -> load_json json_file s = Ok metadata).
Proof.
  unfold read_metadata, try_except, bind, do_load_json, query, ret.
  destruct (load_json json_file s) as [metadata|e].
  - eexists _, _. split; [reflexivity|]. split; [constructor|]. now intros ? [= ->].
  - destruct (caught_by [JSONDecodeError; OSError] e).
    + eexists _, _. split; [reflexivity|]. split; [repeat constructor|]. discriminate.
    + eexists _, _. split; [reflexivity|]. split; [constructor|]. discriminate.
Qed.

Lemma prepare_file_run (album_path output_dir : Path) (dry_run : bool)
    (file_types : gmap string (option string)) (acc : prepared) (media_file : Path)
    (s : os) :
  exists r t,
    prepare_file (pjoin album_path "metadata") output_dir file_types acc media_file s
    = (r, s, t)
    /\ Forall (prepare_event dry_run) t
    /\ match r with
       | Raise _ => True
       | Ok acc' =>
           (files_to_process acc' = files_to_process acc
            /\ skipped acc' + errors acc' = skipped acc + errors acc + 1)
           \/ (exists dst dt metadata ts,
                 files_to_process acc' = files_to_process acc ++ [(media_file, dst, dt)]
                 /\ skipped acc' = skipped acc /\ errors acc' = errors acc
                 /\ In (EvExists (sidecar album_path media_file) (Ok true)) t
                 /\ In (EvLoadJson (sidecar album_path media_file) (Ok metadata)) t
                 /\ chosen_timestamp metadata = Some ts
                 /\ fromtimestamp ts = Ok dt)
       end.
Proof.
  unfold prepare_file. fold (sidecar album_path media_file).
  set (jf := sidecar album_path media_file).
  unfold bind at 1. unfold do_exists, query.
  destruct (path_exists jf s) as [[]|e] eqn:Hex; cbn [negb].
  3:{ eexists _, _. split; [reflexivity|]. split; [trace_forall | exact I]. }
  2:{ cbn. eexists _, _. split; [reflexivity|]. split; [trace_forall|].
      left. cbn. split; [reflexivity | lia]. }
  unfold bind at 1.
  destruct (read_metadata_run jf (name media_file) s) as (r & t & -> & Ht & Hload).
  destruct r as [[metadata|]|e].
  3:{ eexists _, _. split; [reflexivity|]. split; [trace_forall | exact I]. }
  2:{ cbn. eexists _, _. split; [reflexivity|]. split; [trace_forall|].
      left. cbn. split; [reflexivity | lia]. }
  specialize (Hload _ eq_refl).
  unfold bind at 1. unfold lift.
  destruct (parse_timestamp metadata) as [[dt|]|e] eqn:Hparse.
  3:{ eexists _, _. split; [reflexivity|]. split; [trace_forall | exact I]. }
  2:{ cbn. eexists _, _. split; [reflexivity|]. split; [trace_forall|].
      left. cbn. split; [reflexivity | lia]. }
  apply parse_timestamp_chosen in Hparse as (ts & Hchosen & Hts).
  destruct (get_corrected_filename media_file (mjoin (file_types !! name media_file)))
    as [corrected_name was_corrected].
  destruct was_corrected; cbn; (eexists _, _; split; [reflexivity|]);
    (split; [trace_forall|]);
    right; exists (pjoin output_dir corrected_name), dt, metadata, ts;
    cbn; rewrite Hload; repeat split; auto.
Qed.

Lemma prepare_loop_run (album_path output_dir : Path) (dry_run : bool)
    (file_types : gmap string (option string)) (s : os) (media_files : list Path) :
  forall acc, exists r t,
    for_each media_files acc
      (prepare_file (pjoin album_path "metadata") output_dir file_types) s
    = (r, s, t)
    /\ Forall (prepare_event dry_run) t
    /\ match r with
       | Raise _ => True
       | Ok prep =>
           exists new,
             files_to_process prep = files_to_process acc ++ new
             /\ skipped prep + errors prep + len new
                = skipped acc + errors acc + len media_files
             /\ Forall (fun entry : Path * Path * datetime =>
                          exists metadata ts,
                            In entry.1.1 media_files
                            /\ In (EvExists (sidecar album_path entry.1.1) (Ok true)) t
                            /\ In (EvLoadJson (sidecar album_path entry.1.1) (Ok metadata)) t
                            /\ chosen_timestamp metadata = Some ts
                            /\ fromtimestamp ts = Ok entry.2) new
       end.
Proof.
  induction media_files as [|media_file media_files IH]; intros acc.
  - exists (Ok acc), []. split; [reflexivity|]. split; [constructor|].
    exists []. rewrite app_nil_r. split; [reflexivity|].
    split; [unfold len; cbn; lia | constructor].
  - cbn [for_each]. unfold bind.
    destruct (prepare_file_run album_path output_dir dry_run file_types acc media_file s)
      as (r1 & t1 & -> & Ht1 & Hstep).
    destruct r1 as [acc'|e]; [|eexists _, _; split; [reflexivity|]; split; [assumption | exact I]].
    destruct (IH acc') as (r2 & t2 & -> & Ht2 & Hrest).
    eexists _, _. split; [reflexivity|]. split; [now apply Forall_app|].
    destruct r2 as [prep|e]; [|exact I].
    destruct Hrest as (new & Hnew & Hsum & Hall).
    assert (Hall' : Forall (fun entry : Path * Path * datetime =>
                          exists metadata ts,
                            In entry.1.1 (media_file :: media_files)
                            /\ In (EvExists (sidecar album_path entry.1.1) (Ok true)) (t1 ++ t2)
                            /\ In (EvLoadJson (sidecar album_path entry.1.1) (Ok metadata))
                                 (t1 ++ t2)
                            /\ chosen_timestamp metadata = Some ts
                            /\ fromtimestamp ts = Ok entry.2) new).
    { eapply Forall_impl; [exact Hall|].
      intros entry (metadata & ts & Hin & Hex & Hload & Hrest).
      exists metadata, ts. rewrite !in_app_iff. cbn [In]. tauto. }
    destruct Hstep as [[Hsame Hcount] | (dst & dt & metadata & ts & Hftp & Hsk & Her & Hex & Hload & Hch & Hts)].
    + exists new. rewrite Hnew, Hsame. split; [reflexivity|]. split; [|exact Hall'].
      unfold len in *. cbn [List.length]. lia.
    + exists ((media_file, dst, dt) :: new). rewrite Hnew, Hftp, <- app_assoc.
      split; [reflexivity|]. split.
      * unfold len in *. cbn [List.length]. lia.
      * constructor; [|exact Hall'].
        exists metadata, ts. cbn [fst snd In]. rewrite !in_app_iff. tauto.
Qed.

(** *** Copying *)

Lemma copy_file_run (dry_run : bool) (files_for_timestamps : list (Path * datetime))
    (errs : Z) (src dst : Path) (dt : datetime) (s : os) :
  exists r s' t,
    copy_file dry_run (files_for_timestamps, errs) (src, dst, dt) s = (r, s', t)
    /\ Forall (copy_event dry_run) t
    /\ (forall src' dst' rr, In (EvCopy2 src' dst' rr) t -> src' = src /\ dst' = dst)
    /\ match r with
       | Raise e =>
           In (EvCopy2 src dst (Raise e)) t /\ issubclass e OSError = false
           /\ copied t = []
       | Ok (files', errs') =>
           (files' = files_for_timestamps ++ [(dst, dt)] /\ errs' = errs
            /\ (dry_run = false -> t = [EvCopy2 src dst (Ok tt)]))
           \/ (files' = files_for_timestamps /\ errs' = errs + 1 /\ copied t = [])
       end.
Proof.
  unfold copy_file. destruct dry_run; cbn [negb].
  - cbn. eexists _, _, _. split; [reflexivity|]. split; [trace_forall|].
    split; [intros ? ? ? [[=]|[]]|]. left. repeat split. discriminate.
  - unfold try_except, bind, do_copy2, call.
    destruct (copy2 src dst s) as [[[]|e] s1].
    + cbn. eexists _, _, _. split; [reflexivity|]. split; [trace_forall|].
      split; [intros ? ? ? [[= <- <- <-]|[]]; auto|]. left. auto.
    + destruct (issubclass e OSError) eqn:Hos; cbn.
      * eexists _, _, _. split; [reflexivity|]. split; [trace_forall|].
        split; [intros ? ? ? [[= <- <- <-]|[[=]|[]]]; auto|]. right. auto.
      * eexists _, _, _. split; [reflexivity|]. split; [trace_forall|].
        split; [intros ? ? ? [[= <- <- <-]|[]]; auto|].
        split; [now left | auto].
Qed.

Lemma copied_app (t1 t2 : list event) : copied (t1 ++ t2) = copied t1 ++ copied t2.
Proof. apply omap_app. Qed.

Lemma copy_loop_run (dry_run : bool) (files : list (Path * Path * datetime)) :
  forall (acc : list (Path * datetime) * Z) (s : os), exists r s' t,
    for_each files acc (copy_file dry_run) s = (r, s', t)
    /\ Forall (copy_event dry_run) t
    /\ (forall src dst rr, In (EvCopy2 src dst rr) t -> exists dt, In (src, dst, dt) files)
    /\ match r with
       | Raise e =>
           exists src dst,
             In (EvCopy2 src dst (Raise e)) t /\ issubclass e OSError = false
       | Ok (files', errs') =>
           exists new,
             files' = acc.1 ++ new
             /\ len new + errs' = acc.2 + len files
             /\ (dry_run = false -> copied t = List.map fst new)
             /\ Forall (fun entry : Path * datetime =>
                          exists src, In (src, entry.1, entry.2) files
                                      /\ (dry_run = false ->
                                          In (EvCopy2 src entry.1 (Ok tt)) t)) new
             /\ (forall src dst,
                   In (EvCopy2 src dst (Ok tt)) t ->
                   exists dt, In (src, dst, dt) files /\ In (dst, dt) new)
       end.
Proof.
  induction files as [|[[src dst] dt] files IH]; intros [fft errs] s.
  - exists (Ok (fft, errs)), s, []. split; [reflexivity|]. split; [constructor|].
    split; [intros ? ? ? []|]. exists []. cbn. rewrite app_nil_r.
    split; [reflexivity|]. split; [unfold len; cbn; lia|]. split; [reflexivity|].
    split; [constructor | intros ? ? []].
  - cbn [for_each]. unfold bind.
    destruct (copy_file_run dry_run fft errs src dst dt s)
      as (r1 & s1 & t1 & -> & Ht1 & Hev1 & Hstep).
    destruct r1 as [[fft1 errs1]|e].
    2:{ eexists _, _, _. split; [reflexivity|]. split; [assumption|]. split.
        - intros src' dst' rr Hin. apply Hev1 in Hin as [-> ->]. exists dt. now left.
        - exists src, dst. split; apply Hstep. }
    destruct (IH (fft1, errs1) s1) as (r2 & s2 & t2 & -> & Ht2 & Hev2 & Hrest).
    eexists _, _, _. split; [reflexivity|]. split; [now apply Forall_app|]. split.
    { intros src' dst' rr Hin. apply in_app_iff in Hin as [Hin|Hin].
      - apply Hev1 in Hin as [-> ->]. exists dt. now left.
      - apply Hev2 in Hin as [dt' Hin]. exists dt'. now right. }
    destruct r2 as [[fft2 errs2]|e].
    2:{ destruct Hrest as (src' & dst' & Hin & Hos). exists src', dst'.
        split; [apply in_app_iff; now right | exact Hos]. }
    destruct Hrest as (new & Hnew & Hsum & Hcopied & Hall & Hback). cbn [fst snd] in *.
    assert (Hall' : Forall (fun entry : Path * datetime =>
                          exists src0, In (src0, entry.1, entry.2) ((src, dst, dt) :: files)
                                      /\ (dry_run = false ->
                                          In (EvCopy2 src0 entry.1 (Ok tt)) (t1 ++ t2))) new).
    { eapply Forall_impl; [exact Hall|]. intros entry (src0 & Hin & Hcp).
      exists src0. split; [now right|]. intros Hd. apply in_app_iff. right. auto. }
    destruct Hstep as [(-> & -> & Ht1') | (-> & -> & Hnone)].
    + exists ((dst, dt) :: new). rewrite Hnew, <- app_assoc. split; [reflexivity|].
      split; [unfold len in *; cbn [List.length]; lia|]. split; [|split].
      * intros Hd. rewrite copied_app, Hcopied, (Ht1' Hd) by exact Hd. reflexivity.
      * constructor; [|exact Hall'].
        exists src. cbn [fst snd]. split; [now left|].
        intros Hd. rewrite (Ht1' Hd). now left.
      * intros src' dst' Hin. apply in_app_iff in Hin as [Hin|Hin].
        -- apply Hev1 in Hin as [-> ->]. exists dt. split; now left.
        -- apply Hback in Hin as (dt' & Hin1 & Hin2). exists dt'. split; now right.
    + exists new. split; [exact Hnew|].
      split; [unfold len in *; cbn [List.length]; lia|]. split; [|split; [exact Hall'|]].
      * intros Hd. rewrite copied_app, Hnone, Hcopied by exact Hd. reflexivity.
      * intros src' dst' Hin. apply in_app_iff in Hin as [Hin|Hin].
        -- exfalso. assert (Hc : In dst' (copied t1)).
           { apply list_elem_of_In, list_elem_of_omap.
             exists (EvCopy2 src' dst' (Ok tt)). split; [now apply list_elem_of_In | reflexivity]. }
           rewrite Hnone in Hc. exact Hc.
        -- apply Hback in Hin as (dt' & Hin1 & Hin2). exists dt'. split; [now right | exact Hin2].
Qed.

End Prepare.

(** *** Projections of a trace *)

Lemma runs_app (t1 t2 : list event) : runs (t1 ++ t2) = runs t1 ++ runs t2.
Proof. apply omap_app. Qed.

Lemma argfiles_app (t1 t2 : list event) : argfiles (t1 ++ t2) = argfiles t1 ++ argfiles t2.
Proof. apply omap_app. Qed.

Lemma runs_cons (ev : event) (t : list event) :
  runs (ev :: t) = match ev with EvRun cmd _ => cmd :: runs t | _ => runs t end.
Proof. now destruct ev. Qed.

Lemma argfiles_cons (ev : event) (t : list event) :
  argfiles (ev :: t)
  = match ev with EvWriteTemp text r => (text, r) :: argfiles t | _ => argfiles t end.
Proof. now destruct ev. Qed.

Lemma omap_none {A B} (f : A -> option B) (P : A -> Prop) (l : list A) :
  (forall x, P x -> f x = None) -> Forall P l -> omap f l = [].
Proof.
  intros Hf Hl. induction Hl as [|x l Hx _ IH]; [reflexivity|].
  cbn. now rewrite (Hf x Hx).
Qed.

Lemma prints_no_runs (t : list event) : Forall is_print t -> runs t = [].
Proof. apply omap_none. now intros []. Qed.

Lemma prints_no_argfiles (t : list event) : Forall is_print t -> argfiles t = [].
Proof. apply omap_none. now intros []. Qed.








Section Write.
Context {sys : OS} {clk : Clock}.
Local Open Scope script_scope.

(** *** Writing the timestamps *)

Lemma batch_set_shape (fts : list (Path * datetime)) (dry_run : bool) (s : os) :
  exists r s' t,
    batch_set_timestamps fts dry_run s = (r, s', t)
    /\ Forall (write_event dry_run) t
    /\ ((argfiles t = [] /\ runs t = [])
        \/ (dry_run = false /\ fts <> []
            /\ exists rw, argfiles t = [(argfile_text fts, rw)]
                          /\ (runs t = [] \/ exists p, rw = Ok p /\ runs t = [write_cmd p])))
    /\ (forall success error_count,
          r = Ok (success, error_count) -> success + error_count = len fts).
Proof.
  destruct (batch_set_timestamps fts dry_run s) as [[r s'] t] eqn:Hrun.
  exists r, s', t. split; [reflexivity|].
  assert (Hsum : forall success error_count,
             r = Ok (success, error_count) -> success + error_count = len fts).
  { intros a b ->. apply (batch_set_sum fts dry_run s). now rewrite Hrun. }
  cut (Forall (write_event dry_run) t
       /\ ((argfiles t = [] /\ runs t = [])
           \/ (dry_run = false /\ fts <> []
               /\ exists rw, argfiles t = [(argfile_text fts, rw)]
                    /\ (runs t = [] \/ exists p, rw = Ok p /\ runs t = [write_cmd p])))).
  { tauto. }
  clear Hsum. revert Hrun. unfold batch_set_timestamps.
  destruct fts as [|x fts].
  { intros [= <- <- <-]. split; [constructor | left; auto]. }
  set (l := x :: fts). destruct dry_run.
  { unfold bind.
    destruct (for_each_print l
                (fun entry => MsgDryRunWouldSet (name entry.1)
                                (format_exif_datetime entry.2)) s) as [t0 [-> Ht0]].
    cbn. intros [= <- <- <-]. rewrite app_nil_r. split; [trace_forall|].
    left. split; [now apply prints_no_argfiles | now apply prints_no_runs]. }
  match goal with |- context [try_except _ ?h] => set (handlers := h) end.
  assert (Hh : forall e s0 t0, exists r t,
             match handlers e with
             | Some h => let '(r, s2, t2) := h s0 in (r, s2, t0 ++ t2)
             | None => (Raise e, s0, t0)
             end = (r, s0, t0 ++ t) /\ Forall is_print t).
  { intros e s0 t0. unfold handlers.
    destruct (issubclass e FileNotFoundError);
      [eexists _, _; split; [reflexivity | repeat constructor]|].
    destruct (issubclass e Exception);
      [eexists _, _; split; [reflexivity | repeat constructor]|].
    exists (Raise e), []. split; [now rewrite app_nil_r | constructor]. }
  clearbody handlers.
  unfold try_except, bind, do_write_temp, do_run, do_unlink, call.
  destruct (write_temp (argfile_text l) s) as [[p|e] s1].
  2:{ destruct (Hh e s1 [EvWriteTemp (argfile_text l) (Raise e)]) as (r0 & t0 & -> & Ht0).
      intros [= <- <- <-]. split; [trace_forall|]. right.
      split; [reflexivity|]. split; [discriminate|]. eexists. split.
      - rewrite !argfiles_cons, (prints_no_argfiles t0 Ht0). reflexivity.
      - left. now rewrite !runs_cons, (prints_no_runs t0 Ht0). }
  destruct (subprocess_run ["exiftool"; "-@"; p] s1) as [[res|e] s2].
  2:{ destruct (Hh e s2 [EvWriteTemp (argfile_text l) (Ok p);
                         EvRun ["exiftool"; "-@"; p] (Raise e)]) as (r0 & t0 & Hr0 & Ht0).
      cbn in Hr0 |- *. rewrite Hr0.
      intros [= <- <- <-]. split; [trace_forall; split; eauto|]. right.
      split; [reflexivity|]. split; [discriminate|]. eexists. split.
      - rewrite !argfiles_cons, (prints_no_argfiles t0 Ht0). reflexivity.
      - right. exists p. split; [reflexivity|].
        now rewrite !runs_cons, (prints_no_runs t0 Ht0). }
  destruct (unlink p s2) as [[[]|e] s3].
  2:{ destruct (Hh e s3 [EvWriteTemp (argfile_text l) (Ok p);
                         EvRun ["exiftool"; "-@"; p] (Ok res);
                         EvUnlink p (Raise e)]) as (r0 & t0 & Hr0 & Ht0).
      cbn in Hr0 |- *. rewrite Hr0.
      intros [= <- <- <-]. split; [trace_forall; split; eauto|]. right.
      split; [reflexivity|]. split; [discriminate|]. eexists. split.
      - rewrite !argfiles_cons, (prints_no_argfiles t0 Ht0). reflexivity.
      - right. exists p. split; [reflexivity|].
        now rewrite !runs_cons, (prints_no_runs t0 Ht0). }
  destruct (count_summary (stdout res)) as [u n].
  unfold bind.
  destruct (report_stderr_run (stderr res) s3) as [t0 [-> Ht0]].
  cbn. intros [= <- <- <-]. rewrite app_nil_r.
  split; [trace_forall; split; eauto|]. right.
  split; [reflexivity|]. split; [discriminate|]. eexists. split.
  - rewrite !argfiles_cons, (prints_no_argfiles t0 Ht0). reflexivity.
  - right. exists p. split; [reflexivity|].
    now rewrite !runs_cons, (prints_no_runs t0 Ht0).
Qed.

(** The write is made: unless this is a dry run or the list is empty, the
    argfile of the list is written, and exiftool is run on it if it could
    be written. *)
Lemma batch_set_writes (fts : list (Path * datetime)) (s : os) :
  fts <> [] ->
  exists rw,
    argfiles (trace (batch_set_timestamps fts false s)) = [(argfile_text fts, rw)]
    /\ runs (trace (batch_set_timestamps fts false s))
       = match rw with Ok p => [write_cmd p] | Raise _ => [] end.
Proof.
  intros Hne.
  destruct (batch_set_timestamps fts false s) as [[r s'] t] eqn:Hrun.
  cbn [trace snd]. revert Hrun. unfold batch_set_timestamps.
  destruct fts as [|x fts]; [congruence|]. clear Hne.
  set (l := x :: fts).
  match goal with |- context [try_except _ ?h] => set (handlers := h) end.
  assert (Hh : forall e s0 t0, exists r t,
             match handlers e with
             | Some h => let '(r, s2, t2) := h s0 in (r, s2, t0 ++ t2)
             | None => (Raise e, s0, t0)
             end = (r, s0, t0 ++ t) /\ Forall is_print t).
  { intros e s0 t0. unfold handlers.
    destruct (issubclass e FileNotFoundError);
      [eexists _, _; split; [reflexivity | repeat constructor]|].
    destruct (issubclass e Exception);
      [eexists _, _; split; [reflexivity | repeat constructor]|].
    exists (Raise e), []. split; [now rewrite app_nil_r | constructor]. }
  clearbody handlers.
  unfold try_except, bind, do_write_temp, do_run, do_unlink, call.
  destruct (write_temp (argfile_text l) s) as [[p|e] s1].
  2:{ destruct (Hh e s1 [EvWriteTemp (argfile_text l) (Raise e)]) as (r0 & t0 & -> & Ht0).
      intros [= <- <- <-]. exists (Raise e).
      rewrite !argfiles_cons, !runs_cons, (prints_no_argfiles t0 Ht0),
        (prints_no_runs t0 Ht0). split; reflexivity. }
  destruct (subprocess_run ["exiftool"; "-@"; p] s1) as [[res|e] s2].
  2:{ destruct (Hh e s2 [EvWriteTemp (argfile_text l) (Ok p);
                         EvRun ["exiftool"; "-@"; p] (Raise e)]) as (r0 & t0 & Hr0 & Ht0).
      cbn in Hr0 |- *. rewrite Hr0.
      intros [= <- <- <-]. exists (Ok p).
      rewrite !argfiles_cons, !runs_cons, (prints_no_argfiles t0 Ht0),
        (prints_no_runs t0 Ht0). split; reflexivity. }
  destruct (unlink p s2) as [[[]|e] s3].
  2:{ destruct (Hh e s3 [EvWriteTemp (argfile_text l) (Ok p);
                         EvRun ["exiftool"; "-@"; p] (Ok res);
                         EvUnlink p (Raise e)]) as (r0 & t0 & Hr0 & Ht0).
      cbn in Hr0 |- *. rewrite Hr0.
      intros [= <- <- <-]. exists (Ok p).
      rewrite !argfiles_cons, !runs_cons, (prints_no_argfiles t0 Ht0),
        (prints_no_runs t0 Ht0). split; reflexivity. }
  destruct (count_summary (stdout res)) as [u n].
  unfold bind.
  destruct (report_stderr_run (stderr res) s3) as [t0 [-> Ht0]].
  cbn. intros [= <- <- <-]. rewrite app_nil_r. exists (Ok p).
  rewrite !argfiles_cons, !runs_cons, (prints_no_argfiles t0 Ht0),
    (prints_no_runs t0 Ht0). split; reflexivity.
Qed.

End Write.

Section Album.
Context {sys : OS} {clk : Clock}.
Local Open Scope script_scope.

(** *** The shape of a run of process_album *)


Lemma process_album_shape (album_path output_base : Path) (dry_run : bool) (s : os) :
  exists (media : list Path) (t1 t2 t3 t4 t5 : list event)
         (ftp : list (Path * Path * datetime)) (fft : list (Path * datetime)),
    trace (process_album album_path output_base dry_run s) = t1 ++ t2 ++ t3 ++ t4 ++ t5
    /\ Forall walk_event t1
    /\ Forall detect_event t2
    /\ Forall (prepare_event dry_run) t3
    /\ Forall (copy_event dry_run) t4
    /\ Forall (write_event dry_run) t5
    /\ (listed_media album_path s media
        \/ (media = [] /\ forall m, ~ listed_media album_path s m))
    /\ (media = [] -> t2 ++ t3 ++ t4 ++ t5 = [])
    /\ (media <> [] -> runs t2 = [detect_cmd media])
    /\ Forall (fun entry : Path * Path * datetime =>
                 exists metadata ts,
                   In entry.1.1 media
                   /\ In (EvExists (sidecar album_path entry.1.1) (Ok true)) t3
                   /\ In (EvLoadJson (sidecar album_path entry.1.1) (Ok metadata)) t3
                   /\ chosen_timestamp metadata = Some ts
                   /\ fromtimestamp ts = Ok entry.2) ftp
    /\ (forall src dst rr, In (EvCopy2 src dst rr) t4 -> exists dt, In (src, dst, dt) ftp)
    /\ Forall (fun entry : Path * datetime =>
                 exists src, In (src, entry.1, entry.2) ftp
                             /\ (dry_run = false -> In (EvCopy2 src entry.1 (Ok tt)) t4)) fft
    /\ ((argfiles t5 = [] /\ runs t5 = [])
        \/ (dry_run = false /\ fft <> [] /\ copied t4 = List.map fst fft
            /\ exists rw, argfiles t5 = [(argfile_text fft, rw)]
                 /\ runs t5 = match rw with Ok p => [write_cmd p] | Raise _ => [] end))
    /\ (dry_run = false ->
        (forall src dst e, In (EvCopy2 src dst (Raise e)) t4 -> issubclass e OSError = true) ->
        copied t4 = List.map fst fft
        /\ (forall src dst,
              In (EvCopy2 src dst (Ok tt)) t4 ->
              exists dt, In (src, dst, dt) ftp /\ In (dst, dt) fft)
        /\ (fft <> [] ->
            exists rw, argfiles t5 = [(argfile_text fft, rw)]
                 /\ runs t5 = match rw with Ok p => [write_cmd p] | Raise _ => [] end))
    /\ (forall processed skipped_count error_count renamed_count,
          outcome (process_album album_path output_base dry_run s)
          = Ok (processed, skipped_count, error_count, renamed_count) ->
          listed_media album_path s media
          /\ processed + skipped_count + error_count = len media).
Proof.
  destruct (process_album album_path output_base dry_run s) as [[r s'] t] eqn:Hrun.
  cbn [trace outcome fst snd]. revert Hrun.
  unfold process_album. unfold bind at 1.
  destruct (collect_media_run album_path s) as (rc0 & t1 & -> & Hw1 & Hlisted).
  destruct rc0 as [media|e].
  2:{ intros [= <- <- <-]. exists [], t1, [], [], [], [], [], [].
      do 6 (split; [shape_side|]).
      split. { right. split; [reflexivity|]. intros m Hm. now apply Hlisted in Hm. }
      do 7 (split; [shape_side|]). intros; discriminate. }
  assert (Hmedia : listed_media album_path s media) by now apply Hlisted.
  clear Hlisted. cbv beta iota.
  destruct media as [|m0 media'].
  { intros [= <- <- <-].
    exists [], (t1 ++ [EvPrint MsgNoMediaFiles]), [], [], [], [], [], [].
    do 14 (split; [shape_side|]).
    intros ? ? ? ? [= <- <- <- <-]. split; [exact Hmedia | reflexivity]. }
  cbv iota. remember (m0 :: media') as media eqn:Hcons.
  assert (Hne : media <> []) by (rewrite Hcons; discriminate).
  clear Hcons m0 media'.
  unfold bind at 1. cbn [print]. unfold bind at 1.
  destruct (detect_run media s Hne) as (rd & t2 & -> & Hp2).
  set (s1 := (subprocess_run (detect_cmd media) s).2).
  set (rr := (subprocess_run (detect_cmd media) s).1).
  assert (Hd2 : Forall detect_event
                  (EvPrint (MsgDetecting (List.length media)) :: EvRun (detect_cmd media) rr :: t2)).
  { trace_forall. }
  assert (Hr2 : runs (EvPrint (MsgDetecting (List.length media)) :: EvRun (detect_cmd media) rr :: t2)
                = [detect_cmd media]).
  { rewrite !runs_cons. now rewrite (prints_no_runs t2 Hp2). }
  set (td := EvPrint (MsgDetecting (List.length media)) :: EvRun (detect_cmd media) rr :: t2) in *.
  destruct rd as [file_types|e].
  2:{ intros [= <- <- <-]. exists media, t1, td, [], [], [], [], [].
      do 14 (split; [shape_side|]); intros; discriminate. }
  unfold bind at 1. cbn [print]. unfold bind at 1.
  (* creating the output directory *)
  set (mk := if negb dry_run then do_mkdir (pjoin output_base (name album_path)) else ret tt).
  assert (Hmk : exists r s2 t, mk s1 = (r, s2, t) /\ Forall (prepare_event dry_run) t).
  { unfold mk. destruct dry_run; cbn [negb].
    - eexists _, _, _. split; [reflexivity | constructor].
    - unfold do_mkdir, call. destruct (mkdir_p _ s1) as [r0 s2].
      eexists _, _, _. split; [reflexivity | trace_forall]. }
  destruct Hmk as (rm & s2 & tm & -> & Hm). clearbody mk.
  destruct rm as [[]|e].
  2:{ intros [= <- <- <-].
      exists media, t1, td, (EvPrint MsgReadingMetadata :: tm), [], [], [], [].
      do 14 (split; [shape_side|]); intros; discriminate. }
  unfold bind at 1.
  destruct (prepare_loop_run album_path (pjoin output_base (name album_path)) dry_run
              file_types s2 media
              {| files_to_process := []; skipped := 0; errors := 0; renamed := 0 |})
    as (rp & t3 & -> & Hp3 & Hprep).
  destruct rp as [prep|e].
  2:{ intros [= <- <- <-].
      exists media, t1, td, (EvPrint MsgReadingMetadata :: tm ++ t3), [], [], [], [].
      do 14 (split; [shape_side|]); intros; discriminate. }
  destruct Hprep as (ftp & Hftp & Hsum3 & Hall3). cbn [files_to_process skipped errors] in *.
  cbn [app] in Hftp.
  set (tp := EvPrint MsgReadingMetadata :: tm ++ t3).
  assert (Hall3' : Forall (fun entry : Path * Path * datetime =>
                 exists metadata ts,
                   In entry.1.1 media
                   /\ In (EvExists (sidecar album_path entry.1.1) (Ok true)) tp
                   /\ In (EvLoadJson (sidecar album_path entry.1.1) (Ok metadata)) tp
                   /\ chosen_timestamp metadata = Some ts
                   /\ fromtimestamp ts = Ok entry.2) ftp).
  { eapply Forall_impl; [exact Hall3|]. intros entry (metadata & ts & H1 & H2 & H3 & H4).
    exists metadata, ts. unfold tp. cbn [In]. rewrite !in_app_iff. tauto. }
  assert (Htp : Forall (prepare_event dry_run) tp) by (unfold tp; trace_forall).
  rewrite Hftp. destruct ftp as [|f0 ftp'] eqn:Hftp0.
  { intros [= <- <- <-]. exists media, t1, td, tp, [], [], [], [].
    do 14 (split; [shape_side|]).
    intros ? ? ? ? [= <- <- <- <-]. split; [exact Hmedia|]. unfold len in *. cbn in Hsum3. lia. }
  rewrite <- Hftp0 in *. assert (Hfne : ftp <> []) by (rewrite Hftp0; discriminate).
  clear Hftp0 f0 ftp'.
  unfold bind at 1. cbn [print]. unfold bind at 1.
  destruct (copy_loop_run dry_run ftp ([], errors prep) s2)
    as (rc & s3 & t4 & -> & Hp4 & Hev4 & Hcopy).
  set (tc := EvPrint (MsgCopying (List.length ftp)) :: t4).
  assert (Htc : Forall (copy_event dry_run) tc) by (unfold tc; trace_forall).
  assert (Hev4' : forall src dst rr, In (EvCopy2 src dst rr) tc -> exists dt, In (src, dst, dt) ftp).
  { intros src dst rcopy [[=]|Hin]. eauto. }
  destruct rc as [[fft errs]|e].
  2:{ intros [= <- <- <-]. exists media, t1, td, tp, tc, [], ftp, [].
      do 13 (split; [shape_side|]). split; [|intros; discriminate].
      intros _ Hos. destruct Hcopy as (src & dst & Hin & Hno).
      rewrite (Hos src dst e) in Hno by (now right). discriminate. }
  destruct Hcopy as (new & Hnew & Hsum4 & Hcopied & Hall4 & Hback). cbn [fst snd app] in *.
  subst new.
  assert (Hall4' : Forall (fun entry : Path * datetime =>
                 exists src, In (src, entry.1, entry.2) ftp
                             /\ (dry_run = false -> In (EvCopy2 src entry.1 (Ok tt)) tc)) fft).
  { eapply Forall_impl; [exact Hall4|]. intros entry (src & H1 & H2).
    exists src. split; [exact H1|]. intros Hd. right. auto. }
  assert (Hcopied' : dry_run = false -> copied tc = List.map fst fft).
  { intros Hd. change (copied tc) with (copied t4). auto. }
  assert (Hback' : forall src dst,
             In (EvCopy2 src dst (Ok tt)) tc ->
             exists dt, In (src, dst, dt) ftp /\ In (dst, dt) fft).
  { intros src dst [[=]|Hin]. auto. }
  destruct fft as [|g0 fft'] eqn:Hfft0.
  { intros [= <- <- <-]. exists media, t1, td, tp, tc, [], ftp, [].
    do 13 (split; [shape_side|]). split.
    - intros Hd _. split; [auto|]. split; [exact Hback' | congruence].
    - intros ? ? ? ? [= <- <- <- <-]. split; [exact Hmedia|].
      unfold len in *. cbn in Hsum4. lia. }
  rewrite <- Hfft0 in *. assert (Hgne : fft <> []) by (rewrite Hfft0; discriminate).
  clear Hfft0 g0 fft'.
  unfold bind at 1. cbn [print]. unfold bind at 1.
  destruct (batch_set_shape fft dry_run s3) as (rw & s4 & t5 & Hset & Hp5 & _ & Hsum5).
  pose proof (batch_set_writes fft s3 Hgne) as Hwrites.
  rewrite Hset.
  set (tw := EvPrint (MsgSettingTimestamps (List.length fft)) :: t5).
  assert (Hdry : dry_run = true -> argfiles tw = [] /\ runs tw = []).
  { intros ->. unfold tw. rewrite argfiles_cons, runs_cons. cbn [app].
    assert (Hpr : Forall is_print t5).
    { eapply Forall_impl; [exact Hp5|]. intros []; cbn; try tauto; try discriminate.
      intros [? _]. discriminate. }
    split; [now apply prints_no_argfiles | now apply prints_no_runs]. }
  assert (Hwet : dry_run = false ->
                 exists rw, argfiles tw = [(argfile_text fft, rw)]
                      /\ runs tw = match rw with Ok p => [write_cmd p] | Raise _ => [] end).
  { intros Hd. subst dry_run. rewrite Hset in Hwrites. cbn [trace snd] in Hwrites.
    unfold tw. rewrite argfiles_cons, runs_cons. exact Hwrites. }
  assert (Hshape' : forall tail, Forall is_print tail ->
            ((argfiles (tw ++ tail) = [] /\ runs (tw ++ tail) = [])
             \/ (dry_run = false /\ fft <> [] /\ copied tc = List.map fst fft
                 /\ exists rw, argfiles (tw ++ tail) = [(argfile_text fft, rw)]
                      /\ runs (tw ++ tail)
                         = match rw with Ok p => [write_cmd p] | Raise _ => [] end))
            /\ (dry_run = false ->
                (forall src dst e, In (EvCopy2 src dst (Raise e)) tc ->
                                   issubclass e OSError = true) ->
                copied tc = List.map fst fft
                /\ (forall src dst,
                      In (EvCopy2 src dst (Ok tt)) tc ->
                      exists dt, In (src, dst, dt) ftp /\ In (dst, dt) fft)
                /\ (fft <> [] ->
                    exists rw, argfiles (tw ++ tail) = [(argfile_text fft, rw)]
                         /\ runs (tw ++ tail)
                            = match rw with Ok p => [write_cmd p] | Raise _ => [] end))).
  { intros tail Htail. rewrite argfiles_app, runs_app.
    rewrite (prints_no_argfiles tail Htail), (prints_no_runs tail Htail), !app_nil_r.
    split.
    - destruct dry_run; [left; now apply Hdry | right].
      split; [reflexivity|]. split; [exact Hgne|]. split; auto.
    - intros Hd _. split; [auto|]. split; [exact Hback' | auto]. }
  destruct rw as [[success ts_errors]|e].
  2:{ intros [= <- <- <-]. exists media, t1, td, tp, tc, tw, ftp, fft.
      destruct (Hshape' [] ltac:(constructor)) as [Hs1 Hs2]. rewrite app_nil_r in Hs1, Hs2.
      assert (Hptw : Forall (write_event dry_run) tw) by (unfold tw; trace_forall).
      do 14 (split; [shape_side|]); intros; discriminate. }
  intros [= <- <- <-].
  exists media, t1, td, tp, tc, (tw ++ [EvPrint (MsgDone dry_run)]), ftp, fft.
  destruct (Hshape' [EvPrint (MsgDone dry_run)] ltac:(repeat constructor)) as [Hs1 Hs2].
  assert (Hptw : Forall (write_event dry_run) (tw ++ [EvPrint (MsgDone dry_run)]))
    by (unfold tw; trace_forall).
  do 14 (split; [shape_side|]).
  intros ? ? ? ? [= <- <- <- <-]. split; [exact Hmedia|].
  specialize (Hsum5 _ _ eq_refl). unfold len in *. lia.
Qed.

End Album.

(** ** Claims on one album *)

(** *** Stages of the parts of a trace *)

Lemma within_app (lo hi : stage) (t1 t2 : list event) :
  within lo hi t1 -> within lo hi t2 -> within lo hi (t1 ++ t2).
Proof. unfold within. intros. now apply Forall_app. Qed.

Lemma within_weaken (lo hi lo' hi' : stage) (t : list event) :
  stage_le lo' lo -> stage_le hi hi' -> within lo hi t -> within lo' hi' t.
Proof.
  unfold within, stage_le. intros Hlo Hhi Ht.
  eapply Forall_impl; [exact Ht|]. intros ev Hev st Hst.
  destruct (Hev st Hst). unfold stage_le in *. lia.
Qed.

Lemma within_stages (lo hi : stage) (t : list event) (st : stage) :
  within lo hi t -> st ∈ omap stage_of t -> stage_le lo st /\ stage_le st hi.
Proof.
  intros Ht Hst. apply list_elem_of_omap in Hst as (ev & Hev & Hst).
  unfold within in Ht. rewrite Forall_forall in Ht. exact (Ht ev Hev st Hst).
Qed.

Lemma in_order_single (x : stage) (t : list event) : within x x t -> in_order t.
Proof.
  intros Ht. unfold in_order.
  assert (Hall : Forall (fun st => stage_rank st = stage_rank x) (omap stage_of t)).
  { apply Forall_forall. intros st Hst.
    destruct (within_stages x x t st Ht Hst) as [H1 H2]. unfold stage_le in *. lia. }
  induction Hall as [|st l Hst Hl IH]; constructor; [exact IH|].
  eapply Forall_impl; [exact Hl|]. intros st' Hst'. unfold stage_le. cbv beta in *. lia.
Qed.

Lemma in_order_app (lo mid hi : stage) (t1 t2 : list event) :
  within lo mid t1 -> within mid hi t2 -> in_order t1 -> in_order t2 ->
  in_order (t1 ++ t2).
Proof.
  intros H1 H2 Ho1 Ho2. unfold in_order. rewrite omap_app.
  apply StronglySorted_app_2; [|exact Ho1 | exact Ho2].
  intros st1 st2 Hst1 Hst2.
  destruct (within_stages _ _ _ _ H1 Hst1) as [_ Ha].
  destruct (within_stages _ _ _ _ H2 Hst2) as [Hb _].
  unfold stage_le in *. lia.
Qed.

Lemma walk_within (t : list event) : Forall walk_event t -> within Enumerate Enumerate t.
Proof.
  intros Ht. eapply Forall_impl; [exact Ht|].
  intros [] Hev st; cbn in *; try contradiction; try discriminate;
    intros [= <-]; split; unfold stage_le; lia.
Qed.

Lemma detect_cmd_stage (files : list Path) (r : result completed) :
  stage_of (EvRun (detect_cmd files) r) = Some DetectTypes.
Proof. reflexivity. Qed.

Lemma write_cmd_stage (p : string) (r : result completed) :
  stage_of (EvRun (write_cmd p) r) = Some WriteTimestamps.
Proof. reflexivity. Qed.

Lemma detect_within (t : list event) : Forall detect_event t -> within DetectTypes DetectTypes t.
Proof.
  intros Ht. eapply Forall_impl; [exact Ht|].
  intros ev Hev st.
  destruct ev;
    try (cbn in *;
         first [contradiction | discriminate
               | (intros [= <-]; split; unfold stage_le; cbn; lia)]; fail).
  cbn [detect_event] in Hev. destruct Hev as [files ->]. rewrite detect_cmd_stage.
  intros [= <-]; split; unfold stage_le; lia.
Qed.

Lemma prepare_within d (t : list event) :
  Forall (prepare_event d) t -> within ReadAndCopy ReadAndCopy t.
Proof.
  intros Ht. eapply Forall_impl; [exact Ht|].
  intros [] Hev st; cbn in *; try contradiction; try discriminate;
    intros [= <-]; split; unfold stage_le; lia.
Qed.

Lemma copy_within d (t : list event) :
  Forall (copy_event d) t -> within ReadAndCopy ReadAndCopy t.
Proof.
  intros Ht. eapply Forall_impl; [exact Ht|].
  intros [] Hev st; cbn in *; try contradiction; try discriminate;
    intros [= <-]; split; unfold stage_le; lia.
Qed.

Lemma write_within d (t : list event) :
  Forall (write_event d) t -> within WriteTimestamps WriteTimestamps t.
Proof.
  intros Ht. eapply Forall_impl; [exact Ht|].
  intros ev Hev st.
  destruct ev;
    try (cbn in *;
         first [contradiction | discriminate
               | (intros [= <-]; split; unfold stage_le; cbn; lia)]; fail).
  cbn [write_event] in Hev. destruct Hev as [_ [p ->]]. rewrite write_cmd_stage.
  intros [= <-]; split; unfold stage_le; lia.
Qed.

Lemma album_parts_in_order d (t1 t2 t3 t4 t5 : list event) :
  Forall walk_event t1 -> Forall detect_event t2 -> Forall (prepare_event d) t3 ->
  Forall (copy_event d) t4 -> Forall (write_event d) t5 ->
  in_order (t1 ++ t2 ++ t3 ++ t4 ++ t5)
  /\ within Enumerate WriteTimestamps (t1 ++ t2 ++ t3 ++ t4 ++ t5).
Proof.
  intros H1 H2 H3 H4 H5.
  apply walk_within in H1. apply detect_within in H2. apply prepare_within in H3.
  apply copy_within in H4. apply write_within in H5.
  assert (L : forall a b, (stage_rank a <= stage_rank b)%nat -> stage_le a b) by (intros; assumption).
  assert (W45 : within ReadAndCopy WriteTimestamps (t4 ++ t5)).
  { apply within_app; eapply within_weaken; try eassumption; apply L; cbn; lia. }
  assert (O45 : in_order (t4 ++ t5)).
  { apply (in_order_app ReadAndCopy ReadAndCopy WriteTimestamps);
      eauto using in_order_single.
    eapply within_weaken; try eassumption; apply L; cbn; lia. }
  assert (W345 : within ReadAndCopy WriteTimestamps (t3 ++ t4 ++ t5)).
  { apply within_app; [|assumption].
    eapply within_weaken; try eassumption; apply L; cbn; lia. }
  assert (O345 : in_order (t3 ++ t4 ++ t5)).
  { apply (in_order_app ReadAndCopy ReadAndCopy WriteTimestamps);
      eauto using in_order_single. }
  assert (W2345 : within DetectTypes WriteTimestamps (t2 ++ t3 ++ t4 ++ t5)).
  { apply within_app; eapply within_weaken; try eassumption; apply L; cbn; lia. }
  assert (O2345 : in_order (t2 ++ t3 ++ t4 ++ t5)).
  { apply (in_order_app DetectTypes ReadAndCopy WriteTimestamps);
      eauto using in_order_single.
    eapply within_weaken; try eassumption; apply L; cbn; lia. }
  split.
  - apply (in_order_app Enumerate DetectTypes WriteTimestamps);
      eauto using in_order_single.
    eapply within_weaken; try eassumption; apply L; cbn; lia.
  - apply within_app; eapply within_weaken; try eassumption; apply L; cbn; lia.
Qed.

Section AlbumClaims.
Context {sys : OS} {clk : Clock}.
Local Open Scope script_scope.

Lemma process_album_in_order (album_path output_base : Path) (dry_run : bool) (s : os) :
  in_order (trace (process_album album_path output_base dry_run s)).
Proof.
  destruct (process_album_shape album_path output_base dry_run s)
    as (media & t1 & t2 & t3 & t4 & t5 & ftp & fft & -> & H1 & H2 & H3 & H4 & H5 & _).
  now apply (album_parts_in_order dry_run).
Qed.


(** C8.  Whenever [process_album] returns its four counts, in a dry run
    or not, processed + skipped + errors is the number of media files
    considered: the entries of the album that are not named [metadata] or
    [.DS_Store] and are not directories, the system having answered of
    each of them whether it is one. *)
Theorem process_album_counts (album_path output_base : Path) (dry_run : bool) (s : os)
    (processed skipped_count error_count renamed_count : Z) :
  outcome (process_album album_path output_base dry_run s)
  = Ok (processed, skipped_count, error_count, renamed_count) ->
  exists entries,
    iterdir album_path s = Ok entries
    /\ album_answers album_path s entries
    /\ processed + skipped_count + error_count
       = len (media_names album_path s entries).
Proof.
  intros Hrun.
  destruct (process_album_shape album_path output_base dry_run s)
    as (media & t1 & t2 & t3 & t4 & t5 & ftp & fft & _ & _ & _ & _ & _ & _ & _
        & _ & _ & _ & _ & _ & _ & _ & Hsum).
  destruct (Hsum _ _ _ _ Hrun) as [(entries & Hit & Hans & ->) Hcount].
  exists entries. split; [exact Hit|]. split; [exact Hans|].
  rewrite Hcount. unfold len. now rewrite List.length_map.
Qed.

End AlbumClaims.





Lemma in_argfiles (t : list event) (text : string) (rw : result string) :
  In (EvWriteTemp text rw) t -> In (text, rw) (argfiles t).
Proof.
  intros Hin. apply list_elem_of_In, list_elem_of_omap.
  exists (EvWriteTemp text rw). split; [now apply list_elem_of_In | reflexivity].
Qed.


Section AlbumCalls.
Context {sys : OS} {clk : Clock}.
Local Open Scope script_scope.



End AlbumCalls.

(** ** Finding the albums *)

(** *** The order of paths *)

Lemma string_ltb_lt (a b : string) : String.ltb a b = true <-> String_as_OT.lt a b.
Proof.
  unfold String.ltb. rewrite <- String_as_OT.cmp_lt. unfold String_as_OT.cmp.
  destruct (String.compare a b); split; congruence.
Qed.

Lemma string_ltb_trans (a b c : string) :
  String.ltb a b = true -> String.ltb b c = true -> String.ltb a c = true.
Proof. rewrite !string_ltb_lt. apply String_as_OT.lt_trans. Qed.

Lemma string_ltb_irrefl (a : string) : String.ltb a a = false.
Proof.
  destruct (String.ltb a a) eqn:Hlt; [|reflexivity].
  apply string_ltb_lt, String_as_OT.lt_not_eq in Hlt. now contradict Hlt.
Qed.

Lemma path_ltb_trans (p : Path) : forall q r,
  path_ltb p q = true -> path_ltb q r = true -> path_ltb p r = true.
Proof.
  induction p as [|a p IH]; intros [|b q] [|c r]; cbn; try congruence.
  destruct (String.eqb_spec a b) as [->|Hab]; destruct (String.eqb_spec b c) as [->|Hbc].
  - apply IH.
  - intros _ Hlt. exact Hlt.
  - destruct (String.eqb_spec a c); [congruence|]. intros Hlt _. exact Hlt.
  - intros H1 H2. pose proof (string_ltb_trans _ _ _ H1 H2) as H3.
    destruct (String.eqb_spec a c) as [->|_]; [|exact H3].
    now rewrite string_ltb_irrefl in H3.
Qed.

Lemma path_ltb_irrefl (p : Path) : path_ltb p p = false.
Proof. induction p as [|a p IH]; cbn; [reflexivity|]. now rewrite String.eqb_refl. Qed.

Lemma path_ltb_asym (p q : Path) : path_ltb p q = true -> path_ltb q p = false.
Proof.
  intros H1. destruct (path_ltb q p) eqn:H2; [|reflexivity].
  pose proof (path_ltb_trans _ _ _ H1 H2) as H3. now rewrite path_ltb_irrefl in H3.
Qed.

(** *** sorted *)

Lemma sorted_insert_perm (x : Path) (l : list Path) :
  Permutation (sorted_insert x l) (x :: l).
Proof.
  induction l as [|y l IH]; cbn; [reflexivity|].
  destruct (path_ltb x y); [reflexivity|].
  rewrite IH. apply perm_swap.
Qed.

Lemma sorted_insert_sorted (x : Path) (l : list Path) :
  StronglySorted path_le l -> StronglySorted path_le (sorted_insert x l).
Proof.
  induction 1 as [|y l Hl IH Hy]; cbn; [repeat constructor|].
  destruct (path_ltb x y) eqn:Hxy.
  - constructor; [now constructor|]. constructor.
    + unfold path_le. now apply path_ltb_asym.
    + eapply Forall_impl; [exact Hy|]. intros z Hz. unfold path_le in *.
      destruct (path_ltb z x) eqn:Hzx; [|reflexivity].
      now rewrite (path_ltb_trans _ _ _ Hzx Hxy) in Hz.
  - constructor; [exact IH|].
    rewrite (sorted_insert_perm x l). constructor; [exact Hxy | exact Hy].
Qed.

Lemma sorted_fold (l : list Path) : forall acc,
  StronglySorted path_le acc ->
  StronglySorted path_le (List.fold_left (fun acc x => sorted_insert x acc) l acc)
  /\ Permutation (List.fold_left (fun acc x => sorted_insert x acc) l acc) (acc ++ l).
Proof.
  induction l as [|x l IH]; intros acc Hacc; cbn.
  - rewrite app_nil_r. auto.
  - destruct (IH (sorted_insert x acc) (sorted_insert_sorted x acc Hacc)) as [Hs Hp].
    split; [exact Hs|]. rewrite Hp, (sorted_insert_perm x acc).
    rewrite (Permutation_middle acc l x). reflexivity.
Qed.

Lemma sorted_spec (l : list Path) :
  StronglySorted path_le (sorted l) /\ Permutation (sorted l) l.
Proof. apply (sorted_fold l []). constructor. Qed.

Section FindAlbums.
Context {sys : OS} {clk : Clock}.
Local Open Scope script_scope.

(** *** find_albums *)

Lemma any_media_file_run (item : Path) (s : os) (entries : list string) :
  exists r t,
    any_media_file item entries s = (r, s, t)
    /\ Forall walk_event t
    /\ (files_answer item s entries ->
        r = Ok (existsb (fun nm => yes (is_file (pjoin item nm) s)
                                   && negb (String.eqb nm ".DS_Store")) entries)).
Proof.
  induction entries as [|nm entries (r & t & IH & Ht & Hr)];
    cbn [any_media_file existsb files_answer].
  - exists (Ok false), []. split; [reflexivity|]. split; [constructor | reflexivity].
  - unfold bind, do_is_file, query.
    destruct (is_file (pjoin item nm) s) as [b|e] eqn:Hf; cbn [yes].
    2:{ eexists _, _. split; [reflexivity|]. split; [trace_forall|].
        intros (b & Hb & _). discriminate. }
    assert (Hyes : match b with true => true | false => false end = b) by now destruct b.
    rewrite Hyes.
    destruct (b && negb (String.eqb nm ".DS_Store")) eqn:Hmedia; cbn [orb].
    + eexists _, _. split; [reflexivity|]. split; [trace_forall | reflexivity].
    + rewrite IH. eexists _, _. split; [reflexivity|]. split; [trace_forall|].
      intros (b' & [= <-] & Hrest). auto.
Qed.

Lemma files_answer_all (item : Path) (s : os) (entries : list string) :
  Forall (fun f => exists b, is_file (pjoin item f) s = Ok b) entries ->
  files_answer item s entries.
Proof.
  induction 1 as [|f entries [b Hb] _ IH]; cbn [files_answer]; [exact I|].
  exists b. auto.
Qed.

Lemma find_item_run (input_dir : Path) (albums : list Path) (nm : string) (s : os) :
  exists r t,
    find_item input_dir albums nm s = (r, s, t)
    /\ Forall walk_event t
    /\ (entry_answers input_dir s nm ->
        r = Ok (albums ++ List.filter (is_album s) [pjoin input_dir nm])).
Proof.
  unfold find_item, is_album, has_media_file, entry_answers. cbn [List.filter].
  rewrite name_pjoin.
  unfold bind at 1. unfold do_is_dir at 1. unfold query.
  destruct (is_dir (pjoin input_dir nm) s) as [d|e]; cbn [yes].
  2:{ eexists _, _. split; [reflexivity|]. split; [trace_forall|].
      intros (d & Hd & _). discriminate. }
  assert (Hyes : match d with true => true | false => false end = d) by now destruct d.
  rewrite Hyes. clear Hyes.
  destruct d; cbn [andb].
  2:{ eexists _, _. split; [reflexivity|]. split; [trace_forall|].
      intros _. now rewrite app_nil_r. }
  destruct (PyStr.startswith "." nm); cbn [negb andb].
  { eexists _, _. split; [reflexivity|]. split; [trace_forall|].
    intros _. now rewrite app_nil_r. }
  unfold bind at 1. unfold do_iterdir, query.
  destruct (iterdir (pjoin input_dir nm) s) as [entries|e].
  2:{ eexists _, _. split; [reflexivity|]. split; [trace_forall|].
      intros (d & [= <-] & Hok). destruct (Hok eq_refl eq_refl) as (l & m & Hl & _).
      discriminate. }
  unfold bind at 1.
  destruct (any_media_file_run (pjoin input_dir nm) s entries) as (rf & t & -> & Ht & Hrf).
  destruct rf as [has_files|e].
  2:{ eexists _, _. split; [reflexivity|]. split; [trace_forall|].
      intros (d & [= <-] & Hok). destruct (Hok eq_refl eq_refl) as (l & m & [= <-] & Hall & _).
      discriminate (Hrf Hall). }
  unfold bind, do_is_dir, query.
  destruct (is_dir (pjoin (pjoin input_dir nm) "metadata") s) as [m|e]; cbn [yes].
  2:{ eexists _, _. split; [reflexivity|]. split; [trace_forall|].
      intros (d & [= <-] & Hok). destruct (Hok eq_refl eq_refl) as (l & m & _ & _ & Hm).
      discriminate. }
  assert (Hyes : match m with true => true | false => false end = m) by now destruct m.
  rewrite Hyes. clear Hyes.
  destruct (has_files || m) eqn:Hor;
    cbn; (eexists _, _; split; [reflexivity|]); (split; [trace_forall|]);
    intros (d & [= <-] & Hok); destruct (Hok eq_refl eq_refl) as (l & m' & [= <-] & Hall & _);
    specialize (Hrf Hall); injection Hrf as <-; rewrite Hor; rewrite ?app_nil_r; reflexivity.
Qed.

Lemma find_loop_run (input_dir : Path) (s : os) (entries : list string) :
  forall albums, exists r t,
    for_each entries albums (find_item input_dir) s = (r, s, t)
    /\ Forall walk_event t
    /\ (Forall (entry_answers input_dir s) entries ->
        r = Ok (albums ++ List.filter (is_album s) (List.map (pjoin input_dir) entries))).
Proof.
  induction entries as [|nm entries IH]; intros albums.
  - exists (Ok albums), []. split; [reflexivity|]. split; [constructor|].
    intros _. cbn. now rewrite app_nil_r.
  - cbn [for_each]. unfold bind.
    destruct (find_item_run input_dir albums nm s) as (r1 & t1 & -> & Ht1 & Hr1).
    destruct r1 as [albums1|e].
    2:{ eexists _, _. split; [reflexivity|]. split; [assumption|].
        intros Hok. apply List.Forall_cons_iff in Hok as [Hok _]. discriminate (Hr1 Hok). }
    destruct (IH albums1) as (r2 & t2 & -> & Ht2 & Hr2).
    eexists _, _. split; [reflexivity|]. split; [now apply Forall_app|].
    intros Hok. apply List.Forall_cons_iff in Hok as [Hok1 Hok2].
    rewrite (Hr2 Hok2).
    specialize (Hr1 Hok1). injection Hr1 as ->. rewrite <- app_assoc.
    change (List.map (pjoin input_dir) (nm :: entries))
      with ([pjoin input_dir nm] ++ List.map (pjoin input_dir) entries).
    now rewrite List.filter_app.
Qed.

Lemma find_albums_run (input_dir : Path) (s : os) :
  exists r t, find_albums input_dir s = (r, s, t) /\ Forall walk_event t.
Proof.
  unfold find_albums, bind, do_iterdir, query.
  destruct (iterdir input_dir s) as [entries|e].
  2:{ eexists _, _. split; [reflexivity | trace_forall]. }
  destruct (find_loop_run input_dir s entries []) as (r & t & -> & Ht & _).
  destruct r; cbn; eexists _, _; (split; [reflexivity | trace_forall]).
Qed.

(** C7.  When the system answers the calls of the enumeration (the input
    directory and its subdirectories whose name does not start with a dot
    can be listed, and the [is_dir] and [is_file] queries on their entries
    do not raise), [find_albums] returns, sorted, exactly the entries of
    the input directory that are directories, whose name does not start
    with a dot, and that hold a regular file other than [.DS_Store] or
    have a [metadata] subdirectory; it changes nothing. *)
Theorem find_albums_spec (input_dir : Path) (s : os) (entries : list string) :
  iterdir input_dir s = Ok entries ->
  Forall (entry_answers input_dir s) entries ->
  exists albums,
    outcome (find_albums input_dir s) = Ok albums
    /\ final (find_albums input_dir s) = s
    /\ StronglySorted path_le albums
    /\ Permutation albums
         (List.filter (is_album s) (List.map (pjoin input_dir) entries)).
Proof.
  intros Hit Hsub. unfold find_albums, bind, do_iterdir, query. rewrite Hit.
  destruct (find_loop_run input_dir s entries []) as (r & t & -> & _ & Hr).
  rewrite (Hr Hsub). cbn.
  eexists. split; [reflexivity|]. split; [reflexivity|]. apply sorted_spec.
Qed.

End FindAlbums.

(** ** The whole program *)

Lemma in_order_prints (t1 t t2 : list event) :
  Forall is_print t1 -> Forall is_print t2 -> in_order t -> in_order (t1 ++ t ++ t2).
Proof.
  intros H1 H2 Ht. unfold in_order in *. rewrite !omap_app.
  rewrite (omap_none stage_of is_print t1), (omap_none stage_of is_print t2);
    try assumption; try (now intros []).
  now rewrite app_nil_r.
Qed.

Lemma setup_within d (t : list event) :
  Forall (setup_event d) t -> within Enumerate Enumerate t.
Proof.
  intros Ht. eapply Forall_impl; [exact Ht|].
  intros [] Hev st; cbn in *; try contradiction; try discriminate;
    intros [= <-]; split; unfold stage_le; lia.
Qed.

Section Main.
Context {sys : OS} {clk : Clock}.
Local Open Scope script_scope.

(** *** main *)

Lemma main_album_trace (output_path : Path) (dry_run : bool) (totals : Z * Z * Z * Z)
    (album : Path) (s : os) :
  exists t2,
    trace (main_album output_path dry_run totals album s)
    = [EvPrint (MsgAlbum (name album))]
      ++ trace (process_album album output_path dry_run s) ++ t2
    /\ Forall is_print t2.
Proof.
  unfold main_album. destruct totals as [[[tp tsk] te] tr].
  unfold bind at 1. cbn [print]. unfold bind at 1.
  destruct (process_album album output_path dry_run s) as [[[[[[p sk] e] r]|e] s1] t].
  - cbn. eexists. split; [reflexivity | trace_forall].
  - cbn. exists []. split; [now rewrite app_nil_r | constructor].
Qed.

Lemma main_album_in_order (output_path : Path) (dry_run : bool) (totals : Z * Z * Z * Z)
    (album : Path) (s : os) :
  in_order (trace (main_album output_path dry_run totals album s)).
Proof.
  destruct (main_album_trace output_path dry_run totals album s) as (t2 & -> & Ht2).
  apply in_order_prints; [trace_forall | exact Ht2 | apply process_album_in_order].
Qed.


Lemma main_loop_run (output_path : Path) (dry_run : bool) (albums : list Path) :
  forall totals s, exists segments,
    trace (for_each albums totals (main_album output_path dry_run) s) = concat segments
    /\ album_segments output_path dry_run albums segments.
Proof.
  unfold album_segments.
  induction albums as [|album albums IH]; intros totals s.
  - exists []. split; [reflexivity | constructor].
  - cbn [for_each]. unfold bind.
    destruct (main_album output_path dry_run totals album s) as [[[totals'|e] s1] t1] eqn:Hrun.
    + destruct (IH totals' s1) as (segments & Htr & Hseg).
      destruct (for_each albums totals' (main_album output_path dry_run) s1) as [[r2 s2] t2].
      cbn [trace snd] in *. subst t2.
      exists (t1 :: segments). split; [reflexivity|]. cbn [List.length List.firstn].
      constructor; [|exact Hseg]. exists totals, s. now rewrite Hrun.
    + exists [t1]. split; [cbn; now rewrite app_nil_r|]. cbn [List.length List.firstn].
      constructor; [|constructor]. exists totals, s. now rewrite Hrun.
Qed.

Lemma main_shape (input_path output_path : Path) (dry_run : bool) (s : os) :
  exists (t_setup : list event) (segments : list (list event)) (t_end : list event)
         (albums : list Path),
    trace (main input_path output_path dry_run s) = t_setup ++ concat segments ++ t_end
    /\ Forall (setup_event dry_run) t_setup
    /\ Forall is_print t_end
    /\ album_segments output_path dry_run albums segments
    /\ (segments <> [] ->
        outcome (find_albums input_path s) = Ok albums
        /\ exists before after,
             t_setup = before ++ trace (find_albums input_path s) ++ after).
Proof.
  unfold main. unfold bind at 1. unfold do_exists at 1. unfold query.
  destruct (path_exists input_path s) as [[|]|e]; cbn [negb].
  2,3:(cbn; eexists _, [], [], []; split; [symmetry; apply app_nil_r|]; split; [trace_forall|];
       split; [constructor|]; split; [constructor | congruence]).
  unfold bind at 1. unfold do_is_dir at 1. unfold query.
  destruct (is_dir input_path s) as [[|]|e]; cbn [negb].
  2,3:(cbn; eexists _, [], [], []; split; [symmetry; apply app_nil_r|]; split; [trace_forall|];
       split; [constructor|]; split; [constructor | congruence]).
  unfold bind at 1.
  destruct (find_albums_run input_path s) as (rf & tf & Hfind & Hwalk). rewrite Hfind.
  assert (Hsetup : Forall (setup_event dry_run) tf).
  { eapply Forall_impl; [exact Hwalk|]. now intros []. }
  destruct rf as [albums|e].
  2:{ cbn. eexists _, [], [], []. split; [symmetry; apply app_nil_r|]. split; [trace_forall|].
      split; [constructor|]. split; [constructor | congruence]. }
  destruct albums as [|a0 albums'].
  { cbn. eexists _, [], [], []. split; [symmetry; apply app_nil_r|]. split; [trace_forall|].
    split; [constructor|]. split; [constructor | congruence]. }
  cbv iota. remember (a0 :: albums') as albums eqn:Hcons in *. clear Hcons a0 albums'.
  set (mk := if negb dry_run then do_mkdir output_path else ret tt).
  assert (Hmk : exists r s2 t, mk s = (r, s2, t) /\ Forall (setup_event dry_run) t).
  { unfold mk. destruct dry_run; cbn [negb].
    - eexists _, _, _. split; [reflexivity | constructor].
    - unfold do_mkdir, call. destruct (mkdir_p _ s) as [r0 s2].
      eexists _, _, _. split; [reflexivity | trace_forall]. }
  destruct Hmk as (rm & s2 & tm & Hmk & Hm). clearbody mk.
  set (banner := if dry_run then print MsgDryRunMode else ret tt).
  assert (Hbanner : exists t, banner s = (Ok tt, s, t) /\ Forall (setup_event dry_run) t).
  { unfold banner. destruct dry_run; eexists; (split; [reflexivity | trace_forall]). }
  destruct Hbanner as (tb & Hbanner & Hb). clearbody banner.
  do 4 (unfold bind at 1; cbn [print]).
  unfold bind at 1. rewrite Hbanner.
  do 2 (unfold bind at 1; cbn [print]).
  rewrite Hmk.
  set (t_head := [EvExists input_path (Ok true); EvIsDir input_path (Ok true)] ++ tf
                 ++ [EvPrint (MsgFound (List.length albums)); EvPrint (MsgInput input_path);
                     EvPrint (MsgOutput output_path)] ++ tb ++ [EvPrint MsgBlank] ++ tm).
  assert (Hhead : Forall (setup_event dry_run) t_head) by (unfold t_head; trace_forall).
  assert (Hfound : outcome (find_albums input_path s) = Ok albums
          /\ exists before after, t_head = before ++ trace (find_albums input_path s) ++ after).
  { rewrite Hfind. split; [reflexivity|]. cbn [trace snd].
    eexists _, _. unfold t_head. reflexivity. }
  destruct rm as [[]|e].
  2:{ exists t_head, [], [], albums. split; [unfold t_head; same_trace|].
      split; [assumption|]. split; [constructor|]. split; [constructor | congruence]. }
  unfold bind at 1.
  destruct (main_loop_run output_path dry_run albums (0, 0, 0, 0) s2)
    as (segments & Hloop & Hseg).
  destruct (for_each albums (0, 0, 0, 0) (main_album output_path dry_run) s2)
    as [[rl s3] tl]. cbn [trace snd] in Hloop. subst tl.
  destruct rl as [[[[tp tsk] te] tr]|e].
  2:{ exists t_head, segments, [], albums. split; [unfold t_head; same_trace|].
      split; [assumption|]. split; [constructor|]. split; [assumption|]. intros _. rewrite <- Hfind. exact Hfound. }
  set (closing := if dry_run then print MsgDryRunNothingModified else ret tt).
  assert (Hclosing : exists t, closing s3 = (Ok tt, s3, t) /\ Forall is_print t).
  { unfold closing. destruct dry_run; eexists; (split; [reflexivity | trace_forall]). }
  destruct Hclosing as (tcl & Hclosing & Hcl). clearbody closing.
  do 7 (unfold bind at 1; cbn [print]).
  unfold bind at 1. rewrite Hclosing.
  set (t_end := [EvPrint MsgRule; EvPrint MsgSummaryHeading; EvPrint MsgRule;
                 EvPrint (MsgAlbumsProcessed (List.length albums));
                 EvPrint (MsgFilesProcessed tp); EvPrint (MsgFilesRenamed tr);
                 EvPrint (MsgFilesSkipped tsk); EvPrint (MsgErrors te)] ++ tcl).
  assert (Hend : Forall is_print t_end) by (unfold t_end; trace_forall).
  exists t_head, segments, t_end, albums.
  split; [destruct (0 <? te); cbn [ret raise]; unfold t_head, t_end; same_trace|].
  split; [assumption|]. split; [assumption|]. split; [assumption|].
  intros _. rewrite <- Hfind. exact Hfound.
Qed.

End Main.

Section Program.
Context {sys : OS} {clk : Clock}.
Local Open Scope script_scope.

Lemma segments_in_order (output_path : Path) (dry_run : bool) (albums : list Path)
    (segments : list (list event)) :
  album_segments output_path dry_run albums segments -> Forall in_order segments.
Proof.
  unfold album_segments. generalize (List.firstn (List.length segments) albums).
  intros l Hseg. induction Hseg as [|album seg l segs (totals & s0 & ->) _ IH];
    constructor; [apply main_album_in_order | exact IH].
Qed.


(** C5.  Every run of [main] is a setup, in which the only calls that
    belong to a stage are those of the enumeration and which holds the
    whole walk of [find_albums] whenever an album is processed, followed by
    one segment per album, in the order [find_albums] returned them, and
    by the printing of the summary.  Within the segment of an album no
    call of a stage comes after a call of a later stage: enumeration, type
    detection, reading metadata and copying, writing timestamps. *)
Theorem stages_in_fixed_order (input_path output_path : Path) (dry_run : bool) (s : os) :
  exists (t_setup : list event) (segments : list (list event)) (t_end : list event)
         (albums : list Path),
    trace (main input_path output_path dry_run s) = t_setup ++ concat segments ++ t_end
    /\ within Enumerate Enumerate t_setup
    /\ (segments <> [] ->
        outcome (find_albums input_path s) = Ok albums
        /\ exists before after,
             t_setup = before ++ trace (find_albums input_path s) ++ after)
    /\ album_segments output_path dry_run albums segments
    /\ Forall in_order segments
    /\ Forall is_print t_end.
Proof.
  destruct (main_shape input_path output_path dry_run s)
    as (t_setup & segments & t_end & albums & Htr & Hsetup & Hend & Hseg & Hfound).
  exists t_setup, segments, t_end, albums.
  split; [exact Htr|]. split; [now apply (setup_within dry_run)|].
  split; [exact Hfound|]. split; [exact Hseg|].
  split; [now apply (segments_in_order output_path dry_run albums) | exact Hend].
Qed.



End Program.

(** ** Runs on the demo machine *)






Example two_exiftool_calls :
  runs (trace (process_album (sys := demo_os (one_updated +:+ one_updated))
                 (clk := utc_clock) trip ["out"] false (demo_sim good_sidecars)))
  = [detect_cmd [pjoin trip "IMG_1.jpeg"; pjoin trip "IMG_2.jpg"];
     write_cmd "/tmp/tmp_a.txt"].
Proof. vm_compute. reflexivity. Qed.


(** C6.  The claim: a metadata JSON that cannot be read is counted as an
    error and the script goes on.  The script: when the first sidecar of
    [Trip] is not valid UTF-8, [json.load] raises [UnicodeDecodeError],
    which the [except (json.JSONDecodeError, IOError)] clause does not
    catch; [process_album] and [main] end with that exception, nothing is
    copied, no error is printed or counted, and neither the second file of
    [Trip] nor the album [Zoo] is processed. *)
Theorem undecodable_sidecar_aborts :
  outcome (process_album (sys := demo_os one_updated) (clk := utc_clock)
             trip ["out"] false (demo_sim undecodable_sidecars))
  = Raise UnicodeDecodeError
  /\ outcome (main (sys := demo_os one_updated) (clk := utc_clock)
                ["export"] ["out"] false (demo_sim undecodable_sidecars))
     = Raise UnicodeDecodeError
  /\ printed (trace (main (sys := demo_os one_updated) (clk := utc_clock)
                       ["export"] ["out"] false (demo_sim undecodable_sidecars)))
     = [MsgFound 2; MsgInput ["export"]; MsgOutput ["out"]; MsgBlank;
        MsgAlbum "Trip"; MsgDetecting 2; MsgReadingMetadata]
  /\ copied (trace (main (sys := demo_os one_updated) (clk := utc_clock)
                      ["export"] ["out"] false (demo_sim undecodable_sidecars)))
     = [].
Proof. repeat split; vm_compute; reflexivity. Qed.

Example malformed_sidecar_is_counted :
  outcome (process_album (sys := demo_os one_updated) (clk := utc_clock)
             trip ["out"] false (demo_sim malformed_sidecars))
  = Ok (1, 0, 1, 0)
  /\ printed (trace (main (sys := demo_os one_updated) (clk := utc_clock)
                       ["export"] ["out"] false (demo_sim malformed_sidecars)))
     = [MsgFound 2; MsgInput ["export"]; MsgOutput ["out"]; MsgBlank;
        MsgAlbum "Trip"; MsgDetecting 2; MsgReadingMetadata;
        MsgMetadataError "IMG_1.jpeg" JSONDecodeError;
        MsgCopying 1; MsgSettingTimestamps 1; MsgDone false; MsgBlank;
        MsgAlbum "Zoo"; MsgDetecting 1; MsgReadingMetadata;
        MsgCopying 1; MsgSettingTimestamps 1; MsgDone false; MsgBlank;
        MsgRule; MsgSummaryHeading; MsgRule; MsgAlbumsProcessed 2;
        MsgFilesProcessed 2; MsgFilesRenamed 0; MsgFilesSkipped 0; MsgErrors 1].
Proof. split; vm_compute; reflexivity. Qed.

(** [find_albums_spec] on the demo export *)
Lemma find_albums_spec_witness :
  iterdir (OS := demo_os one_updated) ["export"] (demo_sim good_sidecars)
  = Ok ["Zoo"; ".cache"; "Empty"; "notes.txt"; "Trip"]
  /\ Forall (entry_answers (sys := demo_os one_updated) ["export"] (demo_sim good_sidecars))
       ["Zoo"; ".cache"; "Empty"; "notes.txt"; "Trip"]
  /\ exists albums,
       outcome (find_albums (sys := demo_os one_updated) ["export"] (demo_sim good_sidecars))
       = Ok albums
       /\ final (find_albums (sys := demo_os one_updated) ["export"] (demo_sim good_sidecars))
          = demo_sim good_sidecars
       /\ StronglySorted path_le albums
       /\ Permutation albums
            (List.filter (is_album (sys := demo_os one_updated) (demo_sim good_sidecars))
               (List.map (pjoin ["export"]) ["Zoo"; ".cache"; "Empty"; "notes.txt"; "Trip"])).
Proof.
  assert (Hans : Forall (entry_answers (sys := demo_os one_updated) ["export"]
                           (demo_sim good_sidecars))
                   ["Zoo"; ".cache"; "Empty"; "notes.txt"; "Trip"]).
  { repeat (apply List.Forall_cons;
            [eexists; split; [vm_compute; reflexivity|];
             intros Hd Hdot;
             first [ discriminate Hd
                   | discriminate Hdot
                   | eexists _, _; split; [vm_compute; reflexivity|];
                     split; [|vm_compute; reflexivity];
                     apply files_answer_all;
                     repeat (apply List.Forall_cons; [eexists; vm_compute; reflexivity|]);
                     apply List.Forall_nil ]|]).
    apply List.Forall_nil. }
  split; [reflexivity|]. split; [exact Hans|].
  exact (find_albums_spec (sys := demo_os one_updated) ["export"] (demo_sim good_sidecars)
           ["Zoo"; ".cache"; "Empty"; "notes.txt"; "Trip"] eq_refl Hans).
Defined.

(** [process_album_counts] on the album [Trip] *)
Lemma process_album_counts_witness :
  outcome (process_album (sys := demo_os (one_updated +:+ one_updated)) (clk := utc_clock)
             trip ["out"] false (demo_sim good_sidecars))
  = Ok (2, 0, 0, 1)
  /\ exists entries,
       iterdir (OS := demo_os (one_updated +:+ one_updated)) trip (demo_sim good_sidecars)
       = Ok entries
       /\ album_answers (sys := demo_os (one_updated +:+ one_updated)) trip
            (demo_sim good_sidecars) entries
       /\ 2 + 0 + 0
          = len (media_names (sys := demo_os (one_updated +:+ one_updated)) trip
                   (demo_sim good_sidecars) entries).
Proof.
  assert (Hrun : outcome (process_album (sys := demo_os (one_updated +:+ one_updated))
                            (clk := utc_clock) trip ["out"] false (demo_sim good_sidecars))
                 = Ok (2, 0, 0, 1)) by (vm_compute; reflexivity).
  split; [exact Hrun|].
  exact (process_album_counts (sys := demo_os (one_updated +:+ one_updated))
           (clk := utc_clock) trip ["out"] false (demo_sim good_sidecars) 2 0 0 1 Hrun).
Defined.

(** ** Beyond the claims: detecting the file types *)

(** *** What batch_detect_file_types returns *)

Lemma detect_items_raises (items : list json) :
  forall acc e, detect_items acc items = Raise e -> e = TypeError \/ e = AttributeError.
Proof.
  induction items as [|item items IH]; intros acc e; cbn [detect_items]; [discriminate|].
  unfold rbind. destruct (detect_item acc item) as [acc'|e'] eqn:Hitem; [apply IH|].
  intros [= <-]. unfold detect_item, rbind in Hitem.
  destruct item as [| | | | | |m]; try (right; congruence).
  destruct (ext_of_filetype _) as [ext|e1] eqn:Hext.
  - left. unfold type_map_set in Hitem.
    destruct (dict_get m "FileName" _); congruence.
  - left. unfold ext_of_filetype in Hext.
    destruct (dict_get m "FileType" _); congruence.
Qed.

Lemma build_type_map_raises (data : json) (e : exc_class) :
  build_type_map data = Raise e -> e = TypeError \/ e = AttributeError.
Proof.
  destruct data as [| | | |s|items|m]; cbn [build_type_map];
    try (intros [= <-]; auto; fail).
  - destruct (String.eqb s ""); intros [= <-]; auto.
  - apply detect_items_raises.
  - destruct (decide (m = ∅)); intros [= <-]; auto.
Qed.


Lemma detect_items_report (items : list json) (entries : list (string * string)) :
  Forall2 (fun item entry => report_entry item entry.1 entry.2) items entries ->
  forall acc, exists type_map,
    detect_items acc items = Ok type_map
    /\ (forall nm, ~ In nm (List.map fst entries) -> type_map !! nm = acc !! nm)
    /\ (forall before nm ty after,
          entries = before ++ (nm, ty) :: after ->
          ~ In nm (List.map fst after) ->
          type_map !! nm = Some (FILETYPE_TO_EXT !! ty)).
Proof.
  induction 1 as [|item [nm0 ty0] items entries (m & -> & Hn & Ht) _ IH]; intros acc.
  - exists acc. split; [reflexivity|]. split; [reflexivity|].
    intros [|? ?] ? ? ? [=].
  - cbn [detect_items detect_item fst snd] in *. unfold dict_get. rewrite Hn, Ht.
    cbn [ext_of_filetype type_map_set rbind].
    destruct (IH (<[nm0 := FILETYPE_TO_EXT !! ty0]> acc)) as (tm & -> & Hout & Hin).
    exists tm. split; [reflexivity|]. split.
    + intros nm Hnm. cbn [List.map fst In] in Hnm.
      rewrite Hout by tauto. apply lookup_insert_ne. tauto.
    + intros before nm ty after Heq Hlast. destruct before as [|b before].
      * injection Heq as <- <- <-. rewrite Hout by exact Hlast.
        apply lookup_insert_eq.
      * injection Heq as _ ->. eapply Hin; [reflexivity | exact Hlast].
Qed.

Section Detect.
Context {sys : OS} {clk : Clock}.
Local Open Scope script_scope.


(** X2.  When exiftool answers and its report is a list of objects, each
    with a string [FileName] and a string [FileType],
    [batch_detect_file_types] returns a map in which every reported file
    name has the extension [FILETYPE_TO_EXT] gives for the type of its
    last item ([None] for a type that is not in the table), and no other
    name is bound. *)
Theorem detect_reads_report (files : list Path) (s s1 : os) (res : completed)
    (items : list json) (entries : list (string * string)) :
  files <> [] ->
  subprocess_run (detect_cmd files) s = (Ok res, s1) ->
  stdout res <> "" ->
  json_loads (stdout res) = Ok (JList items) ->
  Forall2 (fun item entry => report_entry item entry.1 entry.2) items entries ->
  exists type_map,
    batch_detect_file_types files s
    = (Ok type_map, s1, [EvRun (detect_cmd files) (Ok res)])
    /\ (forall nm, ~ In nm (List.map fst entries) -> type_map !! nm = None)
    /\ (forall before nm ty after,
          entries = before ++ (nm, ty) :: after ->
          ~ In nm (List.map fst after) ->
          type_map !! nm = Some (FILETYPE_TO_EXT !! ty)).
Proof.
  intros Hne Hrun Hout Hloads Hitems.
  destruct (detect_items_report items entries Hitems ∅) as (tm & Htm & Habsent & Hlast).
  exists tm. split; [|split; [|exact Hlast]].
  - unfold batch_detect_file_types. destruct files as [|f files]; [congruence|].
    unfold try_except, bind, do_run, call, lift. rewrite Hrun.
    apply String.eqb_neq in Hout. rewrite Hout, andb_false_r, Hloads.
    cbn [build_type_map]. rewrite Htm. reflexivity.
  - intros nm Hnm. rewrite Habsent by exact Hnm. apply lookup_empty.
Qed.


End Detect.


(** The report of the album [Trip] on the demo machine *)
Lemma detect_reads_report_witness :
  exists type_map,
    outcome (batch_detect_file_types (sys := demo_os "")
               [pjoin trip "IMG_1.jpeg"; pjoin trip "IMG_2.jpg"] (demo_sim []))
    = Ok type_map
    /\ type_map !! "IMG_1.jpeg" = Some (Some ".png")
    /\ type_map !! "IMG_2.jpg" = Some (Some ".jpg")
    /\ type_map !! "IMG_3.jpg" = None.
Proof.
  set (files := [pjoin trip "IMG_1.jpeg"; pjoin trip "IMG_2.jpg"]).
  set (res := {| returncode := 0; stdout := "<types of Trip>"; stderr := "" |}).
  assert (H0 : files <> []) by discriminate.
  assert (H1 : subprocess_run (OS := demo_os "") (detect_cmd files) (demo_sim [])
               = (Ok res, demo_sim [])) by reflexivity.
  assert (H2 : stdout res <> "") by discriminate.
  assert (H3 : json_loads (OS := demo_os "") (stdout res)
               = Ok (JList [file_entry "IMG_1.jpeg" "PNG"; file_entry "IMG_2.jpg" "JPEG"]))
    by reflexivity.
  assert (H4 : Forall2 (fun item (entry : string * string) =>
                          report_entry item entry.1 entry.2)
                 [file_entry "IMG_1.jpeg" "PNG"; file_entry "IMG_2.jpg" "JPEG"]
                 [("IMG_1.jpeg", "PNG"); ("IMG_2.jpg", "JPEG")]).
  { repeat constructor; (eexists; split; [reflexivity | split; reflexivity]). }
  destruct (detect_reads_report (sys := demo_os "") files (demo_sim []) (demo_sim []) res
              _ _ H0 H1 H2 H3 H4) as (type_map & Hrun & Habsent & Hlast).
  exists type_map. split; [now rewrite Hrun|]. split; [|split].
  - apply (Hlast [] "IMG_1.jpeg" "PNG" [("IMG_2.jpg", "JPEG")] eq_refl).
    cbn. intros [[=]|[]].
  - apply (Hlast [("IMG_1.jpeg", "PNG")] "IMG_2.jpg" "JPEG" [] eq_refl).
    cbn. intros [].
  - apply Habsent. cbn. intros [[=]|[[=]|[]]].
Defined.


(** ** Beyond the claims: names and timestamps *)

(** *** The parts of a corrected name *)

Lemma take_app (s r : string) : PyStr.take (String.length s) (s +:+ r) = s.
Proof. induction s as [|c s IH]; simpl; [now destruct r | now rewrite IH]. Qed.

Lemma take_drop (i : nat) (s : string) : PyStr.take i s +:+ PyStr.drop i s = s.
Proof.
  revert s. induction i as [|i IH]; intros [|c s]; simpl; try reflexivity.
  change (String c (PyStr.take i s +:+ PyStr.drop i s) = String c s). now rewrite IH.
Qed.

Lemma string_app_empty (s : string) : s +:+ "" = s.
Proof.
  induction s as [|c s IH]; [reflexivity|].
  change (String c (s +:+ "") = String c s). now rewrite IH.
Qed.

Lemma stem_suffix (nm : string) : stem_of nm +:+ suffix_of nm = nm.
Proof.
  unfold stem_of, suffix_of. destruct (PyStr.rfind_dot nm) as [i|].
  - destruct ((0 <? i)%nat && (i <? String.length nm - 1)%nat).
    + apply take_drop.
    + apply string_app_empty.
  - apply string_app_empty.
Qed.

Lemma stem_of_app (s ext : string) :
  s <> "" -> plain_ext ext = true -> stem_of (s +:+ ext) = s.
Proof.
  intros Hs Hext. unfold plain_ext in Hext.
  destruct ext as [|c rest]; [discriminate|].
  destruct (Ascii.eqb_spec c ".") as [->|Hc].
  2:{ destruct c as [[] [] [] [] [] [] [] []]; try discriminate. now contradict Hc. }
  apply andb_prop in Hext as [Hext _]. apply andb_prop in Hext as [Hne Hdot].
  destruct (PyStr.rfind_dot rest) eqn:Hr; [discriminate|].
  unfold stem_of. rewrite rfind_dot_app by exact Hr.
  rewrite string_length_app. simpl String.length.
  destruct s as [|a s]; [congruence|].
  destruct rest as [|b rest]; [discriminate|].
  simpl String.length.
  replace ((0 <? S (String.length s))%nat) with true by (symmetry; apply Nat.ltb_lt; lia).
  replace ((S (String.length s) <? S (String.length s) + S (S (String.length rest)) - 1)%nat)
    with true by (symmetry; apply Nat.ltb_lt; lia).
  simpl andb. cbv iota.
  exact (take_app (String a s) (String "." (String b rest))).
Qed.

(** X4.  A correction replaces the suffix and nothing else: when
    [get_corrected_filename] corrects the name of a file to [n] for an
    extension [ext] of [FILETYPE_TO_EXT], the name of the file is its stem
    followed by its suffix, [n] is the same stem followed by [ext], and
    pathlib reads [n] back as that stem and that extension. *)
Theorem correction_replaces_suffix (p : Path) (ext n : string) :
  (exists file_type, FILETYPE_TO_EXT !! file_type = Some ext) ->
  name p <> "" ->
  get_corrected_filename p (Some ext) = (n, true) ->
  name p = stem p +:+ suffix p
  /\ n = stem p +:+ ext
  /\ stem_of n = stem p
  /\ suffix_of n = ext.
Proof.
  intros [file_type Hext] Hname Hrun. apply table_values_plain in Hext.
  unfold get_corrected_filename in Hrun.
  destruct (String.eqb _ _) in Hrun; [discriminate|]. injection Hrun as <-.
  split; [symmetry; apply stem_suffix|]. split; [reflexivity|].
  split.
  - apply stem_of_app; [apply stem_of_nonempty, Hname | exact Hext].
  - apply suffix_of_app; [apply stem_of_nonempty, Hname | exact Hext].
Qed.

Lemma correction_replaces_suffix_witness :
  name ["album"; "holiday.2019.jpeg"] = "holiday.2019" +:+ ".jpeg"
  /\ stem_of "holiday.2019.png" = "holiday.2019"
  /\ suffix_of "holiday.2019.png" = ".png".
Proof.
  assert (H1 : exists file_type, FILETYPE_TO_EXT !! file_type = Some ".png")
    by (exists "PNG"; reflexivity).
  assert (H2 : name ["album"; "holiday.2019.jpeg"] <> "") by discriminate.
  assert (H3 : get_corrected_filename ["album"; "holiday.2019.jpeg"] (Some ".png")
               = ("holiday.2019.png", true)) by reflexivity.
  destruct (correction_replaces_suffix _ _ _ H1 H2 H3) as (Hn & _ & Hstem & Hsuffix).
  exact (conj Hn (conj Hstem Hsuffix)).
Defined.

Section Timestamps.
Context {clk : Clock}.

(** *** What parse_timestamp does with any JSON value *)

Lemma try_field_usable (metadata : json) (field : string) (ts : Z) :
  usable_int metadata field = Some ts ->
  exists dt, fromtimestamp ts = Ok dt /\ try_field metadata field = Ok (Some dt).
Proof.
  unfold try_field, usable_int, field_int, read_timestamp, rtry, rbind.
  destruct metadata as [| | | | |l|m]; cbn [py_in py_getitem]; try discriminate.
  destruct (m !! field) as [entry|] eqn:Hm; [|discriminate].
  rewrite bool_decide_eq_true_2 by eauto.
  destruct (py_getitem entry "timestamp") as [raw|e2]; [|discriminate].
  destruct (py_int raw) as [ts'|e3]; [|discriminate].
  destruct (fromtimestamp ts') as [dt|e4] eqn:Hts; [|discriminate].
  intros [= <-]. exists dt. now rewrite Hts.
Qed.

Lemma try_field_raises (m : gmap string json) (field : string) (e : exc_class) :
  try_field (JDict m) field = Raise e ->
  caught_by [KeyError; ValueError; TypeError] e = false
  /\ (e = OverflowError \/ exists ts, fromtimestamp ts = Raise e).
Proof.
  unfold try_field, read_timestamp, rtry, rbind. cbn [py_in py_getitem].
  destruct (m !! field) as [entry|] eqn:Hm;
    [rewrite bool_decide_eq_true_2 by eauto | rewrite bool_decide_eq_false_2; [discriminate|]].
  2:{ intros [x Hx]. discriminate. }
  destruct entry as [| | | | | |m']; cbn [py_getitem]; try discriminate.
  destruct (m' !! "timestamp") as [raw|]; [|discriminate].
  destruct (py_int raw) as [ts|e3] eqn:Hint.
  - destruct (fromtimestamp ts) as [dt|e4] eqn:Hts; [discriminate|].
    destruct (caught_by _ e4) eqn:Hc; [discriminate|]. intros [= <-]. eauto.
  - destruct (caught_by _ e3) eqn:Hc; [discriminate|]. intros [= <-].
    split; [exact Hc|]. left.
    destruct raw as [|b|z|f|s|l|m0]; cbn in Hint;
      try congruence; try (injection Hint as <-; discriminate).
    + destruct f; cbn in Hint; try congruence. injection Hint as <-. discriminate.
    + destruct (PyStr.to_int s); [discriminate|]. injection Hint as <-. discriminate.
Qed.

(** X5.  A usable photoTakenTime always wins: when
    photoTakenTime.timestamp is there, converts to an integer and is
    accepted by [datetime.fromtimestamp], [parse_timestamp] returns its
    datetime, whatever else the metadata holds; creationTime is not
    looked at and nothing is raised. *)
Theorem photo_taken_time_first (metadata : json) (ts : Z) :
  usable_int metadata "photoTakenTime" = Some ts ->
  exists dt, fromtimestamp ts = Ok dt /\ parse_timestamp metadata = Ok (Some dt).
Proof.
  intros Hts. apply try_field_usable in Hts as (dt & Hdt & Htry).
  exists dt. split; [exact Hdt|]. unfold parse_timestamp, rbind. now rewrite Htry.
Qed.

(** X6.  What [parse_timestamp] returns is decided by the usable
    timestamps alone: when it returns [None], neither photoTakenTime nor
    creationTime holds an integer timestamp that
    [datetime.fromtimestamp] accepts; and when one of them does and
    [parse_timestamp] returns, it returns a datetime. *)
Theorem parse_timestamp_none (metadata : json) (r : option datetime) :
  parse_timestamp metadata = Ok r ->
  (r = None <-> chosen_timestamp metadata = None).
Proof.
  unfold parse_timestamp, chosen_timestamp, rbind.
  destruct (try_field metadata "photoTakenTime") as [[dt|]|e] eqn:Htaken;
    [| |discriminate].
  - intros [= <-]. apply try_field_some in Htaken as (ts & -> & _).
    split; discriminate.
  - apply try_field_none in Htaken as ->. intros Hcreated.
    destruct r as [dt|].
    + apply try_field_some in Hcreated as (ts & -> & _). split; discriminate.
    + apply try_field_none in Hcreated as ->. split; reflexivity.
Qed.

(** X7.  On a JSON object [parse_timestamp] raises only what went past
    its [except (KeyError, ValueError, TypeError)] clauses: the
    [OverflowError] of [int] on an infinite float, or an exception of
    [datetime.fromtimestamp] other than those three. *)
Theorem parse_timestamp_raises (m : gmap string json) (e : exc_class) :
  parse_timestamp (JDict m) = Raise e ->
  caught_by [KeyError; ValueError; TypeError] e = false
  /\ (e = OverflowError \/ exists ts, fromtimestamp ts = Raise e).
Proof.
  unfold parse_timestamp, rbind.
  destruct (try_field (JDict m) "photoTakenTime") as [[dt|]|e0] eqn:Htaken.
  - discriminate.
  - apply try_field_raises.
  - intros [= <-]. now apply try_field_raises in Htaken.
Qed.

(** X8.  [json.load] may give any JSON value.  On one that is not an
    object, [parse_timestamp] returns [None] for a list or a string,
    none of whose items can be indexed by a field name, and raises
    [TypeError] for [null], a boolean or a number, which the [in] test
    refuses outside the [try]. *)
Theorem parse_timestamp_not_object (metadata : json) :
  is_object metadata = false ->
  parse_timestamp metadata
  = match metadata with
    | JList _ | JStr _ => Ok None
    | _ => Raise TypeError
    end.
Proof.
  unfold parse_timestamp, try_field, read_timestamp, rtry, rbind.
  destruct metadata as [| | | |s|l|m]; cbn [py_in py_getitem is_object];
    try reflexivity; [| |discriminate]; intros _.
  - destruct (PyStr.contains "photoTakenTime" s), (PyStr.contains "creationTime" s);
      reflexivity.
  - destruct (existsb _ l), (existsb _ l); reflexivity.
Qed.

End Timestamps.

(** A sidecar that holds the number 5, on the demo clock *)
Lemma parse_timestamp_not_object_witness :
  parse_timestamp (clk := utc_clock) (JInt 5) = Raise TypeError.
Proof. exact (parse_timestamp_not_object (clk := utc_clock) (JInt 5) eq_refl). Defined.

(** A sidecar whose creationTime is no timestamp at all, one with no
    usable timestamp, and one whose photoTakenTime does not fit the
    [time_t] of the clock *)
Lemma photo_taken_time_first_witness :
  exists dt,
    fromtimestamp (Clock := utc_clock) 1600000000 = Ok dt
    /\ parse_timestamp (clk := utc_clock)
         (photo_metadata (JInt 1600000000) (JList [])) = Ok (Some dt).
Proof.
  exact (photo_taken_time_first (clk := utc_clock)
           (photo_metadata (JInt 1600000000) (JList [])) 1600000000 eq_refl).
Defined.

Lemma parse_timestamp_none_witness :
  parse_timestamp (clk := utc_clock) (photo_metadata (JStr "soon") JNull) = Ok None
  /\ chosen_timestamp (clk := utc_clock) (photo_metadata (JStr "soon") JNull) = None.
Proof.
  assert (H : parse_timestamp (clk := utc_clock) (photo_metadata (JStr "soon") JNull)
              = Ok None) by reflexivity.
  exact (conj H (proj1 (parse_timestamp_none (clk := utc_clock) _ _ H) eq_refl)).
Defined.

Lemma parse_timestamp_raises_witness :
  parse_timestamp (clk := utc_clock)
    (photo_metadata (JInt (2 ^ 63)) (JInt 1600000000)) = Raise OverflowError
  /\ caught_by [KeyError; ValueError; TypeError] OverflowError = false.
Proof.
  assert (H : parse_timestamp (clk := utc_clock)
                (photo_metadata (JInt (2 ^ 63)) (JInt 1600000000)) = Raise OverflowError)
    by reflexivity.
  exact (conj H (proj1 (parse_timestamp_raises (clk := utc_clock) _ _ H))).
Defined.

(** ** Beyond the claims: writing the timestamps *)

(** *** Counting block by block *)

Lemma split_on_cons (sep : ascii) (s : string) :
  exists w ws, PyStr.split_on sep s = w :: ws.
Proof.
  destruct s as [|c s]; cbn [PyStr.split_on]; [eauto|].
  destruct (Ascii.eqb c sep); [eauto|].
  destruct (PyStr.split_on sep s); eauto.
Qed.

Lemma split_on_app (sep : ascii) (a b : string) :
  PyStr.split_on sep (a +:+ String sep b) = PyStr.split_on sep a ++ PyStr.split_on sep b.
Proof.
  induction a as [|c a IH].
  - change ("" +:+ String sep b) with (String sep b). cbn [PyStr.split_on].
    now rewrite Ascii.eqb_refl.
  - change (String c a +:+ String sep b) with (String c (a +:+ String sep b)).
    cbn [PyStr.split_on]. rewrite IH.
    destruct (Ascii.eqb c sep); [reflexivity|].
    destruct (split_on_cons sep a) as (w & ws & ->). reflexivity.
Qed.

Lemma count_summary_joined (a b : string) :
  count_summary (a +:+ newline +:+ b)
  = ((count_summary a).1 + (count_summary b).1,
     (count_summary a).2 + (count_summary b).2).
Proof.
  unfold count_summary.
  change (a +:+ newline +:+ b) with (a +:+ String "010" b).
  rewrite split_on_app, List.fold_left_app.
  rewrite (count_lines_spec (PyStr.split_on "010" a) 0 0).
  rewrite !count_lines_spec. cbn [fst snd]. f_equal; lia.
Qed.

(** X9.  The counts add up block by block: on two outputs of exiftool
    joined by a line break, the script counts as updated, and as
    unchanged, the sum of what it counts on each; so the success count of
    a run is the sum of the success counts of its blocks. *)
Theorem counts_add_up_by_block (a b : string) :
  count_summary (a +:+ newline +:+ b)
  = ((count_summary a).1 + (count_summary b).1,
     (count_summary a).2 + (count_summary b).2)
  /\ amended_success_count (a +:+ newline +:+ b)
     = amended_success_count a + amended_success_count b.
Proof.
  split; [apply count_summary_joined|].
  rewrite <- !count_summary_total, count_summary_joined. cbn [fst snd]. lia.
Qed.


Section BatchSet.
Context {sys : OS} {clk : Clock}.
Local Open Scope script_scope.




(** X13.  The warnings exiftool is expected to give are passed over in
    silence: when every line of its standard error is blank or mentions
    [FileCreateDate], nothing is printed. *)
Theorem expected_warnings_are_silent (err : string) (s : os) :
  Forall (fun line => PyStr.strip line = "" \/ PyStr.contains "FileCreateDate" line = true)
    (PyStr.split_on "010" (PyStr.strip err)) ->
  report_stderr err s = (Ok tt, s, []).
Proof.
  intros Hall. unfold report_stderr. destruct (String.eqb err ""); [reflexivity|].
  assert (real_errors err = []) as ->; [|reflexivity].
  unfold real_errors. induction Hall as [|line lines Hline _ IH]; [reflexivity|].
  cbn [List.filter]. rewrite IH.
  destruct Hline as [-> | ->]; [reflexivity | now rewrite andb_false_r].
Qed.

End BatchSet.




Lemma expected_warnings_are_silent_witness :
  report_stderr (sys := demo_os "")
    "Warning: Sorry, FileCreateDate is not supported" (demo_sim [])
  = (Ok tt, demo_sim [], []).
Proof.
  apply (expected_warnings_are_silent (sys := demo_os "")).
  apply List.Forall_cons; [right; reflexivity | apply List.Forall_nil].
Defined.

(** ** Beyond the claims: one album *)

(** *** Rules of the logic of runs *)

Section Logic.
Context {sys : OS}.
Variable P : event -> Prop.
Variable F : exc_class -> event -> Prop.

Lemma guarded_clean {A} (Q : A -> Prop) (m : M A) :
  (forall s, Forall P (trace (m s)) /\ forall a, outcome (m s) = Ok a -> Q a) ->
  guarded P F Q m.
Proof. intros Hm s. left. apply Hm. Qed.

Lemma guarded_ret {A} (Q : A -> Prop) (a : A) : Q a -> guarded P F Q (ret a).
Proof.
  intros Ha. apply guarded_clean. intros s. split; [constructor|].
  now intros a' [= <-].
Qed.

Lemma guarded_print (msg : message) :
  P (EvPrint msg) -> guarded P F (fun _ => True) (print msg).
Proof.
  intros Hmsg. apply guarded_clean. intros s. split; [|trivial].
  constructor; [exact Hmsg | constructor].
Qed.

Lemma guarded_post {A} (Q Q' : A -> Prop) (m : M A) :
  (forall a, Q a -> Q' a) -> guarded P F Q m -> guarded P F Q' m.
Proof.
  intros HQ Hm s. destruct (Hm s) as [[Ht Ha]|Hfatal]; [left | now right].
  split; [exact Ht | auto].
Qed.

Lemma guarded_bind {A B} (Q : A -> Prop) (R : B -> Prop) (m : M A) (k : A -> M B) :
  guarded P F Q m ->
  (forall a, Q a -> guarded P F R (k a)) ->
  guarded P F R (bind m k).
Proof.
  intros Hm Hk s. unfold bind. specialize (Hm s).
  destruct (m s) as [[r s1] t1]. cbn [trace outcome fst snd] in Hm.
  destruct Hm as [[Ht1 Hq] | (t0 & ev & e & -> & Ht0 & Hev & ->)].
  - destruct r as [a|e].
    + specialize (Hk a (Hq a eq_refl) s1).
      destruct (k a s1) as [[r2 s2] t2]. cbn [trace outcome fst snd] in Hk |- *.
      destruct Hk as [[Ht2 Hr] | (t0 & ev & e & -> & Ht0 & Hev & ->)].
      * left. split; [now apply Forall_app | exact Hr].
      * right. exists (t1 ++ t0), ev, e. rewrite app_assoc.
        split; [reflexivity|]. split; [now apply Forall_app | auto].
    + left. split; [exact Ht1 | discriminate].
  - right. exists t0, ev, e. auto.
Qed.

Lemma guarded_for_each {A B} (I : B -> Prop) (body : B -> A -> M B) (l : list A) :
  (forall acc x, In x l -> I acc -> guarded P F I (body acc x)) ->
  forall acc, I acc -> guarded P F I (for_each l acc body).
Proof.
  induction l as [|x l IH]; intros Hbody acc Hacc; cbn [for_each].
  - now apply guarded_ret.
  - apply guarded_bind with (Q := I).
    + apply Hbody; [now left | exact Hacc].
    + intros acc' Hacc'. apply IH; [|exact Hacc'].
      intros acc0 y Hy. apply Hbody. now right.
Qed.

End Logic.

Lemma guarded_weaken {sys : OS} {A} (P P' : event -> Prop)
    (F F' : exc_class -> event -> Prop) (Q : A -> Prop) (m : M A) :
  (forall ev, P ev -> P' ev) -> (forall e ev, F e ev -> F' e ev) ->
  guarded P F Q m -> guarded P' F' Q m.
Proof.
  intros HP HF Hm s.
  destruct (Hm s) as [[Ht Ha] | (t0 & ev & e & Htr & Ht0 & Hev & Hout)].
  - left. split; [|exact Ha]. eapply Forall_impl; [exact Ht | exact HP].
  - right. exists t0, ev, e. split; [exact Htr|].
    split; [eapply Forall_impl; [exact Ht0 | exact HP] | auto].
Qed.

(** *** One album, call by call *)

Section AlbumRuns.
Context {sys : OS} {clk : Clock}.
Variables album_path output_base : Path.
Variable dry_run : bool.
Local Open Scope script_scope.

Local Notation "'output_dir'" := (pjoin output_base (name album_path)).
Local Notation "'metadata_dir'" := (pjoin album_path "metadata").
Local Notation "'PA'" := (album_event album_path output_base).
Local Notation "'FA'" := (album_fatal album_path output_base).
Local Notation "'kept'" := (prepared_ok album_path output_base).

Lemma collect_media_guarded :
  guarded PA FA (Forall (in_folder album_path)) (collect_media album_path).
Proof.
  unfold collect_media. apply guarded_bind with (Q := fun _ => True).
  - apply guarded_clean. intros s. split; [|trivial].
    unfold do_iterdir, query. cbn. repeat constructor.
  - intros entries _. apply guarded_for_each; [|constructor].
    intros acc nm _ Hacc. unfold collect_item. destruct (reserved_name nm).
    + now apply guarded_ret.
    + apply guarded_bind with (Q := fun _ => True).
      * apply guarded_clean. intros s. split; [|trivial].
        cbn. constructor; [|constructor]. split; [now exists nm | exact I].
      * intros d _. destruct d; apply guarded_ret; [exact Hacc|].
        apply Forall_app. split; [exact Hacc|]. constructor; [now exists nm | constructor].
Qed.

Lemma detect_guarded (files : list Path) :
  files <> [] -> Forall (in_folder album_path) files ->
  guarded PA FA (fun _ => True) (batch_detect_file_types files).
Proof.
  intros Hne Hfiles. apply guarded_clean. intros s. split; [|trivial].
  destruct (detect_run files s Hne) as (r & t & -> & Ht). cbn [trace snd].
  constructor.
  - split; [|exact I]. left. now exists files.
  - eapply Forall_impl; [exact Ht|]. intros [] Hev; try contradiction. now split.
Qed.

Lemma prepare_file_guarded (file_types : gmap string (option string))
    (acc : prepared) (media_file : Path) :
  in_folder album_path media_file -> kept acc ->
  guarded PA FA kept
    (prepare_file metadata_dir output_dir file_types acc media_file).
Proof.
  intros Hmf (Hftp & Hsk & Herr & Hren) s.
  cut (forall r s' t,
         prepare_file metadata_dir output_dir file_types acc media_file s = (r, s', t) ->
         (Forall PA t /\ forall a, r = Ok a -> kept a)
         \/ (exists t0 ev e, t = t0 ++ [ev] /\ Forall PA t0 /\ FA e ev /\ r = Raise e)).
  { intros Hcut.
    destruct (prepare_file metadata_dir output_dir file_types acc media_file s)
      as [[r s'] t]. exact (Hcut _ _ _ eq_refl). }
  intros r s' t. unfold prepare_file.
  set (nm := name media_file). set (json_file := pjoin metadata_dir (nm +:+ ".json")).
  assert (Hjf : in_folder metadata_dir json_file) by now eexists.
  assert (Hsame : forall sk er, 0 <= sk -> 0 <= er ->
            kept {| files_to_process := files_to_process acc; skipped := sk;
                           errors := er; renamed := renamed acc |}).
  { intros sk er Hsk' Her'. unfold prepared_ok. cbn. auto. }
  unfold bind at 1. unfold do_exists at 1. unfold query.
  destruct (path_exists json_file s) as [[|]|e]; cbn [negb].
  2:{ cbn. intros [= <- <- <-]. left. split; [|intros a [= <-]; apply Hsame; lia].
      constructor; [now split|]. constructor; [now split | constructor]. }
  2:{ cbn. intros [= <- <- <-]. left. split; [|discriminate].
      constructor; [now split | constructor]. }
  unfold bind at 1. unfold read_metadata, try_except.
  unfold bind at 1. unfold do_load_json, query.
  destruct (load_json json_file s) as [metadata|e] eqn:Hload.
  2:{ destruct (caught_by [JSONDecodeError; OSError] e) eqn:Hcaught.
      - cbn. intros [= <- <- <-]. left. split; [|intros a [= <-]; apply Hsame; lia].
        constructor; [now split|]. constructor; [|constructor; [now split | constructor]].
        split; [exact Hjf|]. intros e' [<- Hc]. congruence.
      - cbn. intros [= <- <- <-]. right.
        exists [EvExists json_file (Ok true)], (EvLoadJson json_file (Raise e)), e.
        split; [reflexivity|]. split; [constructor; [now split | constructor]|].
        split; [|reflexivity]. split; [|exact Hjf].
        exists json_file, (Raise e). now split. }
  cbn [ret]. unfold bind at 1. unfold lift.
  destruct (parse_timestamp metadata) as [[timestamp|]|e] eqn:Hparse.
  3:{ cbn. intros [= <- <- <-]. right.
      exists [EvExists json_file (Ok true)], (EvLoadJson json_file (Ok metadata)), e.
      split; [reflexivity|]. split; [constructor; [now split | constructor]|].
      split; [|reflexivity]. split; [|exact Hjf].
      exists json_file, (Ok metadata). now split. }
  2:{ cbn. intros [= <- <- <-]. left. split; [|intros a [= <-]; apply Hsame; lia].
      constructor; [now split|]. constructor; [|constructor; [now split | constructor]].
      split; [exact Hjf|]. intros e' He'. cbn in He'. congruence. }
  assert (Hloaded : PA (EvLoadJson json_file (Ok metadata))).
  { split; [exact Hjf|]. intros e' He'. cbn in He'. congruence. }
  assert (Hnew : forall corrected_name rn,
            0 <= rn <= len (files_to_process acc) + 1 ->
            kept
              {| files_to_process :=
                   files_to_process acc
                   ++ [(media_file, pjoin output_dir corrected_name, timestamp)];
                 skipped := skipped acc; errors := errors acc; renamed := rn |}).
  { intros corrected_name rn Hrn. unfold prepared_ok.
    cbn [files_to_process skipped errors renamed].
    split; [|split; [exact Hsk | split; [exact Herr|]]].
    - apply Forall_app. split; [exact Hftp|].
      constructor; [|constructor]. cbn. split; [exact Hmf | now eexists].
    - unfold len in *. rewrite List.length_app. cbn [List.length]. lia. }
  destruct (get_corrected_filename media_file (mjoin (file_types !! nm)))
    as [corrected_name was_corrected].
  destruct was_corrected; cbn; intros [= <- <- <-]; left.
  - split; [|intros a [= <-]; apply Hnew; lia].
    constructor; [now split|]. constructor; [exact Hloaded|].
    constructor; [now split | constructor].
  - split; [|intros a [= <-]; apply Hnew; lia].
    constructor; [now split|]. constructor; [exact Hloaded | constructor].
Qed.

Lemma copy_loop_guarded (files : list (Path * Path * datetime)) (errs : Z) :
  Forall (fun entry : Path * Path * datetime =>
            in_folder album_path entry.1.1 /\ in_folder output_dir entry.1.2) files ->
  guarded PA FA
    (fun copied : list (Path * datetime) * Z =>
       Forall (fun entry : Path * datetime => in_folder output_dir entry.1) copied.1
       /\ len copied.1 + copied.2 = errs + len files)
    (for_each files ([], errs) (copy_file dry_run)).
Proof.
  intros Hfiles. apply guarded_clean. intros s.
  destruct (copy_loop_run dry_run files ([], errs) s)
    as (r & s' & t & -> & Ht & Hcopies & Hr).
  cbn [trace outcome fst snd]. rewrite Forall_forall in Hfiles. split.
  - apply Forall_forall. intros ev Hev.
    rewrite Forall_forall in Ht. specialize (Ht ev Hev).
    destruct ev; try contradiction; [now split|].
    split; [|exact I].
    apply list_elem_of_In, Hcopies in Hev as [dt Hin].
    apply list_elem_of_In, Hfiles in Hin. exact Hin.
  - intros [fft errs'] ->. destruct Hr as (new & -> & Hsum & _ & Hnew & _).
    cbn [fst snd app] in *. split; [|exact Hsum].
    eapply Forall_impl; [exact Hnew|]. intros entry (src & Hin & _).
    apply list_elem_of_In, Hfiles in Hin. apply Hin.
Qed.

Lemma batch_set_guarded (fts : list (Path * datetime)) :
  Forall (fun entry : Path * datetime => in_folder output_dir entry.1) fts ->
  guarded PA FA (fun counts : Z * Z => counts.1 + counts.2 = len fts)
    (batch_set_timestamps fts dry_run).
Proof.
  intros Hfts. apply guarded_clean. intros s.
  destruct (batch_set_shape fts dry_run s) as (r & s' & t & -> & Ht & Hargs & Hsum).
  cbn [trace outcome fst snd]. split.
  - apply Forall_forall. intros ev Hev.
    rewrite Forall_forall in Ht. pose proof (Ht ev Hev) as Hkind.
    destruct ev; try contradiction; try (now split).
    + split; [|exact I]. exists fts. split; [|exact Hfts].
      apply list_elem_of_In, in_argfiles in Hev.
      destruct Hargs as [[Hnone _] | (_ & _ & rw & Hone & _)].
      * rewrite Hnone in Hev. contradiction.
      * rewrite Hone in Hev. destruct Hev as [[= <- _]|[]]. reflexivity.
    + split; [|exact I]. right. apply Hkind.
  - intros [success error_count] ->. now apply Hsum.
Qed.

Lemma process_album_guarded :
  guarded PA FA
    (fun counts : Z * Z * Z * Z =>
       let '(processed, skipped, errors, renamed) := counts in
       0 <= skipped /\ 0 <= renamed <= processed + errors)
    (process_album album_path output_base dry_run).
Proof.
  unfold process_album.
  apply guarded_bind with (Q := Forall (in_folder album_path));
    [apply collect_media_guarded|].
  intros media Hmedia. destruct media as [|m0 media'].
  { apply guarded_bind with (Q := fun _ => True); [now apply guarded_print|].
    intros _ _. apply guarded_ret. lia. }
  remember (m0 :: media') as media eqn:Hcons.
  assert (Hne : media <> []) by (subst; discriminate). clear Hcons m0 media'.
  apply guarded_bind with (Q := fun _ => True); [now apply guarded_print|].
  intros _ _. apply guarded_bind with (Q := fun _ => True); [now apply detect_guarded|].
  intros file_types _.
  apply guarded_bind with (Q := fun _ => True); [now apply guarded_print|].
  intros _ _. apply guarded_bind with (Q := fun _ => True).
  { destruct dry_run; cbn [negb]; [now apply guarded_ret|].
    apply guarded_clean. intros s. split; [|trivial].
    unfold do_mkdir, call. destruct (mkdir_p output_dir s) as [r s'].
    cbn. constructor; [now split | constructor]. }
  intros _ _. apply guarded_bind with (Q := kept).
  { apply guarded_for_each.
    - intros acc media_file Hin Hacc. apply prepare_file_guarded; [|exact Hacc].
      rewrite Forall_forall in Hmedia. now apply Hmedia, list_elem_of_In.
    - unfold prepared_ok. cbn. repeat split; try constructor; unfold len; cbn; lia. }
  intros prep (Hftp & Hsk & Herr & Hren).
  destruct (files_to_process prep) as [|f0 ftp'] eqn:Hfiles.
  { apply guarded_ret. unfold len in Hren. cbn in Hren. lia. }
  rewrite <- Hfiles in *. clear Hfiles f0 ftp'.
  apply guarded_bind with (Q := fun _ => True); [now apply guarded_print|].
  intros _ _. eapply guarded_bind; [now apply copy_loop_guarded|].
  intros [fft errs] [Hfft Hcount]. cbn [fst snd] in Hfft, Hcount.
  destruct fft as [|x0 fft'] eqn:Hcopied.
  { apply guarded_ret. unfold len in *. cbn in Hcount. lia. }
  rewrite <- Hcopied in *. clear Hcopied x0 fft'.
  apply guarded_bind with (Q := fun _ => True); [now apply guarded_print|].
  intros _ _. eapply guarded_bind; [now apply batch_set_guarded|].
  intros [success ts_errors] Hsum. cbn [fst snd] in Hsum.
  apply guarded_bind with (Q := fun _ => True); [now apply guarded_print|].
  intros _ _. apply guarded_ret. lia.
Qed.

End AlbumRuns.

Section AlbumExtras.
Context {sys : OS} {clk : Clock}.

(** X14.  [process_album] stays within the album and its output folder:
    in every run, dry or not, and however it ends, it lists the album,
    asks which of its entries are directories, probes and loads files of
    its [metadata] folder and nothing else; the only directory it creates
    is [output_base / album_name]; every copy goes from an entry of the
    album to an entry of that folder; exiftool reports on entries of the
    album and is given, in the argfile, entries of that folder only. *)
Theorem process_album_confined (album_path output_base : Path) (dry_run : bool) (s : os) :
  Forall (confined album_path output_base)
    (trace (process_album album_path output_base dry_run s)).
Proof.
  destruct (process_album_guarded album_path output_base dry_run s)
    as [[Ht _] | (t0 & ev & e & -> & Ht0 & [_ Hev] & _)].
  - eapply Forall_impl; [exact Ht|]. now intros ev [Hev _].
  - apply Forall_app. split; [|constructor; [exact Hev | constructor]].
    eapply Forall_impl; [exact Ht0|]. now intros ev' [Hev' _].
Qed.

(** X15.  A sidecar ends [process_album] on the spot in two cases: when
    loading it raises an exception that is neither a [JSONDecodeError]
    nor an [OSError], and when it is loaded and [parse_timestamp] raises
    on what it holds ([TypeError] on [null] or a number, an exception of
    [datetime.fromtimestamp] that is not a [ValueError]).  The load is
    then the last call of [process_album], the exception is its outcome,
    and no count is returned. *)
Theorem failing_sidecar_ends_album (album_path output_base : Path) (dry_run : bool)
    (s : os) (p : Path) (r : result json) (e : exc_class) :
  In (EvLoadJson p r) (trace (process_album album_path output_base dry_run s)) ->
  sidecar_fails r e ->
  outcome (process_album album_path output_base dry_run s) = Raise e
  /\ exists t0,
       trace (process_album album_path output_base dry_run s) = t0 ++ [EvLoadJson p r].
Proof.
  intros Hin Hfails.
  destruct (process_album_guarded album_path output_base dry_run s)
    as [[Ht _] | (t0 & ev & e' & Htr & Ht0 & [(p' & r' & -> & Hfails') _] & Hout)].
  - rewrite Forall_forall in Ht. apply list_elem_of_In, Ht in Hin as [_ Hh].
    now apply Hh in Hfails.
  - rewrite Htr in Hin |- *. apply in_app_iff in Hin as [Hin|[Hin|[]]].
    + rewrite Forall_forall in Ht0. apply list_elem_of_In, Ht0 in Hin as [_ Hh].
      now apply Hh in Hfails.
    + injection Hin as -> ->. split; [|now exists t0].
      rewrite Hout. f_equal. destruct r as [metadata|e0]; cbn in Hfails, Hfails'.
      * congruence.
      * destruct Hfails as [<- _], Hfails' as [<- _]. reflexivity.
Qed.

(** X16.  The counts [process_album] returns hang together: the numbers
    of skipped and of renamed files are not negative, and no more files
    are renamed than are counted as processed or as errors. *)
Theorem renamed_files_are_counted (album_path output_base : Path) (dry_run : bool)
    (s : os) (processed skipped errors renamed : Z) :
  outcome (process_album album_path output_base dry_run s)
  = Ok (processed, skipped, errors, renamed) ->
  0 <= skipped /\ 0 <= renamed <= processed + errors.
Proof.
  intros Hrun.
  destruct (process_album_guarded album_path output_base dry_run s)
    as [[_ Hq] | (t0 & ev & e & _ & _ & _ & Hout)].
  - exact (Hq _ Hrun).
  - congruence.
Qed.


End AlbumExtras.

(** The album [Trip] with a first sidecar that holds [null] *)
Lemma failing_sidecar_ends_album_witness :
  outcome (process_album (sys := demo_os one_updated) (clk := utc_clock)
             trip ["out"] false (demo_sim [("IMG_1.jpeg.json", Ok JNull)]))
  = Raise TypeError.
Proof.
  refine (proj1 (failing_sidecar_ends_album (sys := demo_os one_updated) (clk := utc_clock)
                   trip ["out"] false (demo_sim [("IMG_1.jpeg.json", Ok JNull)])
                   (sidecar trip (pjoin trip "IMG_1.jpeg")) (Ok JNull) TypeError _ eq_refl)).
  vm_compute. do 8 right. left. reflexivity.
Defined.

(** The album [Trip], one of whose two files is renamed *)
Lemma renamed_files_are_counted_witness :
  outcome (process_album (sys := demo_os (one_updated +:+ one_updated)) (clk := utc_clock)
             trip ["out"] false (demo_sim good_sidecars))
  = Ok (2, 0, 0, 1)
  /\ 0 <= 0 /\ 0 <= 1 <= 2 + 0.
Proof.
  assert (H : outcome (process_album (sys := demo_os (one_updated +:+ one_updated))
                         (clk := utc_clock) trip ["out"] false (demo_sim good_sidecars))
              = Ok (2, 0, 0, 1)) by (vm_compute; reflexivity).
  exact (conj H (renamed_files_are_counted
                   (sys := demo_os (one_updated +:+ one_updated)) (clk := utc_clock)
                   _ _ _ _ _ _ _ _ H)).
Defined.


(** ** Beyond the claims: the enumeration and the whole program *)

(** *** Runs that return or stop at a call *)

Section Stops.
Context {sys : OS}.
Variable P : event -> Prop.
Variable F : exc_class -> event -> Prop.

Lemma stops_at_ret {A} (a : A) : stops_at P F (ret a).
Proof. intros s. left. split; [constructor | now exists a]. Qed.

Lemma stops_at_query {A} (f : os -> result A) (ev : result A -> event) :
  (forall a, P (ev (Ok a))) -> (forall e, F e (ev (Raise e))) ->
  stops_at P F (query f ev).
Proof.
  intros Hok Hraise s. unfold query. cbn [trace outcome fst snd].
  destruct (f s) as [a|e].
  - left. split; [constructor; [apply Hok | constructor] | now exists a].
  - right. exists [], (ev (Raise e)), e.
    split; [reflexivity|]. split; [constructor|]. split; [apply Hraise | reflexivity].
Qed.

Lemma stops_at_bind {A B} (m : M A) (k : A -> M B) :
  stops_at P F m -> (forall a, stops_at P F (k a)) -> stops_at P F (bind m k).
Proof.
  intros Hm Hk s. unfold bind. specialize (Hm s).
  destruct (m s) as [[r s1] t1]. cbn [trace outcome fst snd] in Hm.
  destruct Hm as [[Ht1 [a ->]] | (t0 & ev & e & -> & Ht0 & Hev & ->)].
  - specialize (Hk a s1).
    destruct (k a s1) as [[r2 s2] t2]. cbn [trace outcome fst snd] in Hk |- *.
    destruct Hk as [[Ht2 Hr] | (t0 & ev & e & -> & Ht0 & Hev & ->)].
    + left. split; [now apply Forall_app | exact Hr].
    + right. exists (t1 ++ t0), ev, e. rewrite app_assoc.
      split; [reflexivity|]. split; [now apply Forall_app | auto].
  - right. exists t0, ev, e. auto.
Qed.

Lemma stops_at_for_each {A B} (body : B -> A -> M B) (l : list A) :
  (forall acc x, stops_at P F (body acc x)) ->
  forall acc, stops_at P F (for_each l acc body).
Proof.
  intros Hbody. induction l as [|x l IH]; intros acc; cbn [for_each].
  - apply stops_at_ret.
  - apply stops_at_bind; [apply Hbody | exact IH].
Qed.

End Stops.

Lemma failed_not_answered (e : exc_class) (ev : event) :
  failed_walk e ev -> ~ answered_walk ev.
Proof. destruct ev as [|? []|? []|? []|? []| | | | | |]; cbn; tauto. Qed.

Lemma failed_walk_fun (e e' : exc_class) (ev : event) :
  failed_walk e ev -> failed_walk e' ev -> e = e'.
Proof. destruct ev as [|? []|? []|? []|? []| | | | | |]; cbn; try tauto; congruence. Qed.

Section FindErrors.
Context {sys : OS} {clk : Clock}.
Local Open Scope script_scope.

(** *** A folder that cannot be examined *)

Lemma any_media_file_stops (item : Path) (entries : list string) :
  stops_at answered_walk failed_walk (any_media_file item entries).
Proof.
  induction entries as [|nm entries IH]; cbn [any_media_file].
  - apply stops_at_ret.
  - apply stops_at_bind; [now apply stops_at_query|].
    intros f. destruct (f && negb (String.eqb nm ".DS_Store")); [apply stops_at_ret | exact IH].
Qed.

Lemma find_item_stops (input_dir : Path) (albums : list Path) (nm : string) :
  stops_at answered_walk failed_walk (find_item input_dir albums nm).
Proof.
  unfold find_item. apply stops_at_bind; [now apply stops_at_query|].
  intros d. destruct (d && negb (PyStr.startswith "." nm)); [|apply stops_at_ret].
  apply stops_at_bind; [now apply stops_at_query|]. intros entries.
  apply stops_at_bind; [apply any_media_file_stops|]. intros has_files.
  apply stops_at_bind; [now apply stops_at_query|]. intros has_metadata.
  destruct (has_files || has_metadata); apply stops_at_ret.
Qed.

Lemma find_albums_stops (input_dir : Path) :
  stops_at answered_walk failed_walk (find_albums input_dir).
Proof.
  unfold find_albums. apply stops_at_bind; [now apply stops_at_query|]. intros entries.
  apply stops_at_bind; [|intros albums; apply stops_at_ret].
  apply stops_at_for_each. intros acc nm. apply find_item_stops.
Qed.

Lemma find_item_locked (input_dir : Path) (albums : list Path) (nm : string) (s : os)
    (e : exc_class) :
  is_dir (pjoin input_dir nm) s = Ok true -> PyStr.startswith "." nm = false ->
  iterdir (pjoin input_dir nm) s = Raise e ->
  outcome (find_item input_dir albums nm s) = Raise e.
Proof.
  intros Hd Hdot Hit. unfold find_item.
  unfold bind at 1. unfold do_is_dir at 1. unfold query.
  rewrite Hd, Hdot. cbn [andb negb].
  unfold bind at 1. unfold do_iterdir, query. rewrite Hit. reflexivity.
Qed.

Lemma find_loop_locked (input_dir : Path) (s : os) (entries : list string) (nm : string)
    (e : exc_class) :
  In nm entries ->
  is_dir (pjoin input_dir nm) s = Ok true -> PyStr.startswith "." nm = false ->
  iterdir (pjoin input_dir nm) s = Raise e ->
  forall albums, exists e',
    outcome (for_each entries albums (find_item input_dir) s) = Raise e'.
Proof.
  intros Hin Hd Hdot Hit.
  induction entries as [|nm0 entries IH]; intros albums; [destruct Hin|].
  cbn [for_each]. unfold bind.
  destruct (find_item_run input_dir albums nm0 s) as (r1 & t1 & Hrun & _ & _).
  rewrite Hrun. destruct r1 as [albums1|e1]; [|now exists e1].
  destruct Hin as [->|Hin].
  - pose proof (find_item_locked input_dir albums nm s e Hd Hdot Hit) as Hout.
    rewrite Hrun in Hout. discriminate.
  - destruct (IH Hin albums1) as [e' Hout]. exists e'.
    destruct (for_each entries albums1 (find_item input_dir) s) as [[r2 s2] t2].
    exact Hout.
Qed.

(** X18.  One call that fails stops the enumeration: the first listing
    or query of [find_albums] that raises is its last call and its
    exception is the outcome, so that no album is returned; [find_albums]
    raises in no other way; it does raise when a subdirectory of the input
    directory whose name does not start with a dot cannot be listed; and
    [main], past its two checks of the input directory, then ends with
    the same exception, having made no further call. *)
Theorem unreadable_folder_stops_enumeration (input_dir output_path : Path)
    (dry_run : bool) (s : os) :
  (forall ev e,
      In ev (trace (find_albums input_dir s)) -> failed_walk e ev ->
      outcome (find_albums input_dir s) = Raise e
      /\ exists t0,
           trace (find_albums input_dir s) = t0 ++ [ev] /\ Forall answered_walk t0)
  /\ (forall e,
        outcome (find_albums input_dir s) = Raise e ->
        exists t0 ev,
          trace (find_albums input_dir s) = t0 ++ [ev]
          /\ Forall answered_walk t0 /\ failed_walk e ev)
  /\ (forall entries nm e,
        iterdir input_dir s = Ok entries -> In nm entries ->
        is_dir (pjoin input_dir nm) s = Ok true -> PyStr.startswith "." nm = false ->
        iterdir (pjoin input_dir nm) s = Raise e ->
        exists e', outcome (find_albums input_dir s) = Raise e')
  /\ (forall e,
        outcome (find_albums input_dir s) = Raise e ->
        path_exists input_dir s = Ok true -> is_dir input_dir s = Ok true ->
        outcome (main input_dir output_path dry_run s) = Raise e
        /\ trace (main input_dir output_path dry_run s)
           = [EvExists input_dir (Ok true); EvIsDir input_dir (Ok true)]
             ++ trace (find_albums input_dir s)).
Proof.
  split; [|split; [|split]].
  - intros ev e Hin Hfail.
    destruct (find_albums_stops input_dir s)
      as [[Ht _] | (t0 & ev' & e' & Htr & Ht0 & Hev & Hout)].
    + rewrite Forall_forall in Ht. apply list_elem_of_In, Ht in Hin.
      now apply failed_not_answered in Hfail.
    + rewrite Htr in Hin |- *. apply in_app_iff in Hin as [Hin|[<-|[]]].
      * rewrite Forall_forall in Ht0. apply list_elem_of_In, Ht0 in Hin.
        now apply failed_not_answered in Hfail.
      * rewrite Hout, (failed_walk_fun _ _ _ Hfail Hev). split; [reflexivity|].
        now exists t0.
  - intros e He.
    destruct (find_albums_stops input_dir s)
      as [[_ [a Ha]] | (t0 & ev' & e' & Htr & Ht0 & Hev & Hout)]; [congruence|].
    assert (e' = e) as -> by congruence. now exists t0, ev'.
  - intros entries nm e Hentries Hin Hd Hdot Hit.
    destruct (find_loop_locked input_dir s entries nm e Hin Hd Hdot Hit [])
      as [e' Hout].
    exists e'. unfold find_albums, bind, do_iterdir, query. rewrite Hentries.
    destruct (for_each entries [] (find_item input_dir) s) as [[r2 s2] t2].
    cbn in Hout |- *. now rewrite Hout.
  - intros e Hfind Hex Hdir.
    destruct (main input_dir output_path dry_run s) as [[r s'] t] eqn:Hrun.
    cbn [outcome trace fst snd]. revert Hrun.
    unfold main. unfold bind at 1. unfold do_exists at 1. unfold query.
    rewrite Hex. cbn [negb].
    unfold bind at 1. unfold do_is_dir at 1. unfold query.
    rewrite Hdir. cbn [negb]. unfold bind at 1.
    destruct (find_albums input_dir s) as [[rf sf] tf]. cbn in Hfind. rewrite Hfind.
    cbn. intros [= <- <- <-]. split; reflexivity.
Qed.

End FindErrors.

(** The demo export, whose album [Trip] cannot be listed *)
Lemma unreadable_folder_stops_enumeration_witness :
  outcome (find_albums (sys := locked_os) ["export"] (demo_sim good_sidecars))
  = Raise PermissionError
  /\ (exists t0,
        trace (find_albums (sys := locked_os) ["export"] (demo_sim good_sidecars))
        = t0 ++ [EvIterdir trip (Raise PermissionError)]
        /\ Forall answered_walk t0)
  /\ outcome (main (sys := locked_os) (clk := utc_clock) ["export"] ["out"] false
                (demo_sim good_sidecars)) = Raise PermissionError.
Proof.
  assert (Hin : In (EvIterdir trip (Raise PermissionError))
                  (trace (find_albums (sys := locked_os) ["export"]
                            (demo_sim good_sidecars)))).
  { vm_compute. repeat (first [left; reflexivity | right]). }
  destruct (proj1 (unreadable_folder_stops_enumeration (sys := locked_os)
                     (clk := utc_clock) ["export"] ["out"] false
                     (demo_sim good_sidecars))
              (EvIterdir trip (Raise PermissionError)) PermissionError Hin eq_refl)
    as [Hout Htrace].
  split; [exact Hout|]. split; [exact Htrace|].
  exact (proj1 (proj2 (proj2 (proj2 (unreadable_folder_stops_enumeration
                  (sys := locked_os) (clk := utc_clock) ["export"] ["out"] false
                  (demo_sim good_sidecars)))) PermissionError Hout eq_refl eq_refl)).
Defined.

Section MainRuns.
Context {sys : OS} {clk : Clock}.
Local Open Scope script_scope.

(** *** The whole program, call by call *)

Lemma main_album_guarded (output_path : Path) (dry_run : bool) (totals : Z * Z * Z * Z)
    (album : Path) :
  guarded handled_load fatal_load (fun _ => True)
    (main_album output_path dry_run totals album).
Proof.
  unfold main_album. destruct totals as [[[tp tsk] te] tr].
  apply guarded_bind with (Q := fun _ => True); [now apply guarded_print|].
  intros _ _. apply guarded_bind with (Q := fun _ => True).
  { eapply guarded_post; [intros; exact I|].
    eapply guarded_weaken; [| |apply (process_album_guarded album output_path dry_run)].
    - now intros ev [_ Hev].
    - now intros e ev [Hev _]. }
  intros [[[p sk] e] r] _.
  apply guarded_bind with (Q := fun _ => True); [now apply guarded_print|].
  intros _ _. now apply guarded_ret.
Qed.

Lemma main_guarded (input_path output_path : Path) (dry_run : bool) :
  guarded handled_load fatal_load (fun _ => True) (main input_path output_path dry_run).
Proof.
  assert (Hexit : forall msg, guarded handled_load fatal_load (fun _ : unit => True)
                                (print msg ;;; raise SystemExit)).
  { intros msg. apply guarded_clean. intros s; split; [|trivial]. now repeat constructor. }
  assert (Hopt : forall (b : bool) (m : M unit),
             (forall s, Forall handled_load (trace (m s))) ->
             guarded handled_load fatal_load (fun _ => True) (if b then m else ret tt)).
  { intros b m Hm. destruct b; [|now apply guarded_ret].
    apply guarded_clean. intros s. split; [apply Hm | trivial]. }
  assert (Hmkdir : forall s, Forall handled_load (trace (do_mkdir output_path s))).
  { intros s. unfold do_mkdir, call. destruct (mkdir_p output_path s) as [r s'].
    now repeat constructor. }
  unfold main. apply guarded_bind with (Q := fun _ => True).
  { apply guarded_clean. intros s; split; [|trivial]. now repeat constructor. }
  intros found _. destruct found; cbn [negb]; [|apply Hexit].
  apply guarded_bind with (Q := fun _ => True).
  { apply guarded_clean. intros s; split; [|trivial]. now repeat constructor. }
  intros d _. destruct d; cbn [negb]; [|apply Hexit].
  apply guarded_bind with (Q := fun _ => True).
  { apply guarded_clean. intros s; split; [|trivial].
    destruct (find_albums_run input_path s) as (r & t & -> & Ht).
    eapply Forall_impl; [exact Ht|]. now intros []. }
  intros albums _. destruct albums as [|a0 albums']; [apply Hexit|].
  remember (a0 :: albums') as albums eqn:Hcons. clear Hcons a0 albums'.
  do 3 (apply guarded_bind with (Q := fun _ => True); [now apply guarded_print|];
        intros _ _).
  apply guarded_bind with (Q := fun _ => True).
  { apply Hopt. intros s. now repeat constructor. }
  intros _ _.
  apply guarded_bind with (Q := fun _ => True); [now apply guarded_print|].
  intros _ _. apply guarded_bind with (Q := fun _ => True).
  { destruct dry_run; cbn [negb]; [now apply guarded_ret|].
    apply guarded_clean. intros s. split; [apply Hmkdir | trivial]. }
  intros _ _. apply guarded_bind with (Q := fun _ => True).
  { apply guarded_for_each; [|exact I]. intros acc album _ _. apply main_album_guarded. }
  intros [[[tp tsk] te] tr] _.
  do 8 (apply guarded_bind with (Q := fun _ => True); [now apply guarded_print|];
        intros _ _).
  apply guarded_bind with (Q := fun _ => True).
  { apply Hopt. intros s. now repeat constructor. }
  intros _ _. destruct (0 <? te); [|now apply guarded_ret].
  apply guarded_clean. intros s; split; [constructor | trivial].
Qed.

Lemma main_album_counts (output_path : Path) (dry_run : bool)
    (totals totals' : Z * Z * Z * Z) (album : Path) (s : os) :
  outcome (main_album output_path dry_run totals album s) = Ok totals' ->
  exists counts,
    outcome (process_album album output_path dry_run s) = Ok counts
    /\ totals' = add_counts totals counts.
Proof.
  unfold main_album. destruct totals as [[[tp tsk] te] tr].
  unfold bind at 1. cbn [print]. unfold bind at 1.
  destruct (process_album album output_path dry_run s) as [[[[[[p sk] e] r]|e] s1] t].
  - cbn. intros [= <-]. eexists. split; reflexivity.
  - discriminate.
Qed.

Lemma main_loop_counts (output_path : Path) (dry_run : bool) (albums : list Path) :
  forall totals totals' s,
    outcome (for_each albums totals (main_album output_path dry_run) s) = Ok totals' ->
    exists counts,
      Forall2 (fun album c =>
                 exists s0, outcome (process_album album output_path dry_run s0) = Ok c)
        albums counts
      /\ totals' = List.fold_left add_counts counts totals.
Proof.
  induction albums as [|album albums IH]; intros totals totals' s.
  - cbn. intros [= <-]. exists []. split; [constructor | reflexivity].
  - cbn [for_each]. unfold bind.
    destruct (main_album output_path dry_run totals album s) as [[[totals1|e] s1] t1] eqn:Hstep;
      [|discriminate].
    destruct (main_album_counts output_path dry_run totals totals1 album s)
      as (c & Hc & ->); [now rewrite Hstep|].
    specialize (IH (add_counts totals c) totals' s1).
    destruct (for_each albums (add_counts totals c) (main_album output_path dry_run) s1)
      as [[r2 s2] t2].
    cbn [outcome fst] in IH |- *. intros Hr. destruct (IH Hr) as (counts & Hall & ->).
    exists (c :: counts). split; [|reflexivity]. constructor; [eauto | exact Hall].
Qed.

(** X19.  A sidecar that fails ends the whole program: when loading a
    sidecar raises an exception that is neither a [JSONDecodeError] nor
    an [OSError], or [parse_timestamp] raises on what the sidecar holds,
    that load is the last call [main] makes: no summary is printed, no
    later file or album is touched, and the exception is the outcome. *)
Theorem failing_sidecar_ends_run (input_path output_path : Path) (dry_run : bool)
    (s : os) (p : Path) (r : result json) (e : exc_class) :
  In (EvLoadJson p r) (trace (main input_path output_path dry_run s)) ->
  sidecar_fails r e ->
  outcome (main input_path output_path dry_run s) = Raise e
  /\ exists t0,
       trace (main input_path output_path dry_run s) = t0 ++ [EvLoadJson p r].
Proof.
  intros Hin Hfails.
  destruct (main_guarded input_path output_path dry_run s)
    as [[Ht _] | (t0 & ev & e' & Htr & Ht0 & (p' & r' & -> & Hfails') & Hout)].
  - rewrite Forall_forall in Ht. apply list_elem_of_In, Ht in Hin.
    now apply Hin in Hfails.
  - rewrite Htr in Hin |- *. apply in_app_iff in Hin as [Hin|[Hin|[]]].
    + rewrite Forall_forall in Ht0. apply list_elem_of_In, Ht0 in Hin.
      now apply Hin in Hfails.
    + injection Hin as -> ->. split; [|now exists t0].
      rewrite Hout. f_equal. destruct r as [metadata|e0]; cbn in Hfails, Hfails'.
      * congruence.
      * destruct Hfails as [<- _], Hfails' as [<- _]. reflexivity.
Qed.


(** X21.  A normal return of [main] accounts for every album: when
    [main] returns instead of exiting, [find_albums] found at least one
    album, [process_album] returned its counts for each album found, the
    totals are the sums of these counts, the total of errors is not
    positive, and the run ends with the printing of these totals. *)
Theorem normal_return_accounts_for_albums (input_path output_path : Path)
    (dry_run : bool) (s : os) :
  outcome (main input_path output_path dry_run s) = Ok tt ->
  exists albums counts total_processed total_skipped total_errors total_renamed,
    outcome (find_albums input_path s) = Ok albums
    /\ albums <> []
    /\ Forall2 (fun album c =>
                  exists s0, outcome (process_album album output_path dry_run s0) = Ok c)
         albums counts
    /\ List.fold_left add_counts counts (0, 0, 0, 0)
       = (total_processed, total_skipped, total_errors, total_renamed)
    /\ total_errors <= 0
    /\ exists t,
         trace (main input_path output_path dry_run s)
         = t ++ [EvPrint (MsgAlbumsProcessed (List.length albums));
                 EvPrint (MsgFilesProcessed total_processed);
                 EvPrint (MsgFilesRenamed total_renamed);
                 EvPrint (MsgFilesSkipped total_skipped);
                 EvPrint (MsgErrors total_errors)]
             ++ (if dry_run then [EvPrint MsgDryRunNothingModified] else []).
Proof.
  destruct (main input_path output_path dry_run s) as [[r s'] t] eqn:Hrun.
  cbn [outcome final trace fst snd]. intros ->. revert Hrun.
  unfold main. unfold bind at 1. unfold do_exists at 1. unfold query.
  destruct (path_exists input_path s) as [[|]|e0]; cbn [negb]; [|discriminate..].
  unfold bind at 1. unfold do_is_dir at 1. unfold query.
  destruct (is_dir input_path s) as [[|]|e0]; cbn [negb]; [|discriminate..].
  unfold bind at 1.
  destruct (find_albums_run input_path s) as (rf & tf & Hfind & _). rewrite Hfind.
  destruct rf as [albums|e]; [|discriminate].
  destruct albums as [|a0 albums']; [discriminate|].
  cbv iota. remember (a0 :: albums') as albums eqn:Hcons in *.
  assert (Hne : albums <> []) by (subst; discriminate). clear Hcons a0 albums'.
  set (mk := if negb dry_run then do_mkdir output_path else ret tt).
  destruct (mk s) as [[rm s2] tm] eqn:Hmk. clearbody mk.
  set (banner := if dry_run then print MsgDryRunMode else ret tt).
  assert (Hbanner : exists t, banner s = (Ok tt, s, t)).
  { unfold banner. destruct dry_run; eexists; reflexivity. }
  destruct Hbanner as (tb & Hbanner). clearbody banner.
  do 4 (unfold bind at 1; cbn [print]).
  unfold bind at 1. rewrite Hbanner.
  do 2 (unfold bind at 1; cbn [print]).
  rewrite Hmk. destruct rm as [[]|e]; [|discriminate].
  unfold bind at 1.
  pose proof (main_loop_counts output_path dry_run albums (0, 0, 0, 0)) as Hloop.
  specialize (fun totals' => Hloop totals' s2).
  destruct (for_each albums (0, 0, 0, 0) (main_album output_path dry_run) s2)
    as [[rl s3] tl]. cbn [outcome fst] in Hloop.
  destruct rl as [[[[tp tsk] te] tr]|e]; [|discriminate].
  destruct (Hloop _ eq_refl) as (counts & Hall & Hsum).
  set (closing := if dry_run then print MsgDryRunNothingModified else ret tt).
  assert (Hclosing : closing s3
                     = (Ok tt, s3, if dry_run then [EvPrint MsgDryRunNothingModified]
                                   else [])).
  { unfold closing. destruct dry_run; reflexivity. }
  clearbody closing.
  do 7 (unfold bind at 1; cbn [print]).
  unfold bind at 1. rewrite Hclosing.
  destruct (0 <? te) eqn:Hte; [discriminate|]. cbn [ret]. intros [= <- <-].
  exists albums, counts, tp, tsk, te, tr.
  split; [reflexivity|]. split; [exact Hne|]. split; [exact Hall|].
  split; [now rewrite <- Hsum|]. split; [now apply Z.ltb_ge in Hte|].
  exists ([EvExists input_path (Ok true); EvIsDir input_path (Ok true)] ++ tf
          ++ [EvPrint (MsgFound (List.length albums)); EvPrint (MsgInput input_path);
              EvPrint (MsgOutput output_path)] ++ tb ++ [EvPrint MsgBlank] ++ tm ++ tl
          ++ [EvPrint MsgRule; EvPrint MsgSummaryHeading; EvPrint MsgRule]).
  repeat (progress (rewrite <- ?app_assoc; cbn [app]; rewrite ?app_nil_r)).
  reflexivity.
Qed.

End MainRuns.

(** The demo export with a first sidecar of [Trip] that is not valid
    UTF-8; an input directory that does not exist; a dry run of the demo
    export *)
Lemma failing_sidecar_ends_run_witness :
  outcome (main (sys := demo_os one_updated) (clk := utc_clock)
             ["export"] ["out"] false (demo_sim undecodable_sidecars))
  = Raise UnicodeDecodeError.
Proof.
  refine (proj1 (failing_sidecar_ends_run (sys := demo_os one_updated) (clk := utc_clock)
                   ["export"] ["out"] false (demo_sim undecodable_sidecars)
                   (sidecar trip (pjoin trip "IMG_1.jpeg")) (Raise UnicodeDecodeError)
                   UnicodeDecodeError _ (conj eq_refl eq_refl))).
  vm_compute. repeat (first [left; reflexivity | right]).
Defined.


Lemma normal_return_accounts_for_albums_witness :
  outcome (main (sys := demo_os one_updated) (clk := utc_clock)
             ["export"] ["out"] true (demo_sim good_sidecars))
  = Ok tt
  /\ exists albums counts total_errors,
       outcome (find_albums (sys := demo_os one_updated) ["export"]
                  (demo_sim good_sidecars)) = Ok albums
       /\ List.length counts = List.length albums
       /\ (List.fold_left add_counts counts (0, 0, 0, 0)).1.2 = total_errors
       /\ total_errors <= 0.
Proof.
  assert (H : outcome (main (sys := demo_os one_updated) (clk := utc_clock)
                         ["export"] ["out"] true (demo_sim good_sidecars)) = Ok tt)
    by (vm_compute; reflexivity).
  split; [exact H|].
  destruct (normal_return_accounts_for_albums
              (sys := demo_os one_updated) (clk := utc_clock)
              ["export"] ["out"] true (demo_sim good_sidecars) H)
    as (albums & counts & tp & tsk & te & tr & Hfind & _ & Hall & Hsum & Hte & _).
  exists albums, counts, te. split; [exact Hfind|].
  split; [symmetry; exact (Forall2_length _ _ _ Hall)|].
  split; [now rewrite Hsum | exact Hte].
Defined.

(** *** The argfile, read back *)

Lemma split_on_single (s : string) :
  single_line s = true -> PyStr.split_on "010" s = [s].
Proof.
  induction s as [|c s IH]; [reflexivity|]. cbn [single_line PyStr.split_on].
  intros [Hc Hs]%andb_prop. apply negb_true_iff in Hc. rewrite Hc, (IH Hs). reflexivity.
Qed.

Lemma single_line_app (a b : string) :
  single_line (a +:+ b) = single_line a && single_line b.
Proof.
  induction a as [|c a IH]; [reflexivity|].
  change (String c a +:+ b) with (String c (a +:+ b)). cbn [single_line].
  now rewrite IH, andb_assoc.
Qed.

Lemma split_on_join (lines : list string) :
  lines <> [] -> Forall (fun line => single_line line = true) lines ->
  PyStr.split_on "010" (PyStr.join newline lines) = lines.
Proof.
  induction lines as [|p lines IH]; [congruence|]. intros _ Hall.
  apply Forall_cons in Hall as [Hp Hall].
  destruct lines as [|q lines]; [now apply split_on_single|].
  change (PyStr.join newline (p :: q :: lines))
    with (p +:+ String "010" (PyStr.join newline (q :: lines))).
  rewrite split_on_app, (split_on_single p Hp), IH by (congruence || assumption).
  reflexivity.
Qed.

Section Argfile.
Context {clk : Clock}.

(** X22.  The argfile says what was meant: when no path and no date
    holds a line break, the lines exiftool reads back from the argfile
    are the arguments of the files in their order, seven for each file:
    the [-overwrite_original] option, the four dates, the path, and
    [-execute]. *)
Theorem argfile_reads_back (fts : list (Path * datetime)) :
  fts <> [] ->
  Forall (fun entry : Path * datetime =>
            single_line (path_str entry.1) = true
            /\ single_line (format_exif_datetime entry.2) = true) fts ->
  PyStr.split_on "010" (argfile_text fts) = argfile_lines fts
  /\ List.length (argfile_lines fts) = (7 * List.length fts)%nat.
Proof.
  intros Hne Hall. split.
  - apply split_on_join.
    + destruct fts as [|[p dt] fts]; [congruence | discriminate].
    + unfold argfile_lines. clear Hne.
      induction Hall as [|[p dt] fts [Hp Hdt] _ IH]; [constructor|].
      cbn [List.map List.concat argfile_block fst snd] in *.
      repeat (apply List.Forall_cons;
              [first [reflexivity | exact Hp
                     | rewrite single_line_app, Hdt; reflexivity]|]).
      exact IH.
  - unfold argfile_lines. clear. induction fts as [|[p dt] fts IH]; [reflexivity|].
    cbn [List.map List.concat argfile_block]. rewrite List.length_app, IH.
    cbn [List.length]. lia.
Qed.

End Argfile.

Lemma argfile_reads_back_witness :
  PyStr.split_on "010"
    (argfile_text (clk := utc_clock) [(["out"; "Trip"; "IMG_1.png"], 1600000000)])
  = ["-overwrite_original";
     "-DateTimeOriginal=2020:09:13 12:26:40";
     "-CreateDate=2020:09:13 12:26:40";
     "-FileModifyDate=2020:09:13 12:26:40";
     "-FileCreateDate=2020:09:13 12:26:40";
     "/out/Trip/IMG_1.png";
     "-execute"].
Proof.
  refine (proj1 (argfile_reads_back (clk := utc_clock)
                   [(["out"; "Trip"; "IMG_1.png"], 1600000000)] _ _)).
  - discriminate.
  - repeat constructor.
Defined.

(** *** Where the enumeration and the whole program look *)

Section Reach.
Context {sys : OS} {clk : Clock}.
Local Open Scope script_scope.

Lemma any_media_file_guarded (input_dir item : Path) (entries : list string) :
  in_folder input_dir item ->
  guarded (enumerates input_dir) no_fatal (fun _ => True) (any_media_file item entries).
Proof.
  intros Hitem. induction entries as [|nm entries IH]; cbn [any_media_file].
  - now apply guarded_ret.
  - apply guarded_bind with (Q := fun _ => True).
    + apply guarded_clean. intros s. split; [|trivial].
      cbn. constructor; [|constructor]. exists item. split; [exact Hitem | now exists nm].
    + intros f _. destruct (f && negb (String.eqb nm ".DS_Store")); [now apply guarded_ret|].
      exact IH.
Qed.

Lemma find_albums_guarded (input_dir : Path) :
  guarded (enumerates input_dir) no_fatal (Forall (in_folder input_dir))
    (find_albums input_dir).
Proof.
  unfold find_albums. apply guarded_bind with (Q := fun _ => True).
  { apply guarded_clean. intros s. split; [|trivial].
    unfold do_iterdir. cbn. constructor; [now left | constructor]. }
  intros entries _. apply guarded_bind with (Q := Forall (in_folder input_dir)).
  - apply guarded_for_each; [|constructor].
    intros acc nm _ Hacc. unfold find_item.
    assert (Hitem : in_folder input_dir (pjoin input_dir nm)) by now exists nm.
    apply guarded_bind with (Q := fun _ => True).
    { apply guarded_clean. intros s. split; [|trivial].
      cbn. constructor; [now left | constructor]. }
    intros d _. destruct d; cbn [andb]; [|now apply guarded_ret].
    destruct (PyStr.startswith "." nm) eqn:Hdot; cbn [negb]; [now apply guarded_ret|].
    apply guarded_bind with (Q := fun _ => True).
    { apply guarded_clean. intros s. split; [|trivial].
      unfold do_iterdir. cbn. constructor; [|constructor]. right. now exists nm. }
    intros listing _. apply guarded_bind with (Q := fun _ => True);
      [now apply any_media_file_guarded|].
    intros has_files _. apply guarded_bind with (Q := fun _ => True).
    { apply guarded_clean. intros s. split; [|trivial].
      cbn. constructor; [|constructor]. right. now exists (pjoin input_dir nm). }
    intros has_metadata _. destruct (has_files || has_metadata); apply guarded_ret;
      [|exact Hacc].
    apply Forall_app. split; [exact Hacc | now repeat constructor].
  - intros albums Halbums. apply guarded_ret.
    destruct (sorted_spec albums) as [_ Hperm].
    rewrite Forall_forall in Halbums |- *. intros p Hp. apply Halbums.
    now rewrite <- Hperm.
Qed.

Lemma main_reaches (input_path output_path : Path) (dry_run : bool) :
  guarded (reaches input_path output_path)
    (fun _ ev => reaches input_path output_path ev) (fun _ => True)
    (main input_path output_path dry_run).
Proof.
  set (R := reaches input_path output_path).
  set (FR := fun (_ : exc_class) ev => reaches input_path output_path ev).
  assert (Hprint : forall msg, guarded R FR (fun _ => True) (print msg)).
  { intros msg. apply guarded_print. now left. }
  assert (Hexit : forall msg, guarded R FR (fun _ : unit => True)
                                (print msg ;;; raise SystemExit)).
  { intros msg. apply guarded_bind with (Q := fun _ => True); [apply Hprint|].
    intros _ _. apply guarded_clean. intros s; split; [constructor | trivial]. }
  unfold main. apply guarded_bind with (Q := fun _ => True).
  { apply guarded_clean. intros s; split; [|trivial].
    cbn. constructor; [now left | constructor]. }
  intros found _. destruct found; cbn [negb]; [|apply Hexit].
  apply guarded_bind with (Q := fun _ => True).
  { apply guarded_clean. intros s; split; [|trivial].
    cbn. constructor; [now left | constructor]. }
  intros d _. destruct d; cbn [negb]; [|apply Hexit].
  apply guarded_bind with (Q := Forall (in_folder input_path)).
  { eapply guarded_weaken; [| |apply find_albums_guarded].
    - intros ev Hev. right. now left.
    - intros e ev []. }
  intros albums Halbums. destruct albums as [|a0 albums']; [apply Hexit|].
  remember (a0 :: albums') as albums eqn:Hcons. clear Hcons a0 albums'.
  do 3 (apply guarded_bind with (Q := fun _ => True); [apply Hprint|]; intros _ _).
  apply guarded_bind with (Q := fun _ => True).
  { destruct dry_run; [apply Hprint | now apply guarded_ret]. }
  intros _ _. apply guarded_bind with (Q := fun _ => True); [apply Hprint|].
  intros _ _. apply guarded_bind with (Q := fun _ => True).
  { destruct dry_run; cbn [negb]; [now apply guarded_ret|].
    apply guarded_clean. intros s. split; [|trivial].
    unfold do_mkdir, call. destruct (mkdir_p output_path s) as [r s'].
    cbn. constructor; [now left | constructor]. }
  intros _ _. apply guarded_bind with (Q := fun _ => True).
  { apply guarded_for_each; [|exact I]. intros totals album Hin _.
    assert (Halbum : in_folder input_path album).
    { rewrite Forall_forall in Halbums. now apply Halbums, list_elem_of_In. }
    unfold main_album. destruct totals as [[[tp tsk] te] tr].
    apply guarded_bind with (Q := fun _ => True); [apply Hprint|].
    intros _ _. apply guarded_bind with (Q := fun _ => True).
    { eapply guarded_post; [intros; exact I|].
      eapply guarded_weaken; [| |apply (process_album_guarded album output_path dry_run)].
      - intros ev [Hev _]. right. right. now exists album.
      - intros e ev [_ Hev]. right. right. now exists album. }
    intros [[[p sk] e] r] _.
    apply guarded_bind with (Q := fun _ => True); [apply Hprint|].
    intros _ _. now apply guarded_ret. }
  intros [[[tp tsk] te] tr] _.
  do 8 (apply guarded_bind with (Q := fun _ => True); [apply Hprint|]; intros _ _).
  apply guarded_bind with (Q := fun _ => True).
  { destruct dry_run; [apply Hprint | now apply guarded_ret]. }
  intros _ _. destruct (0 <? te); [|now apply guarded_ret].
  apply guarded_clean. intros s; split; [constructor | trivial].
Qed.

(** X23.  [find_albums] looks no further than it has to: it lists the
    input directory and those of its entries whose name does not start
    with a dot, asks which entries are directories and whether they have
    a [metadata] directory, and asks of files two levels down whether
    they are regular files.  It never lists a folder whose name starts
    with a dot, prints nothing, and every album it returns is an entry of
    the input directory. *)
Theorem find_albums_confined (input_dir : Path) (s : os) :
  Forall (enumerates input_dir) (trace (find_albums input_dir s))
  /\ forall albums,
       outcome (find_albums input_dir s) = Ok albums ->
       Forall (in_folder input_dir) albums.
Proof.
  destruct (find_albums_guarded input_dir s) as [Hclean | (t0 & ev & e & _ & _ & [] & _)].
  exact Hclean.
Qed.

(** X24.  The whole program reads the input tree and writes the output
    tree: every call of [main] is a print, a check of the input
    directory, the creation of the output directory, a call of the
    enumeration of the input directory, or a call confined to an entry
    of the input directory and its output folder.  In particular every
    copy goes from [input / album / file] to [output / album / file'],
    and every directory created is the output directory or
    [output / album]. *)
Theorem main_confined (input_path output_path : Path) (dry_run : bool) (s : os) :
  Forall (reaches input_path output_path)
    (trace (main input_path output_path dry_run s))
  /\ (forall src dst r,
        In (EvCopy2 src dst r) (trace (main input_path output_path dry_run s)) ->
        exists album_name file file',
          src = pjoin (pjoin input_path album_name) file
          /\ dst = pjoin (pjoin output_path album_name) file')
  /\ (forall p r,
        In (EvMkdir p r) (trace (main input_path output_path dry_run s)) ->
        p = output_path \/ in_folder output_path p).
Proof.
  assert (Hall : Forall (reaches input_path output_path)
                   (trace (main input_path output_path dry_run s))).
  { destruct (main_reaches input_path output_path dry_run s)
      as [[Ht _] | (t0 & ev & e & -> & Ht0 & Hev & _)]; [exact Ht|].
    apply Forall_app. split; [exact Ht0 | constructor; [exact Hev | constructor]]. }
  split; [exact Hall|]. rewrite Forall_forall in Hall. split.
  - intros src dst r Hin. apply list_elem_of_In, Hall in Hin.
    destruct Hin as [[]|[[]|(album & [album_name ->] & [file ->] & [file' ->])]].
    exists album_name, file, file'. now rewrite name_pjoin.
  - intros p r Hin. apply list_elem_of_In, Hall in Hin.
    destruct Hin as [->|[[]|(album & _ & ->)]]; [now left|].
    right. now eexists.
Qed.

End Reach.
